(** * PlayerokBot: the promotion cycle of [main.py]

    A shallow embedding of the rate-limit aware promotion engine of
    [src/main.py]: [RateLimiter], [promote_product_with_retry] and
    [check_and_update_products], followed by the properties of the
    specification that concern them.

    Conventions of the embedding.
    - Python [int] is [Z]; Python [float] durations are rationals [Q]:
      the arithmetic is exact, where the source rounds to binary floating
      point, and there is no [nan] and no infinity.
    - Instants are integers counting microseconds, the resolution of
      [datetime]; a [timedelta.total_seconds()] is kept in microseconds
      and compared against seconds scaled by [10^6].
    - Strings are byte strings. [strip] and [lower] act on ASCII, where
      the source's [str.strip] and [str.lower] also know the white space
      and the letters of the rest of Unicode: names that differ only in
      the case of such letters are one name to the source and two names
      here. The properties below concern the normalised name as a whole,
      not the letters it is made of.
    - Everything outside the process (marketplace client, clock, random
      generator, console) is a [World]: the replies the outside gives, in
      the order they are asked for, and the chronological [trace] of the
      effects the program performed. A world holds the replies of a
      stretch of time, finitely many; a call made after the last of them
      fails as on a lost connection.
    - An exception is the value [Raise e], [e] being [str(e)]; only
      subclasses of [Exception] are modelled. *)

From Stdlib Require Import ZArith QArith Qround Lia Lqa List Ascii String.
From stdpp Require Import base option list gmap strings pretty.

Open Scope Z_scope.

(** ** Strings *)

(** Python's [needle in hay] on [str]. *)
Fixpoint str_in (needle hay : string) : bool :=
  String.prefix needle hay ||
  match hay with
  | EmptyString => false
  | String _ rest => str_in needle rest
  end.

(** The white space of ASCII, as [str.isspace] has it: codes 9 to 13 and
    28 to 32. *)
Definition is_space (c : ascii) : bool :=
  let n := Z.of_nat (nat_of_ascii c) in
  ((9 <=? n) && (n <=? 13)) || ((28 <=? n) && (n <=? 32)).

Fixpoint lstrip (s : string) : string :=
  match s with
  | EmptyString => EmptyString
  | String c rest => if is_space c then lstrip rest else s
  end.

Fixpoint rstrip (s : string) : string :=
  match s with
  | EmptyString => EmptyString
  | String c rest =>
      match rstrip rest with
      | EmptyString => if is_space c then EmptyString else String c EmptyString
      | kept => String c kept
      end
  end.

(** [s.strip()], for the white space of ASCII. *)
Definition strip (s : string) : string := rstrip (lstrip s).

Definition lower_ascii (c : ascii) : ascii :=
  let n := nat_of_ascii c in
  if ((65 <=? n) && (n <=? 90))%nat then ascii_of_nat (n + 32) else c.

(** [s.lower()], for the letters of ASCII; every other byte is kept. *)
Fixpoint lower (s : string) : string :=
  match s with
  | EmptyString => EmptyString
  | String c rest => String (lower_ascii c) (lower rest)
  end.

(** [_normalize_name(name)]: [(name or "").strip().lower()]. *)
Definition _normalize_name (name : option string) : string :=
  lower (strip (default "" name)).

(** ** Exceptions *)

Inductive result (A : Type) : Type :=
  | Ok (a : A)
  | Raise (e : string).
Arguments Ok {A} a.
Arguments Raise {A} e.

(** ** Remote data ([playerokapi.types]) *)

Inductive PriorityTypes := DEFAULT | PREMIUM.

Record ItemPriorityStatus := {
  priority_id : string;
  priority_name : string;
  priority_type : PriorityTypes
}.

(** [datetime]: the wall reading and, for an aware value, its UTC offset,
    both in microseconds. *)
Record datetime := {
  wall : Z;
  tzinfo : option Z
}.

Record ItemProfile := {
  item_id : string;
  item_name : option string;
  item_price : Z;
  approval_date : string
}.

Record PageInfo := {
  has_next_page : bool;
  end_cursor : option string
}.

Record ItemProfileList := {
  items : list ItemProfile;
  page_info : PageInfo
}.

(** ** Configuration ([Config]) *)

(** A scalar of [config.yaml] as [float(...)] sees it: [YNumber q] is a
    number, or text that [float] reads as the number [q]; [YText s] is
    text that [float] refuses. *)
Inductive yaml_scalar :=
  | YNumber (q : Q)
  | YText (s : string).

(** Python's [float(v)]: raises [ValueError] on text that is no number. *)
Definition float_of (v : yaml_scalar) : result Q :=
  match v with
  | YNumber q => Ok q
  | YText s => Raise ("could not convert string to float: '" +:+ s +:+ "'")
  end.

(** Python's [int(x)] on a float: truncation towards zero. *)
Definition int_of (x : Q) : Z := Z.quot (Qnum x) (Z.pos (Qden x)).

(** The loaded configuration. [_validate_config] has checked the delay
    ranges and [duplicates_limit]; it never looks at [promo_threshold]. *)
Record Config := {
  item_status : string;
  verbose : bool;
  filters_include_names : list string;
  filters_exclude_names : list string;
  filters_duplicates_limit : option Z;
  intervals_promo_threshold : option yaml_scalar;
  _delay_between_promos_bounds : Q * Q;
  _delay_between_pages_bounds : Q * Q
}.

Definition names_of (raw : list string) : gset string :=
  list_to_set
    (map (fun n => _normalize_name (Some n))
         (filter (fun n => strip n ≠ "") raw)).

Definition include_names (config : Config) : gset string :=
  names_of (filters_include_names config).

Definition exclude_names (config : Config) : gset string :=
  names_of (filters_exclude_names config).

Definition duplicates_limit (config : Config) : Z :=
  default (-1) (filters_duplicates_limit config).

(** [int(float(...) * 60)], the product taken exactly: where the source's
    product in floating point falls just below a whole number, the source
    is one second below (245 for 4.1 minutes, 246 here). *)
Definition promo_threshold_sec (config : Config) : result Z :=
  match float_of (default (YNumber 30) (intervals_promo_threshold config)) with
  | Ok minutes => Ok (int_of (minutes * 60))
  | Raise e => Raise e
  end.

(** ** The outside world *)

(** What the program writes to the console, one constructor per [print]. *)
Inductive Msg :=
  | MRateLimit (attempt max_retries : Z)
  | MWaiting (seconds : Z)
  | MRemaining (mins secs : Z)
  | MNewline
  | MPageRateLimit (attempt page_max_retries : Z)
  | MPageRetriesExceeded (page_max_retries : Z)
  | MPageError (error_message : string)
  | MNoPageData
  | MSkipInclude (raw_name : string)
  | MSkipExclude (raw_name : string)
  | MInvalidDate (raw_name : string)
  | MTooYoung (raw_name : string) (remaining_min : Z)
  | MDuplicateLimit (raw_name : string) (limit : Z)
  | MItemHeader (raw_name item : string)
  | MElapsed (times_passed_min : Z)
  | MSuccess (message : string)
  | MFailure (message : string)
  | MPremiumUnavailable
  | MUnexpected (e : string)
  | MCycleError (e : string)
  | MSummary (total_checked total_promoted : Z).

Inductive Event :=
  | GetItems (after_cursor : option string) (status : string)
  | GetItemPriorityStatuses (item : string) (price : Z)
  | IncreaseItemPriorityStatus (item priority : string)
  | PublishItem (item priority : string)
  | Sleep (seconds : Q)
  | Print (m : Msg).

Record World := {
  get_items_replies : list (result (option ItemProfileList));
  priority_replies : list (result (list ItemPriorityStatus));
  promote_replies : list (result unit);
  randint_draws : list Z;
  random_draws : list Q;
  clock_readings : list Z;
  trace : list Event
}.

Definition emit (e : Event) (w : World) : World :=
  {| get_items_replies := get_items_replies w;
     priority_replies := priority_replies w;
     promote_replies := promote_replies w;
     randint_draws := randint_draws w;
     random_draws := random_draws w;
     clock_readings := clock_readings w;
     trace := trace w ++ [e] |}.

Definition print (m : Msg) : World -> World := emit (Print m).

(** A sleep of [seconds] that [time.sleep] has accepted. *)
Definition sleep (seconds : Q) : World -> World := emit (Sleep seconds).

(** [time.sleep] keeps its argument as a signed 64-bit count of
    nanoseconds: it raises [OverflowError] when the count does not fit, and
    [ValueError] when the argument is negative. *)
Definition sleep_refused (seconds : Q) : option string :=
  if negb (Qle_bool (inject_Z (- 2 ^ 63)) (seconds * inject_Z 1000000000)
           && Qle_bool (seconds * inject_Z 1000000000) (inject_Z (2 ^ 63 - 1)))
  then Some "timestamp too large to convert to C _PyTime_t"
  else if negb (Qle_bool 0 seconds)
  then Some "sleep length must be non-negative"
  else None.

(** [time.sleep(seconds)]. *)
Definition time_sleep (seconds : Q) (w : World) : result unit * World :=
  match sleep_refused seconds with
  | Some e => (Raise e, w)
  | None => (Ok tt, sleep seconds w)
  end.

(** [if wait_time > 0: time.sleep(wait_time)]. *)
Definition sleep_if_positive (wait_time : Q) (w : World) : result unit * World :=
  if negb (Qle_bool wait_time 0) then time_sleep wait_time w else (Ok tt, w).

(** The reply to a remote call when the world has none left: the call
    fails as on a lost connection. *)
Definition no_reply : string := "Connection aborted.".

Definition next_reply {A} (replies : list (result A)) : result A * list (result A) :=
  match replies with
  | [] => (Raise no_reply, [])
  | r :: rest => (r, rest)
  end.

(** [user.get_items(after_cursor=..., statuses=[...])]. *)
Definition get_items (after_cursor : option string) (status : string) (w : World)
  : result (option ItemProfileList) * World :=
  let w := emit (GetItems after_cursor status) w in
  let '(r, rest) := next_reply (get_items_replies w) in
  (r, {| get_items_replies := rest;
         priority_replies := priority_replies w;
         promote_replies := promote_replies w;
         randint_draws := randint_draws w;
         random_draws := random_draws w;
         clock_readings := clock_readings w;
         trace := trace w |}).

(** [acc.get_item_priority_statuses(item, str(price))]. *)
Definition get_item_priority_statuses (item : string) (price : Z) (w : World)
  : result (list ItemPriorityStatus) * World :=
  let w := emit (GetItemPriorityStatuses item price) w in
  let '(r, rest) := next_reply (priority_replies w) in
  (r, {| get_items_replies := get_items_replies w;
         priority_replies := rest;
         promote_replies := promote_replies w;
         randint_draws := randint_draws w;
         random_draws := random_draws w;
         clock_readings := clock_readings w;
         trace := trace w |}).

Definition promote_call (e : Event) (w : World) : result unit * World :=
  let w := emit e w in
  let '(r, rest) := next_reply (promote_replies w) in
  (r, {| get_items_replies := get_items_replies w;
         priority_replies := priority_replies w;
         promote_replies := rest;
         randint_draws := randint_draws w;
         random_draws := random_draws w;
         clock_readings := clock_readings w;
         trace := trace w |}).

(** [acc.increase_item_priority_status(item, priority, ...)]. *)
Definition increase_item_priority_status (item priority : string) : World -> result unit * World :=
  promote_call (IncreaseItemPriorityStatus item priority).

(** [acc.publish_item(item, priority)]. *)
Definition publish_item (item priority : string) : World -> result unit * World :=
  promote_call (PublishItem item priority).

(** [random.randint(a, b)]: an integer [N] with [a <= N <= b]. *)
Definition randint (a b : Z) (w : World) : Z * World :=
  let '(draw, rest) :=
    match randint_draws w with
    | [] => (0, [])
    | d :: rest => (d, rest)
    end in
  (a + draw mod (b - a + 1),
   {| get_items_replies := get_items_replies w;
      priority_replies := priority_replies w;
      promote_replies := promote_replies w;
      randint_draws := rest;
      random_draws := random_draws w;
      clock_readings := clock_readings w;
      trace := trace w |}).

(** [random.uniform(a, b)], that is [a + (b - a) * random.random()]. *)
Definition uniform (a b : Q) (w : World) : Q * World :=
  let '(draw, rest) :=
    match random_draws w with
    | [] => (0%Q, [])
    | d :: rest => (d, rest)
    end in
  ((a + (b - a) * draw)%Q,
   {| get_items_replies := get_items_replies w;
      priority_replies := priority_replies w;
      promote_replies := promote_replies w;
      randint_draws := randint_draws w;
      random_draws := rest;
      clock_readings := clock_readings w;
      trace := trace w |}).

(** [_get_now()]: the current instant, UTC. *)
Definition _get_now (w : World) : Z * World :=
  let '(now, rest) :=
    match clock_readings w with
    | [] => (0, [])
    | t :: rest => (t, rest)
    end in
  (now,
   {| get_items_replies := get_items_replies w;
      priority_replies := priority_replies w;
      promote_replies := promote_replies w;
      randint_draws := randint_draws w;
      random_draws := random_draws w;
      clock_readings := rest;
      trace := trace w |}).

(** ** [Config]: the random delays *)

Definition random_delay_between_promos_sec (config : Config) (w : World) : Q * World :=
  let '(dmin, dmax) := _delay_between_promos_bounds config in
  uniform dmin dmax w.

Definition random_delay_between_pages_sec (config : Config) (w : World) : Q * World :=
  let '(pmin, pmax) := _delay_between_pages_bounds config in
  if Qeq_bool pmin 0 && Qeq_bool pmax 0 then (0%Q, w) else uniform pmin pmax w.

(** ** [RateLimiter] *)

Record RateLimiter := {
  consecutive_errors : Z;
  last_error_time : option Z
}.

Definition RateLimiter_init : RateLimiter :=
  {| consecutive_errors := 0; last_error_time := None |}.

(** The 429 branch of [calculate_wait_time], given the jitter drawn. *)
Definition backoff (consecutive_errors jitter : Z) : Z :=
  let base_wait := 5 in
  let exponential_wait := base_wait * 2 ^ Z.min consecutive_errors 5 in
  Z.min (exponential_wait + jitter) 120.

Definition calculate_wait_time (config : Config) (self : RateLimiter)
    (error_code : option Z) (w : World) : Q * World :=
  if bool_decide (error_code = Some 429) then
    let '(jitter, w) := randint 0 10 w in
    (inject_Z (backoff (consecutive_errors self) jitter), w)
  else random_delay_between_promos_sec config w.

Definition on_error (self : RateLimiter) (w : World) : RateLimiter * World :=
  let '(now, w) := _get_now w in
  ({| consecutive_errors := consecutive_errors self + 1;
      last_error_time := Some now |}, w).

Definition on_success (self : RateLimiter) : RateLimiter :=
  {| consecutive_errors := 0; last_error_time := None |}.

(** ** Waiting out a backoff *)

(** [range(n)]. *)
Definition range (n : Z) : list Z := map Z.of_nat (seq 0 (Z.to_nat n)).

(** [range(start, 0, -5)]. *)
Fixpoint range_down_by_5 (fuel : nat) (start : Z) : list Z :=
  match fuel with
  | O => []
  | S fuel => if 0 <? start then start :: range_down_by_5 fuel (start - 5) else []
  end.

(** The progress bar of a backoff: one line and one sleep per step, then
    the closing [print()]. A step sleeps [min(5, remaining)] seconds with
    [remaining] positive, between 1 and 5 seconds, which [time.sleep]
    accepts. *)
Definition countdown (remaining_int : Z) (w : World) : World :=
  print MNewline
    (fold_left
       (fun w remaining =>
          sleep (inject_Z (Z.min 5 remaining))
                (print (MRemaining (remaining / 60) (remaining mod 60)) w))
       (range_down_by_5 (Z.to_nat remaining_int) remaining_int) w).

(** ** [promote_product_with_retry] *)

Definition msg_promoted (priority_name : string) : string :=
  "Продвинут со статусом: " +:+ priority_name.

Definition msg_retries_exhausted (max_retries : Z) : string :=
  "Превышен лимит попыток после " +:+ pretty max_retries +:+ " попыток. Пропуск товара.".

Definition msg_promotion_error (error_message : string) : string :=
  "Ошибка при продвижении: " +:+ error_message.

Definition msg_unknown_error : string := "Неизвестная ошибка".

(** The test of the [except] clause of [promote_product_with_retry]. *)
Definition is_429 (error_message : string) : bool :=
  str_in "429" error_message || str_in "TOO_MANY_REQUESTS" error_message.

(** The body of [for attempt in range(max_retries)], over the attempts
    that are left; [[]] is the statement after the loop. *)
Fixpoint promote_attempts (config : Config) (product : ItemProfile)
    (premium_priority : ItemPriorityStatus) (is_published : bool)
    (max_retries : Z) (attempts : list Z) (rate_limiter : RateLimiter) (w : World)
  : (bool * string) * RateLimiter * World :=
  match attempts with
  | [] => ((false, msg_unknown_error), rate_limiter, w)
  | attempt :: attempts =>
      let '(reply, w) :=
        if is_published
        then increase_item_priority_status (item_id product) (priority_id premium_priority) w
        else publish_item (item_id product) (priority_id premium_priority) w in
      match reply with
      | Ok _ =>
          ((true, msg_promoted (priority_name premium_priority)),
           on_success rate_limiter, w)
      | Raise error_message =>
          if is_429 error_message then
            let '(rate_limiter, w) := on_error rate_limiter w in
            let '(wait_time, w) := calculate_wait_time config rate_limiter (Some 429) w in
            if attempt <? max_retries - 1 then
              let w := print (MRateLimit (attempt + 1) max_retries) w in
              let w := print (MWaiting (int_of wait_time)) w in
              let w := countdown (int_of wait_time) w in
              promote_attempts config product premium_priority is_published
                max_retries attempts rate_limiter w
            else
              ((false, msg_retries_exhausted max_retries), rate_limiter, w)
          else
            ((false, msg_promotion_error error_message), rate_limiter, w)
      end
  end.

Definition promote_product_with_retry (config : Config) (product : ItemProfile)
    (premium_priority : ItemPriorityStatus) (is_published : bool)
    (rate_limiter : RateLimiter) (max_retries : Z) (w : World)
  : (bool * string) * RateLimiter * World :=
  promote_attempts config product premium_priority is_published
    max_retries (range max_retries) rate_limiter w.

(** ** [check_and_update_products] *)

(** The local variables of the function. *)
Record Locals := {
  cursor : option string;
  total_checked : Z;
  total_promoted : Z;
  total_skipped : Z;
  total_errors : Z;
  promoted_by_name : gmap string Z;
  rate_limiter : RateLimiter
}.

Definition Locals_init : Locals :=
  {| cursor := None;
     total_checked := 0;
     total_promoted := 0;
     total_skipped := 0;
     total_errors := 0;
     promoted_by_name := ∅;
     rate_limiter := RateLimiter_init |}.

Definition set_cursor (c : option string) (st : Locals) : Locals :=
  {| cursor := c;
     total_checked := total_checked st;
     total_promoted := total_promoted st;
     total_skipped := total_skipped st;
     total_errors := total_errors st;
     promoted_by_name := promoted_by_name st;
     rate_limiter := rate_limiter st |}.

Definition incr_total_checked (st : Locals) : Locals :=
  {| cursor := cursor st;
     total_checked := total_checked st + 1;
     total_promoted := total_promoted st;
     total_skipped := total_skipped st;
     total_errors := total_errors st;
     promoted_by_name := promoted_by_name st;
     rate_limiter := rate_limiter st |}.

Definition incr_total_promoted (st : Locals) : Locals :=
  {| cursor := cursor st;
     total_checked := total_checked st;
     total_promoted := total_promoted st + 1;
     total_skipped := total_skipped st;
     total_errors := total_errors st;
     promoted_by_name := promoted_by_name st;
     rate_limiter := rate_limiter st |}.

Definition incr_total_skipped (st : Locals) : Locals :=
  {| cursor := cursor st;
     total_checked := total_checked st;
     total_promoted := total_promoted st;
     total_skipped := total_skipped st + 1;
     total_errors := total_errors st;
     promoted_by_name := promoted_by_name st;
     rate_limiter := rate_limiter st |}.

Definition incr_total_errors (st : Locals) : Locals :=
  {| cursor := cursor st;
     total_checked := total_checked st;
     total_promoted := total_promoted st;
     total_skipped := total_skipped st;
     total_errors := total_errors st + 1;
     promoted_by_name := promoted_by_name st;
     rate_limiter := rate_limiter st |}.

Definition set_promoted_by_name (d : gmap string Z) (st : Locals) : Locals :=
  {| cursor := cursor st;
     total_checked := total_checked st;
     total_promoted := total_promoted st;
     total_skipped := total_skipped st;
     total_errors := total_errors st;
     promoted_by_name := d;
     rate_limiter := rate_limiter st |}.

Definition set_rate_limiter (r : RateLimiter) (st : Locals) : Locals :=
  {| cursor := cursor st;
     total_checked := total_checked st;
     total_promoted := total_promoted st;
     total_skipped := total_skipped st;
     total_errors := total_errors st;
     promoted_by_name := promoted_by_name st;
     rate_limiter := r |}.

(** [defaultdict(int)]: reading [d[key]] stores 0 under a missing key. *)
Definition dd_get (key : string) (d : gmap string Z) : Z * gmap string Z :=
  match d !! key with
  | Some n => (n, d)
  | None => (0, <[key := 0]> d)
  end.

(** [d[key] += 1]. *)
Definition dd_incr (key : string) (d : gmap string Z) : gmap string Z :=
  let '(n, d) := dd_get key d in <[key := n + 1]> d.

(** The summary line that ends a cycle. *)
Definition print_summary (st : Locals) : World -> World :=
  print (MSummary (total_checked st) (total_promoted st)).

(** The test of the [except] clause of the page fetch. *)
Definition is_rate_limited (error_message : string) : bool :=
  str_in "429" error_message
  || str_in "TOO_MANY_REQUESTS" error_message
  || str_in "Too many attempts" error_message.

(** How [for attempt in range(page_max_retries)] is left: by [break] or by
    falling off its end, with [item_list] as it then is, or by [return]. *)
Inductive fetch_exit :=
  | Fetched (item_list : option ItemProfileList)
  | FetchReturn.

Fixpoint fetch_attempts (config : Config) (page_max_retries : Z)
    (attempts : list Z) (st : Locals) (w : World)
  : fetch_exit * Locals * World :=
  match attempts with
  | [] => (Fetched None, st, w)
  | attempt :: attempts =>
      let '(reply, w) := get_items (cursor st) (item_status config) w in
      match reply with
      | Ok item_list =>
          (Fetched item_list, set_rate_limiter (on_success (rate_limiter st)) st, w)
      | Raise error_message =>
          if is_rate_limited error_message then
            let '(rl, w) := on_error (rate_limiter st) w in
            let st := set_rate_limiter rl st in
            let '(wait_time, w) := calculate_wait_time config rl (Some 429) w in
            if attempt <? page_max_retries - 1 then
              let w := print (MPageRateLimit (attempt + 1) page_max_retries) w in
              let w := print (MWaiting (int_of wait_time)) w in
              let w := countdown (int_of wait_time) w in
              fetch_attempts config page_max_retries attempts st w
            else
              let w := print (MPageRetriesExceeded page_max_retries) w in
              let st := incr_total_errors st in
              (FetchReturn, st, print_summary st w)
          else
            let w := print (MPageError error_message) w in
            let st := incr_total_errors st in
            (FetchReturn, st, print_summary st w)
      end
  end.

(** The branch a listing takes through the loop body; [Uncaught e] is an
    exception that leaves the body. *)
Inductive Decision :=
  | SkipFilter
  | SkipInvalidDate
  | SkipTooYoung
  | SkipDuplicateLimit
  | PremiumUnavailable
  | Promoted
  | RetriesExhausted
  | PromotionFailed
  | UnexpectedError
  | Uncaught (e : string).

(** Step 1 of the loop body: the message of the filter that rejects
    [norm_name], if one does. *)
Definition name_filter (config : Config) (norm_name : string) : option (string -> Msg) :=
  if bool_decide (include_names config ≠ ∅) then
    if bool_decide (norm_name ∉ include_names config) then Some MSkipInclude else None
  else
    if bool_decide (exclude_names config ≠ ∅)
       && bool_decide (norm_name ∈ exclude_names config)
    then Some MSkipExclude else None.

Definition say (config : Config) (m : Msg) (w : World) : World :=
  if verbose config then print m w else w.

(** [pytz.utc.localize] on a naive [datetime]. *)
Definition localize_utc (d : datetime) : datetime :=
  {| wall := wall d; tzinfo := Some 0 |}.

(** [(now - d)] in microseconds, [now] being a UTC instant and [d] aware. *)
Definition elapsed_since (now : Z) (d : datetime) : Z :=
  now - (wall d - default 0 (tzinfo d)).

(** [status.type == PriorityTypes.PREMIUM]. *)
Definition is_premium (status : ItemPriorityStatus) : bool :=
  match priority_type status with
  | PREMIUM => true
  | DEFAULT => false
  end.

Section Cycle.

(** [datetime.fromisoformat]: [None] where it raises. *)
Variable fromisoformat : string -> option datetime.

(** Step 4 of the loop body, the [try] block. *)
Definition promote_step (config : Config) (product : ItemProfile)
    (norm_name : string) (st : Locals) (w : World) : Decision * Locals * World :=
  let '(reply, w) :=
    get_item_priority_statuses (item_id product) (item_price product) w in
  match reply with
  | Raise e => (UnexpectedError, incr_total_errors st, print (MUnexpected e) w)
  | Ok priority_statuses =>
      match List.find is_premium priority_statuses with
      | Some premium_priority =>
          let '(success, message, rl, w) :=
            promote_product_with_retry config product premium_priority
              (bool_decide (item_status config = "APPROVED")) (rate_limiter st) 3 w in
          let st := set_rate_limiter rl st in
          if success then
            let w := print (MSuccess message) w in
            let st := incr_total_promoted st in
            let st := set_promoted_by_name (dd_incr norm_name (promoted_by_name st)) st in
            let '(wait_time, w) := calculate_wait_time config rl None w in
            match sleep_if_positive wait_time w with
            | (Ok _, w) => (Promoted, st, w)
            | (Raise e, w) =>
                (UnexpectedError, incr_total_errors st, print (MUnexpected e) w)
            end
          else
            let w := print (MFailure message) w in
            if str_in "Пропуск товара" message
            then (RetriesExhausted, incr_total_skipped st, w)
            else (PromotionFailed, incr_total_errors st, w)
      | None =>
          (PremiumUnavailable, incr_total_skipped st, say config MPremiumUnavailable w)
      end
  end.

(** The body of [for product in item_list.items]. *)
Definition process_product (config : Config) (product : ItemProfile)
    (st : Locals) (w : World) : Decision * Locals * World :=
  let st := incr_total_checked st in
  let raw_name := default "" (item_name product) in
  let norm_name := _normalize_name (Some raw_name) in
  match name_filter config norm_name with
  | Some m => (SkipFilter, incr_total_skipped st, say config (m raw_name) w)
  | None =>
  match fromisoformat (approval_date product) with
  | None => (SkipInvalidDate, incr_total_skipped st, say config (MInvalidDate raw_name) w)
  | Some approval =>
  let approval :=
    match tzinfo approval with None => localize_utc approval | Some _ => approval end in
  let '(now, w) := _get_now w in
  let times_passed := elapsed_since now approval in
  let times_passed_min := times_passed / 60000000 in
  match promo_threshold_sec config with
  | Raise e => (Uncaught e, st, w)
  | Ok threshold =>
  if times_passed <=? threshold * 1000000 then
    let remaining_min := (threshold * 1000000 - times_passed) / 60000000 in
    (SkipTooYoung, st, say config (MTooYoung raw_name remaining_min) w)
  else
  let '(limit_reached, st) :=
    if 0 <=? duplicates_limit config then
      let '(n, d) := dd_get norm_name (promoted_by_name st) in
      (duplicates_limit config <=? n, set_promoted_by_name d st)
    else (false, st) in
  if limit_reached then
    (SkipDuplicateLimit, incr_total_skipped st,
     say config (MDuplicateLimit raw_name (duplicates_limit config)) w)
  else
  let w := say config (MItemHeader raw_name (item_id product)) w in
  let w := say config (MElapsed times_passed_min) w in
  promote_step config product norm_name st w
  end end end.

Fixpoint process_items (config : Config) (products : list ItemProfile)
    (st : Locals) (w : World) : option string * Locals * World :=
  match products with
  | [] => (None, st, w)
  | product :: products =>
      match process_product config product st w with
      | (Uncaught e, st, w) => (Some e, st, w)
      | (_, st, w) => process_items config products st w
      end
  end.

(** How [while True] is left. *)
Inductive loop_exit :=
  | ByReturn
  | ByBreak
  | ByException (e : string)
  | Unfinished.

Definition page_max_retries : Z := 5.

(** [while True], at most [fuel] rounds of it. *)
Fixpoint pages_loop (fuel : nat) (config : Config) (st : Locals) (w : World)
  : loop_exit * Locals * World :=
  match fuel with
  | O => (Unfinished, st, w)
  | S fuel =>
      match fetch_attempts config page_max_retries (range page_max_retries) st w with
      | (FetchReturn, st, w) => (ByReturn, st, w)
      | (Fetched None, st, w) =>
          let w := print MNoPageData w in
          let st := incr_total_errors st in
          (ByReturn, st, print_summary st w)
      | (Fetched (Some item_list), st, w) =>
          match process_items config (items item_list) st w with
          | (Some e, st, w) => (ByException e, st, w)
          | (None, st, w) =>
              if negb (has_next_page (page_info item_list)) then (ByBreak, st, w)
              else
                let '(wait_time, w) := random_delay_between_pages_sec config w in
                match sleep_if_positive wait_time w with
                | (Ok _, w) =>
                    pages_loop fuel config
                      (set_cursor (end_cursor (page_info item_list)) st) w
                | (Raise e, w) => (ByException e, st, w)
                end
          end
      end
  end.

(** The [try] statement and the summary after it, entered with the locals
    [st]; [None] when [fuel] rounds do not finish the loop. *)
Definition cycle_from (fuel : nat) (config : Config) (st : Locals) (w : World)
  : option (Locals * World) :=
  match pages_loop fuel config st w with
  | (ByReturn, st, w) => Some (st, w)
  | (ByBreak, st, w) => Some (st, print_summary st w)
  | (ByException e, st, w) => Some (st, print_summary st (print (MCycleError e) w))
  | (Unfinished, _, _) => None
  end.

(** The cycle on a world: every round of the loop asks for a page, so one
    round more than the world has page replies ends it. The loop of the
    source runs as long as pages follow one another; [pages_loop] is that
    loop up to any number of rounds. *)
Definition check_and_update_products (config : Config) (w : World)
  : option (Locals * World) :=
  cycle_from (S (length (get_items_replies w))) config Locals_init w.

End Cycle.

(** * The vocabulary of the properties *)

(** ** The traces and replies of a world *)

(** The replies a world still holds. *)
Definition replies_left (w : World) :=
  (get_items_replies w, priority_replies w, promote_replies w).

(** What [countdown] adds to the trace. *)
Definition countdown_events (remaining_int : Z) : list Event :=
  flat_map
    (fun remaining =>
       [Print (MRemaining (remaining / 60) (remaining mod 60));
        Sleep (inject_Z (Z.min 5 remaining))])
    (range_down_by_5 (Z.to_nat remaining_int) remaining_int)
  ++ [Print MNewline].

(** The remote call one attempt makes. *)
Definition promote_event (is_published : bool) (product : ItemProfile)
    (premium_priority : ItemPriorityStatus) : Event :=
  if is_published
  then IncreaseItemPriorityStatus (item_id product) (priority_id premium_priority)
  else PublishItem (item_id product) (priority_id premium_priority).

Definition is_promote_call (e : Event) : bool :=
  match e with
  | IncreaseItemPriorityStatus _ _ | PublishItem _ _ => true
  | _ => false
  end.

Fixpoint promote_calls (evs : list Event) : nat :=
  match evs with
  | [] => 0
  | e :: evs => (if is_promote_call e then 1 else 0) + promote_calls evs
  end.

(** The listings of the pages that the replies [replies] deliver. *)
Fixpoint listings_of (replies : list (result (option ItemProfileList))) : Z :=
  match replies with
  | [] => 0
  | Ok (Some item_list) :: replies =>
      Z.of_nat (length (items item_list)) + listings_of replies
  | _ :: replies => listings_of replies
  end.

(** ** A throttled reply *)

(** The error code [calculate_wait_time] is given after a throttled call. *)
Definition throttled : option Z := Some 429.

(** Both retry loops treat a throttled reply alike: the limiter counts it
    and the wait is computed; unless the attempt was the last, the wait is
    announced and sat out. *)
Definition throttled_once (config : Config) (rl : RateLimiter) (w : World)
  : RateLimiter * Q * World :=
  let '(rl, w) := on_error rl w in
  let '(wait_time, w) := calculate_wait_time config rl throttled w in
  (rl, wait_time, w).

Definition waited (announce : Msg) (wait_time : Q) (w : World) : World :=
  countdown (int_of wait_time)
    (print (MWaiting (int_of wait_time)) (print announce w)).

Definition waited_events (announce : Msg) (wait_time : Q) : list Event :=
  Print announce :: Print (MWaiting (int_of wait_time))
  :: countdown_events (int_of wait_time).

(** ** Results and counters *)

(** The results a round can return. *)
Definition returned_in_loop (premium_priority : ItemPriorityStatus) (max_retries : Z)
    (r : bool * string) : Prop :=
  r = (true, msg_promoted (priority_name premium_priority))
  \/ r = (false, msg_retries_exhausted max_retries)
  \/ exists error_message,
       is_429 error_message = false /\ r = (false, msg_promotion_error error_message).

(** The counters after one listing: one more checked, at most one more
    among promoted, skipped and errors, none fewer. *)
Definition counted_once (st st' : Locals) : Prop :=
  total_promoted st <= total_promoted st' /\
  total_skipped st <= total_skipped st' /\
  total_errors st <= total_errors st' /\
  total_promoted st' + total_skipped st' + total_errors st'
  <= total_promoted st + total_skipped st + total_errors st + 1.

(** [promoted_by_name[name]] as a later read would give it. *)
Definition promoted_count (st : Locals) (name : string) : Z :=
  default 0 (promoted_by_name st !! name).

Definition within_limit (limit : Z) (st : Locals) : Prop :=
  forall name, promoted_count st name <= limit.

(** How the loop of the cycle that starts in [w] is left. *)
Definition cycle_exit (fromisoformat : string -> option datetime) (config : Config)
    (w : World) : loop_exit :=
  fst (fst (pages_loop fromisoformat (S (length (get_items_replies w))) config
              Locals_init w)).

(** The four counters a finished cycle leaves: checked, promoted, skipped,
    errors. *)
Definition counters_of (outcome : option (Locals * World)) : option (Z * Z * Z * Z) :=
  match outcome with
  | Some (st, _) =>
      Some (total_checked st, total_promoted st, total_skipped st, total_errors st)
  | None => None
  end.

Definition trace_of (outcome : option (Locals * World)) : option (list Event) :=
  match outcome with
  | Some (_, w) => Some (trace w)
  | None => None
  end.

(** ** Sample values *)

(** A configuration with the values that [_create_default_config]
    names, and a duplicate limit. *)
Definition sample_config (limit : option Z) : Config :=
  {| item_status := "APPROVED";
     verbose := true;
     filters_include_names := [];
     filters_exclude_names := [];
     filters_duplicates_limit := limit;
     intervals_promo_threshold := Some (YNumber 30);
     _delay_between_promos_bounds := (12 # 10, 35 # 10);
     _delay_between_pages_bounds := (0 # 1, 0 # 1) |}.

(** The same with the delays [promos] between two promotions and
    [pages] between two pages, each for both bounds of its range. *)
Definition config_with_delays (promos pages : Q) : Config :=
  {| item_status := "APPROVED";
     verbose := true;
     filters_include_names := [];
     filters_exclude_names := [];
     filters_duplicates_limit := None;
     intervals_promo_threshold := Some (YNumber 30);
     _delay_between_promos_bounds := (promos, promos);
     _delay_between_pages_bounds := (pages, pages) |}.

(** Ten thousand million seconds, [1e10]: a delay that [_validate_config]
    accepts and that [time.sleep] refuses. *)
Definition unsleepable : Q := inject_Z 10000000000.

Definition limiter_after (errors : Z) : RateLimiter :=
  {| consecutive_errors := errors; last_error_time := None |}.

(** A world whose next [randint] draw is [d]. *)
Definition world_drawing (d : Z) : World :=
  {| get_items_replies := [];
     priority_replies := [];
     promote_replies := [];
     randint_draws := [d];
     random_draws := [];
     clock_readings := [];
     trace := [] |}.

Definition sample_date : string := "2024-01-01T00:00:00".

(** [datetime.fromisoformat] on the strings of the samples: [sample_date]
    is midnight of 1 January 2024, naive; any other text is refused. *)
Definition sample_fromisoformat (s : string) : option datetime :=
  if String.eqb s sample_date
  then Some {| wall := 1704067200000000; tzinfo := None |}
  else None.

(** Ten minutes and two hours after [sample_date], UTC. *)
Definition ten_minutes_later : Z := 1704067800000000.

Definition two_hours_later : Z := 1704074400000000.

Definition sample_product (name date : string) : ItemProfile :=
  {| item_id := "item-1"; item_name := Some name; item_price := 100;
     approval_date := date |}.

Definition sample_premium : ItemPriorityStatus :=
  {| priority_id := "priority-1"; priority_name := "Premium"; priority_type := PREMIUM |}.

Definition gem : ItemProfile := sample_product "Gem x100" sample_date.

Definition last_page (products : list ItemProfile) : ItemProfileList :=
  {| items := products;
     page_info := {| has_next_page := false; end_cursor := None |} |}.

(** A page that another follows. *)
Definition first_page (products : list ItemProfile) : ItemProfileList :=
  {| items := products;
     page_info := {| has_next_page := true; end_cursor := Some "cursor-1" |} |}.

(** A world by its replies and clock readings; nothing is drawn at random
    and nothing has happened yet. *)
Definition world_of (pages : list (result (option ItemProfileList)))
    (priorities : list (result (list ItemPriorityStatus)))
    (promotions : list (result unit)) (clock : list Z) : World :=
  {| get_items_replies := pages;
     priority_replies := priorities;
     promote_replies := promotions;
     randint_draws := [];
     random_draws := [];
     clock_readings := clock;
     trace := [] |}.

(** One page with two listings of the same name, both old enough, for
    which the marketplace offers the premium tier and accepts the
    promotion. *)
Definition two_gems : World :=
  world_of [Ok (Some (last_page [gem; gem]))]
           [Ok [sample_premium]; Ok [sample_premium]]
           [Ok tt; Ok tt]
           [two_hours_later; two_hours_later].

(** Promotions that are all throttled. *)
Definition throttled_promotions (n : nat) : World :=
  world_of [] [] (repeat (Raise "HTTP 429 TOO_MANY_REQUESTS") n) [].

(** Page fetches that are all throttled. *)
Definition throttled_pages (n : nat) : World :=
  world_of (repeat (Raise "429 Too Many Requests") n) [] [] [].

Definition too_many_attempts : string := "Too many attempts. Please try again later.".

(** * More vocabulary *)

(** ** Waiting *)

(** The seconds slept in a run of events. *)
Fixpoint slept (evs : list Event) : Q :=
  match evs with
  | [] => 0
  | Sleep seconds :: evs => seconds + slept evs
  | _ :: evs => slept evs
  end.

(** The durations of the sleeps of a run of events, in order. *)
Fixpoint sleeps (evs : list Event) : list Q :=
  match evs with
  | [] => []
  | Sleep seconds :: evs => seconds :: sleeps evs
  | _ :: evs => sleeps evs
  end.

(** ** The range checks of [_validate_config] *)

(** Lines 138-144: the program stops when
    [dmin <= 0 or dmax <= 0 or dmin > dmax]. *)
Definition promos_bounds_refused (bounds : Q * Q) : bool :=
  let '(dmin, dmax) := bounds in
  Qle_bool dmin 0 || Qle_bool dmax 0 || negb (Qle_bool dmin dmax).

(** Lines 208-214: the program stops when
    [pmin < 0 or pmax < 0 or pmin > pmax]. *)
Definition pages_bounds_refused (bounds : Q * Q) : bool :=
  let '(pmin, pmax) := bounds in
  negb (Qle_bool 0 pmin) || negb (Qle_bool 0 pmax) || negb (Qle_bool pmin pmax).

(** [random.random()] returns a number of the interval from 0, included,
    to 1, excluded: the draws a world still holds are such numbers. *)
Definition unit_draws (w : World) : Prop :=
  Forall (fun u => 0 <= u /\ u < 1)%Q (random_draws w).

(** ** The per-name counts *)

(** [sum(promoted_by_name.values())]. *)
Definition counts_total (d : gmap string Z) : Z :=
  map_fold (fun _ n total => n + total) 0 d.

(** ** The remote calls, the lines and the sleeps of a run *)

Definition is_offer_lookup (e : Event) : bool :=
  match e with
  | GetItemPriorityStatuses _ _ => true
  | _ => false
  end.

Definition is_success_line (e : Event) : bool :=
  match e with
  | Print (MSuccess _) => true
  | _ => false
  end.

Definition count_events (p : Event -> bool) (evs : list Event) : nat :=
  length (List.filter p evs).

(** What a run of events that counted [checked] listings and [promoted]
    promotions may hold: at most one offer lookup per listing, at most
    three promotion calls per lookup, one accepted call and one line per
    promotion counted, and no sleep of no or negative length. *)
Definition accounted (checked promoted : Z) (evs : list Event) : Prop :=
  Z.of_nat (count_events is_offer_lookup evs) <= checked /\
  (promote_calls evs <= 3 * count_events is_offer_lookup evs)%nat /\
  (count_events is_success_line evs <= promote_calls evs)%nat /\
  Z.of_nat (count_events is_success_line evs) = promoted /\
  Forall (fun seconds => 0 < seconds)%Q (sleeps evs).

(** ** [Config]: the pause between two cycles *)

(** The keys of [intervals] that set the pause between two cycles, as
    [config.yaml] gives them; [None] is a key that is missing. *)
Record UpdateIntervals := {
  intervals_update_interval_min : option yaml_scalar;
  intervals_update_interval_max : option yaml_scalar;
  intervals_update_interval : option yaml_scalar
}.

(** [if v is not None: v = float(v)]. *)
Definition float_if_given (v : option yaml_scalar) : result (option Q) :=
  match v with
  | None => Ok None
  | Some v =>
      match float_of v with
      | Ok q => Ok (Some q)
      | Raise e => Raise e
      end
  end.

Definition _update_interval_bounds_minmax (intervals : UpdateIntervals)
  : result (option Q * option Q) :=
  match float_if_given (intervals_update_interval_min intervals) with
  | Raise e => Raise e
  | Ok umin =>
      match float_if_given (intervals_update_interval_max intervals) with
      | Raise e => Raise e
      | Ok umax => Ok (umin, umax)
      end
  end.

(** [next_update_interval_sec()], the argument of the [time.sleep] that
    ends a round of [main]. *)
Definition next_update_interval_sec (intervals : UpdateIntervals) (w : World)
  : result Q * World :=
  match _update_interval_bounds_minmax intervals with
  | Raise e => (Raise e, w)
  | Ok (Some umin, Some umax) =>
      let '(seconds, w) := uniform umin umax w in (Ok seconds, w)
  | Ok _ => (float_of (default (YNumber 1800) (intervals_update_interval intervals)), w)
  end.

(** Lines 147-154: when both bounds are given, the program stops when
    [umin <= 0 or umax <= 0 or umin > umax]. *)
Definition update_interval_refused (bounds : option Q * option Q) : bool :=
  match bounds with
  | (Some umin, Some umax) =>
      Qle_bool umin 0 || Qle_bool umax 0 || negb (Qle_bool umin umax)
  | _ => false
  end.

(** The keys as [_create_default_config] writes them. *)
Definition default_intervals : UpdateIntervals :=
  {| intervals_update_interval_min := Some (YNumber 1800);
     intervals_update_interval_max := Some (YNumber 1800);
     intervals_update_interval := Some (YNumber 30) |}.

(** A world whose next [random.random()] is [u]. *)
Definition world_with_random (u : Q) : World :=
  {| get_items_replies := [];
     priority_replies := [];
     promote_replies := [];
     randint_draws := [];
     random_draws := [u];
     clock_readings := [];
     trace := [] |}.

(** * Properties *)

(** ** The backoff of [RateLimiter.calculate_wait_time] *)

Lemma randint_range (a b : Z) (w : World) :
  a <= b -> a <= fst (randint a b w) <= b.
Proof.
  intros Hab. unfold randint.
  destruct (randint_draws w) as [|d rest]; simpl;
    match goal with
    | |- context [?x mod ?m] => pose proof (Z.mod_pos_bound x m ltac:(lia))
    end; lia.
Qed.

Lemma calculate_wait_time_429 (config : Config) (self : RateLimiter) (w : World) :
  calculate_wait_time config self throttled w
  = (inject_Z (backoff (consecutive_errors self) (fst (randint 0 10 w))),
     snd (randint 0 10 w)).
Proof.
  unfold calculate_wait_time, throttled.
  rewrite bool_decide_eq_true_2 by reflexivity.
  destruct (randint 0 10 w); reflexivity.
Qed.

Lemma backoff_le_120 (n jitter : Z) : backoff n jitter <= 120.
Proof. unfold backoff. lia. Qed.

Lemma backoff_monotone (n1 n2 j1 j2 : Z) :
  0 <= n1 <= n2 -> j1 <= j2 -> backoff n1 j1 <= backoff n2 j2.
Proof.
  intros Hn Hj. unfold backoff.
  assert (2 ^ Z.min n1 5 <= 2 ^ Z.min n2 5) by (apply Z.pow_le_mono_r; lia).
  lia.
Qed.

(** C2, as amended: for a non-negative consecutive-error count [n], the
    throttled wait is [min(5 * 2^min(n, 5) + jitter, 120)] seconds for a
    jitter that is an integer of the closed range 0..10, each value of
    which occurs; the wait never exceeds 120 seconds. *)
Theorem calculate_wait_time_429_formula (config : Config) (self : RateLimiter) (w : World) :
  0 <= consecutive_errors self ->
  (exists jitter : Z,
      0 <= jitter <= 10 /\
      fst (calculate_wait_time config self throttled w)
      = inject_Z (Z.min (5 * 2 ^ Z.min (consecutive_errors self) 5 + jitter) 120)) /\
  Qle (fst (calculate_wait_time config self throttled w)) (inject_Z 120) /\
  (forall jitter : Z, 0 <= jitter <= 10 ->
     fst (calculate_wait_time config self throttled (world_drawing jitter))
     = inject_Z (Z.min (5 * 2 ^ Z.min (consecutive_errors self) 5 + jitter) 120)).
Proof.
  intros _. rewrite calculate_wait_time_429. cbn [fst]. repeat split.
  - exists (fst (randint 0 10 w)). split; [apply randint_range; lia | reflexivity].
  - rewrite <- Zle_Qle. apply backoff_le_120.
  - intros jitter Hj. rewrite calculate_wait_time_429. cbn.
    rewrite Z.mod_small by lia. reflexivity.
Qed.

Lemma calculate_wait_time_429_formula_witness :
  0 <= consecutive_errors (limiter_after 2) /\
  Qle (fst (calculate_wait_time (sample_config None) (limiter_after 2)
              throttled (world_drawing 7)))
      (inject_Z 120).
Proof.
  split; [cbn; lia | ].
  apply (calculate_wait_time_429_formula
           (sample_config None) (limiter_after 2) (world_drawing 7)).
  cbn. lia.
Defined.

(** C2, as stated, fails: with no error counted yet and the draw 10, which
    [random.randint(0, 10)] can return, the wait is 15 seconds, a value no
    jitter of the half-open range 0..9 produces. *)
Lemma calculate_wait_time_jitter_10 :
  fst (calculate_wait_time (sample_config None) (limiter_after 0)
         throttled (world_drawing 10))
  = inject_Z 15 /\
  (forall jitter : Z, 0 <= jitter < 10 ->
     Z.min (5 * 2 ^ Z.min (consecutive_errors (limiter_after 0)) 5 + jitter) 120 <> 15).
Proof.
  split; [reflexivity | ]. intros jitter Hj.
  change (2 ^ Z.min (consecutive_errors (limiter_after 0)) 5) with 1. lia.
Qed.

(** C8, as amended: two throttled waits computed with the same jitter draw
    are ordered as their consecutive-error counts are, and neither exceeds
    120 seconds. *)
Theorem calculate_wait_time_429_monotone (config : Config) (r1 r2 : RateLimiter) (w : World) :
  0 <= consecutive_errors r1 <= consecutive_errors r2 ->
  Qle (fst (calculate_wait_time config r1 throttled w))
      (fst (calculate_wait_time config r2 throttled w)) /\
  Qle (fst (calculate_wait_time config r2 throttled w)) (inject_Z 120).
Proof.
  intros Hn. rewrite !calculate_wait_time_429. cbn [fst]. split.
  - rewrite <- Zle_Qle. apply backoff_monotone; lia.
  - rewrite <- Zle_Qle. apply backoff_le_120.
Qed.

Lemma calculate_wait_time_429_monotone_witness :
  0 <= consecutive_errors (limiter_after 1) <= consecutive_errors (limiter_after 3) /\
  Qle (fst (calculate_wait_time (sample_config None) (limiter_after 1)
              throttled (world_drawing 4)))
      (fst (calculate_wait_time (sample_config None) (limiter_after 3)
              throttled (world_drawing 4))).
Proof.
  split; [cbn; lia | ].
  apply (calculate_wait_time_429_monotone
           (sample_config None) (limiter_after 1) (limiter_after 3) (world_drawing 4)).
  cbn. lia.
Defined.

(** C8, as stated, fails once the jitter is counted in: after no error and
    the draw 10 the wait is 15 seconds, after one error and the draw 0 it
    is 10 seconds. *)
Lemma calculate_wait_time_jitter_not_monotone :
  consecutive_errors (limiter_after 0) <= consecutive_errors (limiter_after 1) /\
  fst (calculate_wait_time (sample_config None) (limiter_after 0)
         throttled (world_drawing 10))
  = inject_Z 15 /\
  fst (calculate_wait_time (sample_config None) (limiter_after 1)
         throttled (world_drawing 0))
  = inject_Z 10 /\
  Qlt (inject_Z 10) (inject_Z 15).
Proof.
  repeat split; try reflexivity; cbn; lia.
Qed.

(** ** Effects on the world, one operation at a time *)

Lemma emit_trace (e : Event) (w : World) : trace (emit e w) = trace w ++ [e].
Proof. reflexivity. Qed.

Lemma emit_replies_left (e : Event) (w : World) : replies_left (emit e w) = replies_left w.
Proof. reflexivity. Qed.

Lemma _get_now_trace (w : World) : trace (snd (_get_now w)) = trace w.
Proof. unfold _get_now. destruct (clock_readings w); reflexivity. Qed.

Lemma _get_now_replies_left (w : World) : replies_left (snd (_get_now w)) = replies_left w.
Proof. unfold _get_now. destruct (clock_readings w); reflexivity. Qed.

Lemma randint_trace (a b : Z) (w : World) : trace (snd (randint a b w)) = trace w.
Proof. unfold randint. destruct (randint_draws w); reflexivity. Qed.

Lemma randint_replies_left (a b : Z) (w : World) :
  replies_left (snd (randint a b w)) = replies_left w.
Proof. unfold randint. destruct (randint_draws w); reflexivity. Qed.

Lemma uniform_trace (a b : Q) (w : World) : trace (snd (uniform a b w)) = trace w.
Proof. unfold uniform. destruct (random_draws w); reflexivity. Qed.

Lemma uniform_replies_left (a b : Q) (w : World) :
  replies_left (snd (uniform a b w)) = replies_left w.
Proof. unfold uniform. destruct (random_draws w); reflexivity. Qed.

Lemma on_error_trace (rl : RateLimiter) (w : World) : trace (snd (on_error rl w)) = trace w.
Proof.
  unfold on_error. pose proof (_get_now_trace w) as H.
  destruct (_get_now w); exact H.
Qed.

Lemma on_error_replies_left (rl : RateLimiter) (w : World) :
  replies_left (snd (on_error rl w)) = replies_left w.
Proof.
  unfold on_error. pose proof (_get_now_replies_left w) as H.
  destruct (_get_now w); exact H.
Qed.

Lemma on_error_consecutive_errors (rl : RateLimiter) (w : World) :
  consecutive_errors (fst (on_error rl w)) = consecutive_errors rl + 1.
Proof. unfold on_error. destruct (_get_now w); reflexivity. Qed.

Lemma calculate_wait_time_trace config rl code (w : World) :
  trace (snd (calculate_wait_time config rl code w)) = trace w.
Proof.
  unfold calculate_wait_time, random_delay_between_promos_sec.
  case_bool_decide.
  - pose proof (randint_trace 0 10 w) as Hw. destruct (randint 0 10 w); exact Hw.
  - destruct (_delay_between_promos_bounds config). apply uniform_trace.
Qed.

Lemma calculate_wait_time_replies_left config rl code (w : World) :
  replies_left (snd (calculate_wait_time config rl code w)) = replies_left w.
Proof.
  unfold calculate_wait_time, random_delay_between_promos_sec.
  case_bool_decide.
  - pose proof (randint_replies_left 0 10 w) as Hw. destruct (randint 0 10 w); exact Hw.
  - destruct (_delay_between_promos_bounds config). apply uniform_replies_left.
Qed.

Lemma countdown_trace (n : Z) (w : World) :
  trace (countdown n w) = trace w ++ countdown_events n.
Proof.
  unfold countdown, countdown_events.
  generalize (range_down_by_5 (Z.to_nat n) n). intros steps.
  unfold print at 1. rewrite emit_trace. rewrite app_assoc. f_equal.
  revert w. induction steps as [|r steps IH]; intros w; simpl.
  - symmetry. apply app_nil_r.
  - rewrite IH. unfold sleep, print. rewrite !emit_trace.
    rewrite <- !app_assoc. reflexivity.
Qed.

Lemma countdown_replies_left (n : Z) (w : World) :
  replies_left (countdown n w) = replies_left w.
Proof.
  unfold countdown.
  generalize (range_down_by_5 (Z.to_nat n) n). intros steps.
  unfold print at 1. rewrite emit_replies_left.
  revert w. induction steps as [|r steps IH]; intros w; simpl; [reflexivity|].
  rewrite IH. reflexivity.
Qed.

(** ** A throttled reply *)

Lemma throttled_once_trace config rl w :
  trace (snd (throttled_once config rl w)) = trace w.
Proof.
  unfold throttled_once.
  pose proof (on_error_trace rl w) as H1.
  destruct (on_error rl w) as [rl1 w1]. simpl in H1.
  pose proof (calculate_wait_time_trace config rl1 throttled w1) as H2.
  destruct (calculate_wait_time config rl1 throttled w1). simpl in *. congruence.
Qed.

Lemma throttled_once_replies_left config rl w :
  replies_left (snd (throttled_once config rl w)) = replies_left w.
Proof.
  unfold throttled_once.
  pose proof (on_error_replies_left rl w) as H1.
  destruct (on_error rl w) as [rl1 w1]. simpl in H1.
  pose proof (calculate_wait_time_replies_left config rl1 throttled w1) as H2.
  destruct (calculate_wait_time config rl1 throttled w1). simpl in *. congruence.
Qed.

Lemma throttled_once_consecutive_errors config rl w :
  consecutive_errors (fst (fst (throttled_once config rl w))) = consecutive_errors rl + 1.
Proof.
  unfold throttled_once.
  pose proof (on_error_consecutive_errors rl w) as H1.
  destruct (on_error rl w) as [rl1 w1]. simpl in H1.
  destruct (calculate_wait_time config rl1 throttled w1). exact H1.
Qed.

Lemma waited_trace announce wait_time w :
  trace (waited announce wait_time w) = trace w ++ waited_events announce wait_time.
Proof.
  unfold waited, waited_events. rewrite countdown_trace.
  unfold print. rewrite !emit_trace. rewrite <- !app_assoc. reflexivity.
Qed.

Lemma waited_replies_left announce wait_time w :
  replies_left (waited announce wait_time w) = replies_left w.
Proof. unfold waited. rewrite countdown_replies_left. reflexivity. Qed.

Lemma replies_left_get_items (w w' : World) :
  replies_left w' = replies_left w -> get_items_replies w' = get_items_replies w.
Proof. unfold replies_left. congruence. Qed.

Lemma replies_left_promote (w w' : World) :
  replies_left w' = replies_left w -> promote_replies w' = promote_replies w.
Proof. unfold replies_left. congruence. Qed.

(** ** [range] *)

Lemma range_length (n : Z) : length (range n) = Z.to_nat n.
Proof. unfold range. rewrite length_map, length_seq. reflexivity. Qed.

Lemma range_bounds (n : Z) : Forall (fun a => 0 <= a < n) (range n).
Proof.
  unfold range. apply List.Forall_forall. intros a Ha.
  apply in_map_iff in Ha as (i & <- & Hi). apply in_seq in Hi. lia.
Qed.

Lemma range_split (k n : Z) :
  0 <= k < n -> exists more, range n = range k ++ k :: more.
Proof.
  intros Hk. unfold range.
  replace (Z.to_nat n) with (Z.to_nat k + S (Z.to_nat (n - k - 1)))%nat by lia.
  rewrite seq_app, map_app. cbn [seq map].
  rewrite Nat.add_0_l, Z2Nat.id by lia. eauto.
Qed.

(** ** The retry loop of [promote_product_with_retry] *)

Lemma promote_calls_app (l1 l2 : list Event) :
  promote_calls (l1 ++ l2) = (promote_calls l1 + promote_calls l2)%nat.
Proof. induction l1 as [|e l1 IH]; simpl; [reflexivity | rewrite IH; lia]. Qed.

Lemma promote_calls_countdown (n : Z) : promote_calls (countdown_events n) = 0%nat.
Proof.
  unfold countdown_events. rewrite promote_calls_app. simpl.
  induction (range_down_by_5 (Z.to_nat n) n) as [|r steps IH]; simpl; lia.
Qed.

Lemma promote_calls_waited announce wait_time :
  (if is_promote_call (Print announce) then 1 else 0)%nat = 0%nat ->
  promote_calls (waited_events announce wait_time) = 0%nat.
Proof. intros _. unfold waited_events. simpl. apply promote_calls_countdown. Qed.

Lemma promote_call_trace (ev : Event) (w : World) :
  trace (snd (promote_call ev w)) = trace w ++ [ev].
Proof. unfold promote_call. simpl. destruct (promote_replies w); reflexivity. Qed.

Lemma promote_call_get_items_replies (ev : Event) (w : World) :
  get_items_replies (snd (promote_call ev w)) = get_items_replies w.
Proof. unfold promote_call. simpl. destruct (promote_replies w); reflexivity. Qed.

Lemma promote_call_cons (ev : Event) (w : World) r rest :
  promote_replies w = r :: rest ->
  fst (promote_call ev w) = r /\ promote_replies (snd (promote_call ev w)) = rest.
Proof. intros H. unfold promote_call. simpl. rewrite H. split; reflexivity. Qed.

Section PromoteLoop.

Variables (config : Config) (product : ItemProfile)
          (premium_priority : ItemPriorityStatus) (is_published : bool)
          (max_retries : Z).

Local Abbreviation attempts_from := (promote_attempts config product premium_priority is_published max_retries).
Local Abbreviation call := (promote_event is_published product premium_priority).

(** One round of the loop, with a throttled reply handled by
    [throttled_once] and [waited]. *)
Lemma promote_attempts_cons attempt attempts rl w :
  attempts_from (attempt :: attempts) rl w =
  match promote_call call w with
  | (Ok _, w1) => ((true, msg_promoted (priority_name premium_priority)), on_success rl, w1)
  | (Raise error_message, w1) =>
      if is_429 error_message then
        let '(rl1, wait_time, w3) := throttled_once config rl w1 in
        if attempt <? max_retries - 1
        then attempts_from attempts rl1
               (waited (MRateLimit (attempt + 1) max_retries) wait_time w3)
        else ((false, msg_retries_exhausted max_retries), rl1, w3)
      else ((false, msg_promotion_error error_message), rl, w1)
  end.
Proof.
  cbn [promote_attempts].
  unfold promote_event, increase_item_priority_status, publish_item, throttled_once, waited.
  destruct is_published;
    (match goal with |- context [promote_call ?e w] => destruct (promote_call e w) as [[u|e1] w1] end;
     [reflexivity|];
     destruct (is_429 e1); [|reflexivity];
     destruct (on_error rl w1) as [rl1 w2];
     destruct (calculate_wait_time config rl1 (Some 429) w2) as [wt w3] eqn:E;
     unfold throttled; rewrite E; reflexivity).
Qed.

(** Every round makes one remote call: a run over [attempts] makes at most
    [length attempts] of them. *)
Lemma promote_attempts_calls attempts :
  forall rl w, exists evs,
    trace (snd (attempts_from attempts rl w)) = trace w ++ evs /\
    (promote_calls evs <= length attempts)%nat.
Proof.
  induction attempts as [|a attempts IH]; intros rl w.
  - exists []. simpl. rewrite app_nil_r. split; [reflexivity | lia].
  - rewrite promote_attempts_cons.
    pose proof (promote_call_trace call w) as Ht.
    assert (Hc : promote_calls [call] = 1%nat)
      by (unfold promote_event; destruct is_published; reflexivity).
    destruct (promote_call call w) as [[u|e] w1]; cbn [snd] in Ht.
    + exists [call]. cbn [snd]. split; [exact Ht | rewrite Hc; simpl; lia].
    + destruct (is_429 e).
      * pose proof (throttled_once_trace config rl w1) as Ht1.
        destruct (throttled_once config rl w1) as [[rl1 wt] w3]. cbn [snd] in Ht1.
        destruct (a <? max_retries - 1).
        -- destruct (IH rl1 (waited (MRateLimit (a + 1) max_retries) wt w3)) as (evs & He & Hn).
           exists ([call] ++ waited_events (MRateLimit (a + 1) max_retries) wt ++ evs).
           split.
           ++ rewrite He, waited_trace, Ht1, Ht. rewrite <- !app_assoc. reflexivity.
           ++ rewrite !promote_calls_app, Hc, promote_calls_waited by reflexivity.
              simpl. lia.
        -- exists [call]. cbn [snd]. split; [congruence | rewrite Hc; simpl; lia].
      * exists [call]. cbn [snd]. split; [exact Ht | rewrite Hc; simpl; lia].
Qed.

(** When the attempts end with [max_retries - 1], the loop is left from
    inside a round. *)
Lemma promote_attempts_returns_in_loop attempts :
  forall rl w,
    last attempts = Some (max_retries - 1) ->
    returned_in_loop premium_priority max_retries
      (fst (fst (attempts_from attempts rl w))).
Proof.
  induction attempts as [|a attempts IH]; intros rl w Hlast; [discriminate|].
  rewrite promote_attempts_cons.
  destruct (promote_call call w) as [[u|e] w1].
  - left. reflexivity.
  - destruct (is_429 e) eqn:He.
    + destruct (throttled_once config rl w1) as [[rl1 wt] w3].
      destruct (a <? max_retries - 1) eqn:Ha.
      * apply IH. destruct attempts as [|a' attempts]; [|exact Hlast].
        simpl in Hlast. apply Z.ltb_lt in Ha. injection Hlast as ->. lia.
      * right. left. reflexivity.
    + right. right. exists e. split; [exact He | reflexivity].
Qed.

(** A run of throttled replies, each met by an attempt that is not the
    last, leads to the rest of the loop. *)
Lemma promote_attempts_throttled_prefix (es : list string) :
  forall attempts more rl w rest,
    length attempts = length es ->
    Forall (fun a => a < max_retries - 1) attempts ->
    Forall (fun e => is_429 e = true) es ->
    promote_replies w = map Raise es ++ rest ->
    exists rl' w' evs,
      attempts_from (attempts ++ more) rl w = attempts_from more rl' w' /\
      promote_replies w' = rest /\
      trace w' = trace w ++ evs /\
      promote_calls evs = length es /\
      consecutive_errors rl' = consecutive_errors rl + Z.of_nat (length es).
Proof.
  induction es as [|e es IH]; intros attempts more rl w rest Hlen Hatt Hes Hrep.
  - destruct attempts; [|discriminate]. exists rl, w, []. simpl.
    rewrite app_nil_r. repeat split; try reflexivity; [exact Hrep | lia].
  - destruct attempts as [|a attempts]; [discriminate|].
    apply Forall_cons in Hatt as [Ha Hatt]. apply Forall_cons in Hes as [He Hes].
    simpl in Hlen, Hrep. injection Hlen as Hlen.
    change ((a :: attempts) ++ more) with (a :: (attempts ++ more)).
    rewrite promote_attempts_cons.
    pose proof (promote_call_trace call w) as Ht.
    destruct (promote_call_cons call w _ _ Hrep) as [Hr Hrest].
    destruct (promote_call call w) as [r w1]. cbn [fst snd] in *. subst r.
    rewrite He.
    pose proof (throttled_once_trace config rl w1) as Ht1.
    pose proof (replies_left_promote _ _ (throttled_once_replies_left config rl w1)) as Hp1.
    pose proof (throttled_once_consecutive_errors config rl w1) as Hc1.
    destruct (throttled_once config rl w1) as [[rl1 wt] w3]. cbn [fst snd] in *.
    apply Z.ltb_lt in Ha. rewrite Ha.
    set (w4 := waited (MRateLimit (a + 1) max_retries) wt w3).
    destruct (IH attempts more rl1 w4 rest Hlen Hatt Hes) as (rl' & w' & evs & Heq & Hr' & Ht' & Hn & Hc').
    { subst w4. rewrite (replies_left_promote _ _ (waited_replies_left _ _ _)). congruence. }
    exists rl', w', ([call] ++ waited_events (MRateLimit (a + 1) max_retries) wt ++ evs).
    repeat split.
    + exact Heq.
    + exact Hr'.
    + rewrite Ht'. subst w4. rewrite waited_trace, Ht1, Ht.
      rewrite <- !app_assoc. reflexivity.
    + rewrite !promote_calls_app, promote_calls_waited, Hn by reflexivity.
      unfold promote_event. destruct is_published; reflexivity.
    + rewrite Hc', Hc1. simpl length. lia.
Qed.

End PromoteLoop.

Lemma range_last (n : Z) : 1 <= n -> last (range n) = Some (n - 1).
Proof.
  intros Hn. unfold range.
  replace (Z.to_nat n) with (S (Z.to_nat (n - 1))) by lia.
  rewrite seq_S, map_app. simpl. rewrite last_snoc. f_equal. lia.
Qed.

Lemma str_in_app_r (needle a b : string) :
  str_in needle b = true -> str_in needle (a +:+ b) = true.
Proof.
  intros Hb. induction a as [|c a IH]; simpl; [exact Hb|].
  rewrite IH. apply orb_true_r.
Qed.

(** The message of an exhausted budget carries the mark the cycle looks
    for, and is none of the other messages. *)
Lemma msg_retries_exhausted_marked (max_retries : Z) :
  str_in "Пропуск товара" (msg_retries_exhausted max_retries) = true.
Proof.
  unfold msg_retries_exhausted.
  apply str_in_app_r, str_in_app_r. reflexivity.
Qed.

Lemma msg_retries_exhausted_distinct (max_retries : Z) (error_message priority : string) :
  msg_retries_exhausted max_retries <> msg_promotion_error error_message /\
  msg_retries_exhausted max_retries <> msg_promoted priority /\
  msg_retries_exhausted max_retries <> msg_unknown_error.
Proof. repeat split; discriminate. Qed.

(** With no attempt to make, the statement after the loop is reached. *)
Lemma promote_product_with_retry_no_attempt config product premium_priority
    is_published rl max_retries w :
  max_retries <= 0 ->
  promote_product_with_retry config product premium_priority is_published rl max_retries w
  = ((false, msg_unknown_error), rl, w).
Proof.
  intros Hn. unfold promote_product_with_retry, range.
  replace (Z.to_nat max_retries) with 0%nat by lia. reflexivity.
Qed.

(** C9: with at least one attempt allowed, [promote_product_with_retry]
    returns from inside its loop, as a success, an exhausted budget or
    another error; the result of the statement after the loop,
    [(False, "Неизвестная ошибка")], is never returned. *)
Theorem promote_product_with_retry_returns_in_loop config product premium_priority
    is_published rl max_retries w :
  1 <= max_retries ->
  returned_in_loop premium_priority max_retries
    (fst (fst (promote_product_with_retry config product premium_priority
                 is_published rl max_retries w))) /\
  fst (fst (promote_product_with_retry config product premium_priority
              is_published rl max_retries w))
  <> (false, msg_unknown_error).
Proof.
  intros Hn.
  assert (Hin : returned_in_loop premium_priority max_retries
            (fst (fst (promote_product_with_retry config product premium_priority
                         is_published rl max_retries w)))).
  { unfold promote_product_with_retry.
    apply promote_attempts_returns_in_loop, range_last, Hn. }
  split; [exact Hin|].
  destruct Hin as [-> | [-> | (e & _ & ->)]]; discriminate.
Qed.

Section PromoteBudget.

Variables (config : Config) (product : ItemProfile)
          (premium_priority : ItemPriorityStatus) (is_published : bool)
          (max_retries : Z).

Local Abbreviation promote := (promote_product_with_retry config product premium_priority is_published).
Local Abbreviation call := (promote_event is_published product premium_priority).

(** After [length es] throttled replies, fewer than [max_retries], the
    loop stands at attempt number [length es]. *)
Lemma promote_after_throttles (es : list string) rl w next :
  promote_replies w = map Raise es ++ next ->
  Z.of_nat (length es) < max_retries ->
  Forall (fun e => is_429 e = true) es ->
  exists rl' w' evs more,
    promote rl max_retries w
    = promote_attempts config product premium_priority is_published max_retries
        (Z.of_nat (length es) :: more) rl' w' /\
    promote_replies w' = next /\
    trace w' = trace w ++ evs /\
    promote_calls evs = length es /\
    consecutive_errors rl' = consecutive_errors rl + Z.of_nat (length es).
Proof.
  intros Hrep Hlen Hes.
  destruct (range_split (Z.of_nat (length es)) max_retries) as [more Hrange]; [lia|].
  destruct (promote_attempts_throttled_prefix config product premium_priority
              is_published max_retries es (range (Z.of_nat (length es)))
              (Z.of_nat (length es) :: more) rl w next)
    as (rl' & w' & evs & Heq & H); try assumption.
  - rewrite range_length. lia.
  - eapply Forall_impl; [apply range_bounds|]. simpl. intros a Ha. lia.
  - exists rl', w', evs, more. split; [|exact H].
    unfold promote_product_with_retry. rewrite Hrange. exact Heq.
Qed.

(** A reply that is an error and not a throttling one ends the loop at
    once. *)
Lemma promote_attempts_other_error attempt more rl w e rest :
  promote_replies w = Raise e :: rest ->
  is_429 e = false ->
  exists w',
    promote_attempts config product premium_priority is_published max_retries
      (attempt :: more) rl w
    = ((false, msg_promotion_error e), rl, w') /\
    trace w' = trace w ++ [call].
Proof.
  intros Hrep He. rewrite promote_attempts_cons.
  pose proof (promote_call_trace call w) as Ht.
  destruct (promote_call_cons call w _ _ Hrep) as [Hr _].
  destruct (promote_call call w) as [r w1]. cbn [fst snd] in *. subst r.
  rewrite He. eauto.
Qed.

(** A throttled reply to attempt [max_retries - 1] ends the loop without a
    wait. *)
Lemma promote_attempts_last_throttled more rl w e rest :
  promote_replies w = Raise e :: rest ->
  is_429 e = true ->
  exists rl' w',
    promote_attempts config product premium_priority is_published max_retries
      (max_retries - 1 :: more) rl w
    = ((false, msg_retries_exhausted max_retries), rl', w') /\
    trace w' = trace w ++ [call].
Proof.
  intros Hrep He. rewrite promote_attempts_cons.
  pose proof (promote_call_trace call w) as Ht.
  destruct (promote_call_cons call w _ _ Hrep) as [Hr _].
  destruct (promote_call call w) as [r w1]. cbn [fst snd] in *. subst r.
  rewrite He.
  pose proof (throttled_once_trace config rl w1) as Ht1.
  destruct (throttled_once config rl w1) as [[rl1 wt] w3]. cbn [snd] in Ht1.
  rewrite Z.ltb_irrefl. exists rl1, w3. split; [reflexivity | congruence].
Qed.

(** C3: [promote_product_with_retry] makes at most [max_retries] remote
    calls. When the first [max_retries] replies are all throttled it
    returns the failure "retries exhausted", a message that carries the
    mark the cycle tests and differs from the other failure, and the last
    thing it did is the [max_retries]-th call: no wait follows it. When a
    reply is another error, it returns the failure of that error and the
    last thing it did is the call so answered: no attempt follows it. *)
Theorem promote_product_with_retry_budget rl w :
  1 <= max_retries ->
  (exists evs,
      trace (snd (promote rl max_retries w)) = trace w ++ evs /\
      Z.of_nat (promote_calls evs) <= max_retries) /\
  (forall es rest,
      promote_replies w = map Raise es ++ rest ->
      Z.of_nat (length es) = max_retries ->
      Forall (fun e => is_429 e = true) es ->
      fst (fst (promote rl max_retries w)) = (false, msg_retries_exhausted max_retries) /\
      str_in "Пропуск товара" (msg_retries_exhausted max_retries) = true /\
      (forall e, msg_retries_exhausted max_retries <> msg_promotion_error e) /\
      exists evs,
        trace (snd (promote rl max_retries w)) = trace w ++ evs ++ [call] /\
        Z.of_nat (promote_calls (evs ++ [call])) = max_retries) /\
  (forall es e rest,
      promote_replies w = map Raise es ++ Raise e :: rest ->
      Z.of_nat (length es) < max_retries ->
      Forall (fun e => is_429 e = true) es ->
      is_429 e = false ->
      fst (fst (promote rl max_retries w)) = (false, msg_promotion_error e) /\
      exists evs,
        trace (snd (promote rl max_retries w)) = trace w ++ evs ++ [call] /\
        promote_calls (evs ++ [call]) = S (length es)).
Proof.
  intros Hn.
  assert (Hc : promote_calls [call] = 1%nat)
    by (unfold promote_event; destruct is_published; reflexivity).
  repeat apply conj.
  - destruct (promote_attempts_calls config product premium_priority is_published
                max_retries (range max_retries) rl w) as (evs & Ht & Hcalls).
    exists evs. split; [exact Ht|]. rewrite range_length in Hcalls. lia.
  - intros es rest Hrep Hlen Hes.
    destruct (exists_last (l := es)) as (es' & e & ->).
    { intros ->. simpl in Hlen. lia. }
    rewrite length_app in Hlen. simpl in Hlen.
    apply Forall_app in Hes as [Hes' He]. apply List.Forall_inv in He.
    rewrite map_app in Hrep. simpl in Hrep. rewrite <- app_assoc in Hrep. simpl in Hrep.
    destruct (promote_after_throttles es' rl w _ Hrep ltac:(lia) Hes')
      as (rl' & w' & evs & more & Heq & Hrep' & Ht' & Hcalls & _).
    replace (Z.of_nat (length es')) with (max_retries - 1) in Heq by lia.
    destruct (promote_attempts_last_throttled more rl' w' e rest Hrep' He)
      as (rl2 & w2 & Heq2 & Ht2).
    rewrite Heq, Heq2. cbn [fst snd]. repeat apply conj.
    + reflexivity.
    + apply msg_retries_exhausted_marked.
    + intros e0. apply (msg_retries_exhausted_distinct max_retries e0 "").
    + exists evs. rewrite Ht2, Ht', <- app_assoc. split; [reflexivity|].
      rewrite promote_calls_app, Hc, Hcalls. lia.
  - intros es e rest Hrep Hlen Hes He.
    destruct (promote_after_throttles es rl w _ Hrep Hlen Hes)
      as (rl' & w' & evs & more & Heq & Hrep' & Ht' & Hcalls & _).
    destruct (promote_attempts_other_error (Z.of_nat (length es)) more rl' w' e rest Hrep' He)
      as (w2 & Heq2 & Ht2).
    rewrite Heq, Heq2. cbn [fst snd]. split; [reflexivity|].
    exists evs. rewrite Ht2, Ht', <- app_assoc. split; [reflexivity|].
    rewrite promote_calls_app, Hc, Hcalls. lia.
Qed.

End PromoteBudget.

(** ** The retry loop of the page fetch *)

Lemma get_items_trace after status (w : World) :
  trace (snd (get_items after status w)) = trace w ++ [GetItems after status].
Proof. unfold get_items. simpl. destruct (get_items_replies w); reflexivity. Qed.

Lemma get_items_cons after status (w : World) r rest :
  get_items_replies w = r :: rest ->
  fst (get_items after status w) = r /\
  get_items_replies (snd (get_items after status w)) = rest.
Proof. intros H. unfold get_items. simpl. rewrite H. split; reflexivity. Qed.

Lemma get_items_nil after status (w : World) :
  get_items_replies w = [] ->
  fst (get_items after status w) = Raise no_reply /\
  get_items_replies (snd (get_items after status w)) = [].
Proof. intros H. unfold get_items. simpl. rewrite H. split; reflexivity. Qed.

Lemma get_items_promote_replies after status (w : World) :
  promote_replies (snd (get_items after status w)) = promote_replies w.
Proof. unfold get_items. simpl. destruct (get_items_replies w); reflexivity. Qed.

Lemma set_rate_limiter_same (st : Locals) : set_rate_limiter (rate_limiter st) st = st.
Proof. destruct st; reflexivity. Qed.

Section FetchLoop.

Variable config : Config.

Local Abbreviation fetch := (fetch_attempts config page_max_retries).

(** One round of the loop, with a throttled reply handled by
    [throttled_once] and [waited]. *)
Lemma fetch_attempts_cons attempt attempts st w :
  fetch (attempt :: attempts) st w =
  match get_items (cursor st) (item_status config) w with
  | (Ok item_list, w1) =>
      (Fetched item_list, set_rate_limiter (on_success (rate_limiter st)) st, w1)
  | (Raise error_message, w1) =>
      if is_rate_limited error_message then
        let '(rl1, wait_time, w3) := throttled_once config (rate_limiter st) w1 in
        let st1 := set_rate_limiter rl1 st in
        if attempt <? page_max_retries - 1
        then fetch attempts st1
               (waited (MPageRateLimit (attempt + 1) page_max_retries) wait_time w3)
        else (FetchReturn, incr_total_errors st1,
              print_summary (incr_total_errors st1)
                (print (MPageRetriesExceeded page_max_retries) w3))
      else (FetchReturn, incr_total_errors st,
            print_summary (incr_total_errors st) (print (MPageError error_message) w1))
  end.
Proof.
  cbn [fetch_attempts]. unfold throttled_once, waited.
  destruct (get_items (cursor st) (item_status config) w) as [[il|e1] w1]; [reflexivity|].
  destruct (is_rate_limited e1); [|reflexivity].
  destruct (on_error (rate_limiter st) w1) as [rl1 w2].
  destruct (calculate_wait_time config rl1 (Some 429) w2) as [wt w3] eqn:E.
  unfold throttled. rewrite E. reflexivity.
Qed.

(** What the loop does to the locals: the limiter is updated, and leaving
    by [return] counts one error. *)
Lemma fetch_attempts_locals attempts :
  forall st w, exists rl,
    snd (fst (fetch attempts st w)) =
    match fst (fst (fetch attempts st w)) with
    | Fetched _ => set_rate_limiter rl st
    | FetchReturn => incr_total_errors (set_rate_limiter rl st)
    end.
Proof.
  induction attempts as [|a attempts IH]; intros st w.
  - exists (rate_limiter st). simpl. symmetry. apply set_rate_limiter_same.
  - rewrite fetch_attempts_cons.
    destruct (get_items (cursor st) (item_status config) w) as [[il|e] w1].
    + eexists. reflexivity.
    + destruct (is_rate_limited e).
      * destruct (throttled_once config (rate_limiter st) w1) as [[rl1 wt] w3].
        destruct (a <? page_max_retries - 1).
        -- cbv zeta.
           destruct (IH (set_rate_limiter rl1 st)
                       (waited (MPageRateLimit (a + 1) page_max_retries) wt w3)) as [rl Hrl].
           exists rl. rewrite Hrl.
           destruct (fst (fst (fetch attempts _ _))); reflexivity.
        -- exists rl1. reflexivity.
      * exists (rate_limiter st). cbn [fst snd]. rewrite set_rate_limiter_same. reflexivity.
Qed.

(** A run of throttled replies, each met by an attempt that is not the
    last, leads to the rest of the loop. *)
Lemma fetch_attempts_throttled_prefix (es : list string) :
  forall attempts more st w rest,
    length attempts = length es ->
    Forall (fun a => a < page_max_retries - 1) attempts ->
    Forall (fun e => is_rate_limited e = true) es ->
    get_items_replies w = map Raise es ++ rest ->
    exists rl' w' evs,
      fetch (attempts ++ more) st w = fetch more (set_rate_limiter rl' st) w' /\
      get_items_replies w' = rest /\
      promote_replies w' = promote_replies w /\
      trace w' = trace w ++ evs /\
      consecutive_errors rl'
      = consecutive_errors (rate_limiter st) + Z.of_nat (length es).
Proof.
  induction es as [|e es IH]; intros attempts more st w rest Hlen Hatt Hes Hrep.
  - destruct attempts; [|discriminate]. exists (rate_limiter st), w, []. simpl.
    rewrite app_nil_r, set_rate_limiter_same.
    repeat split; try reflexivity; [exact Hrep | lia].
  - destruct attempts as [|a attempts]; [discriminate|].
    apply Forall_cons in Hatt as [Ha Hatt]. apply Forall_cons in Hes as [He Hes].
    simpl in Hlen, Hrep. injection Hlen as Hlen.
    change ((a :: attempts) ++ more) with (a :: (attempts ++ more)).
    rewrite fetch_attempts_cons.
    pose proof (get_items_trace (cursor st) (item_status config) w) as Ht.
    pose proof (get_items_promote_replies (cursor st) (item_status config) w) as Hp.
    destruct (get_items_cons (cursor st) (item_status config) w _ _ Hrep) as [Hr Hrest].
    destruct (get_items (cursor st) (item_status config) w) as [r w1].
    cbn [fst snd] in *. subst r. rewrite He.
    pose proof (throttled_once_trace config (rate_limiter st) w1) as Ht1.
    pose proof (throttled_once_replies_left config (rate_limiter st) w1) as Hl1.
    pose proof (throttled_once_consecutive_errors config (rate_limiter st) w1) as Hc1.
    destruct (throttled_once config (rate_limiter st) w1) as [[rl1 wt] w3].
    cbn [fst snd] in *.
    apply Z.ltb_lt in Ha. rewrite Ha.
    set (w4 := waited (MPageRateLimit (a + 1) page_max_retries) wt w3).
    assert (Hl4 : replies_left w4 = replies_left w1).
    { subst w4. rewrite waited_replies_left. exact Hl1. }
    destruct (IH attempts more (set_rate_limiter rl1 st) w4 rest Hlen Hatt Hes)
      as (rl' & w' & evs & Heq & Hr' & Hp' & Ht' & Hc').
    { rewrite (replies_left_get_items _ _ Hl4). exact Hrest. }
    exists rl', w', ([GetItems (cursor st) (item_status config)]
                     ++ waited_events (MPageRateLimit (a + 1) page_max_retries) wt ++ evs).
    repeat split.
    + exact Heq.
    + exact Hr'.
    + rewrite Hp', (replies_left_promote _ _ Hl4). exact Hp.
    + rewrite Ht'. subst w4. rewrite waited_trace, Ht1, Ht.
      rewrite <- !app_assoc. reflexivity.
    + rewrite Hc'. cbn [rate_limiter set_rate_limiter]. rewrite Hc1. simpl length. lia.
Qed.

(** After [length es] throttled replies, fewer than the page budget, the
    loop stands at attempt number [length es]. *)
Lemma fetch_after_throttles (es : list string) st w next :
  get_items_replies w = map Raise es ++ next ->
  Z.of_nat (length es) < page_max_retries ->
  Forall (fun e => is_rate_limited e = true) es ->
  exists rl' w' evs more,
    fetch (range page_max_retries) st w
    = fetch (Z.of_nat (length es) :: more) (set_rate_limiter rl' st) w' /\
    get_items_replies w' = next /\
    trace w' = trace w ++ evs.
Proof.
  intros Hrep Hlen Hes.
  destruct (range_split (Z.of_nat (length es)) page_max_retries) as [more Hrange]; [lia|].
  destruct (fetch_attempts_throttled_prefix es (range (Z.of_nat (length es)))
              (Z.of_nat (length es) :: more) st w next)
    as (rl' & w' & evs & Heq & Hr & _ & Ht & _); try assumption.
  - rewrite range_length. lia.
  - eapply Forall_impl; [apply range_bounds|]. simpl. intros a Ha. lia.
  - exists rl', w', evs, more. rewrite Hrange. auto.
Qed.

(** The two ways a page fetch gives up: the last attempt is throttled, or
    a reply is another error. Either way one error is counted, the
    summary is printed and the function returns. *)
Lemma fetch_gives_up (es : list string) st w :
  (exists rest,
      get_items_replies w = map Raise es ++ rest /\
      Z.of_nat (length es) = page_max_retries /\
      Forall (fun e => is_rate_limited e = true) es)
  \/ (exists e rest,
      get_items_replies w = map Raise es ++ Raise e :: rest /\
      Z.of_nat (length es) < page_max_retries /\
      Forall (fun e => is_rate_limited e = true) es /\
      is_rate_limited e = false) ->
  exists rl' w' evs,
    fetch (range page_max_retries) st w
    = (FetchReturn, incr_total_errors (set_rate_limiter rl' st), w') /\
    trace w' = trace w ++ evs
               ++ [Print (MSummary (total_checked st) (total_promoted st))].
Proof.
  intros [(rest & Hrep & Hlen & Hes) | (e & rest & Hrep & Hlen & Hes & He)].
  - destruct (exists_last (l := es)) as (es' & e & ->).
    { intros ->. simpl in Hlen. unfold page_max_retries in Hlen. lia. }
    rewrite length_app in Hlen. simpl in Hlen.
    apply Forall_app in Hes as [Hes' He]. apply List.Forall_inv in He.
    rewrite map_app in Hrep. simpl in Hrep. rewrite <- app_assoc in Hrep. simpl in Hrep.
    destruct (fetch_after_throttles es' st w _ Hrep ltac:(lia) Hes')
      as (rl' & w' & evs & more & Heq & Hrep' & Ht').
    replace (Z.of_nat (length es')) with (page_max_retries - 1) in Heq by lia.
    rewrite Heq, fetch_attempts_cons.
    set (st1 := set_rate_limiter rl' st).
    pose proof (get_items_trace (cursor st1) (item_status config) w') as Ht.
    destruct (get_items_cons (cursor st1) (item_status config) w' _ _ Hrep') as [Hr _].
    destruct (get_items (cursor st1) (item_status config) w') as [r w1].
    cbn [fst snd] in *. subst r. rewrite He.
    pose proof (throttled_once_trace config (rate_limiter st1) w1) as Ht1.
    destruct (throttled_once config (rate_limiter st1) w1) as [[rl1 wt] w3].
    cbn [snd] in Ht1. rewrite Z.ltb_irrefl.
    exists rl1, (print_summary (incr_total_errors (set_rate_limiter rl1 st1))
                   (print (MPageRetriesExceeded page_max_retries) w3)),
      (evs ++ [GetItems (cursor st1) (item_status config);
               Print (MPageRetriesExceeded page_max_retries)]).
    split; [reflexivity|].
    unfold print_summary, print. rewrite !emit_trace, Ht1, Ht, Ht'.
    rewrite <- !app_assoc. reflexivity.
  - destruct (fetch_after_throttles es st w _ Hrep Hlen Hes)
      as (rl' & w' & evs & more & Heq & Hrep' & Ht').
    rewrite Heq, fetch_attempts_cons.
    set (st1 := set_rate_limiter rl' st).
    pose proof (get_items_trace (cursor st1) (item_status config) w') as Ht.
    destruct (get_items_cons (cursor st1) (item_status config) w' _ _ Hrep') as [Hr _].
    destruct (get_items (cursor st1) (item_status config) w') as [r w1].
    cbn [fst snd] in *. subst r. rewrite He.
    exists rl', (print_summary (incr_total_errors st1) (print (MPageError e) w1)),
      (evs ++ [GetItems (cursor st1) (item_status config); Print (MPageError e)]).
    split; [reflexivity|].
    unfold print_summary, print. rewrite !emit_trace, Ht, Ht'.
    rewrite <- !app_assoc. reflexivity.
Qed.

End FetchLoop.

(** ** One listing *)

(** Nothing but [get_items] takes from the page replies. *)
Lemma _get_now_pages w now w' :
  _get_now w = (now, w') -> get_items_replies w' = get_items_replies w.
Proof.
  intros E. apply (replies_left_get_items w w').
  rewrite <- (_get_now_replies_left w), E. reflexivity.
Qed.

Lemma calculate_wait_time_pages config rl code w wait_time w' :
  calculate_wait_time config rl code w = (wait_time, w') ->
  get_items_replies w' = get_items_replies w.
Proof.
  intros E. apply (replies_left_get_items w w').
  rewrite <- (calculate_wait_time_replies_left config rl code w), E. reflexivity.
Qed.

Lemma get_item_priority_statuses_pages item price w reply w' :
  get_item_priority_statuses item price w = (reply, w') ->
  get_items_replies w' = get_items_replies w.
Proof.
  unfold get_item_priority_statuses. simpl.
  destruct (priority_replies w); simpl; intros [= _ <-]; reflexivity.
Qed.

Lemma say_pages config m w : get_items_replies (say config m w) = get_items_replies w.
Proof. unfold say. destruct (verbose config); reflexivity. Qed.

(** The guarded sleep either sleeps once, for a positive time, or leaves
    the world as it is. *)
Lemma sleep_if_positive_cases wait_time (w : World) :
  (exists e, sleep_if_positive wait_time w = (Raise e, w)) \/
  sleep_if_positive wait_time w = (Ok tt, w) \/
  (sleep_if_positive wait_time w = (Ok tt, sleep wait_time w) /\ Qlt 0 wait_time).
Proof.
  unfold sleep_if_positive, time_sleep.
  destruct (negb (Qle_bool wait_time 0)) eqn:Hpos; [|auto].
  destruct (sleep_refused wait_time) as [e|]; [eauto|].
  right. right. split; [reflexivity|].
  apply negb_true_iff in Hpos.
  apply Qnot_le_lt. intros Hle. apply Qle_bool_iff in Hle. congruence.
Qed.

Lemma sleep_if_positive_pages wait_time w r w' :
  sleep_if_positive wait_time w = (r, w') ->
  get_items_replies w' = get_items_replies w.
Proof.
  destruct (sleep_if_positive_cases wait_time w) as [[e ->] | [-> | [-> _]]];
    intros [= _ <-]; reflexivity.
Qed.

Lemma promote_attempts_pages config product premium_priority is_published max_retries attempts :
  forall rl w,
    get_items_replies
      (snd (promote_attempts config product premium_priority is_published
              max_retries attempts rl w))
    = get_items_replies w.
Proof.
  induction attempts as [|a attempts IH]; intros rl w; [reflexivity|].
  rewrite promote_attempts_cons.
  pose proof (promote_call_get_items_replies
                (promote_event is_published product premium_priority) w) as Hc.
  destruct (promote_call _ w) as [[u|e] w1]; cbn [snd] in *; [exact Hc|].
  destruct (is_429 e); [|exact Hc].
  pose proof (replies_left_get_items _ _ (throttled_once_replies_left config rl w1)) as H1.
  destruct (throttled_once config rl w1) as [[rl1 wt] w3]. cbn [snd] in H1.
  destruct (a <? max_retries - 1); cbn [snd]; [|congruence].
  rewrite IH, (replies_left_get_items _ _ (waited_replies_left _ _ _)). congruence.
Qed.

Lemma promote_product_with_retry_pages config product premium_priority is_published
    rl max_retries w r rl' w' :
  promote_product_with_retry config product premium_priority is_published rl max_retries w
  = (r, rl', w') ->
  get_items_replies w' = get_items_replies w.
Proof.
  intros E. unfold promote_product_with_retry in E.
  rewrite <- (promote_attempts_pages config product premium_priority is_published
                max_retries (range max_retries) rl w), E.
  reflexivity.
Qed.

(** Destructs what the goal branches on, keeping the equations. *)
Ltac branch :=
  match goal with
  | |- context [match ?x with _ => _ end] =>
      lazymatch x with
      | context [match _ with _ => _ end] => fail
      | _ => destruct x eqn:?
      end
  end.

(** Turns the equations of the operations into what they keep of the page
    replies. *)
Ltac pages :=
  repeat match goal with
    | E : _get_now _ = _ |- _ => apply _get_now_pages in E
    | E : calculate_wait_time _ _ _ _ = _ |- _ => apply calculate_wait_time_pages in E
    | E : get_item_priority_statuses _ _ _ = _ |- _ =>
        apply get_item_priority_statuses_pages in E
    | E : promote_product_with_retry _ _ _ _ _ _ _ = _ |- _ =>
        apply promote_product_with_retry_pages in E
    | E : sleep_if_positive _ _ = _ |- _ => apply sleep_if_positive_pages in E
    end;
  unfold sleep, print in *; cbn [get_items_replies emit] in *;
  rewrite ?say_pages in *; cbn [get_items_replies emit] in *; try congruence.

Lemma promote_step_pages config product norm_name st w :
  get_items_replies (snd (promote_step config product norm_name st w))
  = get_items_replies w.
Proof. unfold promote_step. repeat branch; cbn [snd]; pages. Qed.

(** ** The random numbers and the sleeps *)

Lemma uniform_between (a b : Q) (w : World) :
  (a <= b)%Q -> unit_draws w ->
  (a <= fst (uniform a b w) <= b)%Q /\ unit_draws (snd (uniform a b w)).
Proof.
  intros Hab Hu. unfold uniform, unit_draws in *.
  destruct (random_draws w) as [|u rest]; cbn [fst snd random_draws].
  - split; [lra | constructor].
  - apply Forall_cons in Hu as [[H0 H1] Hrest]. split; [|exact Hrest].
    cbn [fst]. split; nra.
Qed.

Lemma promos_bounds_accepted (dmin dmax : Q) :
  promos_bounds_refused (dmin, dmax) = false -> (0 < dmin /\ dmin <= dmax)%Q.
Proof.
  unfold promos_bounds_refused. intros H.
  apply orb_false_elim in H as [H Hle]. apply orb_false_elim in H as [Hmin _].
  apply negb_false_iff, Qle_bool_iff in Hle.
  split; [|exact Hle].
  apply Qnot_le_lt. intros Hc. apply Qle_bool_iff in Hc. congruence.
Qed.

Lemma sleep_refused_none (seconds : Q) :
  sleep_refused seconds = None <->
  Qle 0 seconds /\ Qle (seconds * inject_Z 1000000000) (inject_Z (2 ^ 63 - 1)).
Proof.
  unfold sleep_refused.
  destruct (Qle_bool (inject_Z (- 2 ^ 63)) (seconds * inject_Z 1000000000)) eqn:Hlo;
    destruct (Qle_bool (seconds * inject_Z 1000000000) (inject_Z (2 ^ 63 - 1))) eqn:Hhi;
    destruct (Qle_bool 0 seconds) eqn:Hpos; cbn [negb andb];
    try apply Qle_bool_iff in Hpos; try apply Qle_bool_iff in Hhi;
    try apply Qle_bool_iff in Hlo.
  all: split; try discriminate; auto.
  all: intros [H0 H1].
  all: try (apply Qle_bool_iff in H0; congruence).
  all: try (apply Qle_bool_iff in H1; congruence).
  all: exfalso.
  all: assert (Hneg : Qle (inject_Z (- 2 ^ 63)) (seconds * inject_Z 1000000000));
    [|apply Qle_bool_iff in Hneg; congruence].
  all: apply Qle_trans with (y := 0%Q); [discriminate|].
  all: apply Qmult_le_0_compat; [exact H0 | discriminate].
Qed.

(** What [time.sleep] accepts, it accepts of every shorter wait. *)
Lemma sleep_refused_shorter (a b : Q) :
  Qle 0 a -> Qle a b -> sleep_refused b = None -> sleep_refused a = None.
Proof.
  intros H0 Hab Hb. apply sleep_refused_none in Hb as [_ Hb].
  apply sleep_refused_none. split; [exact H0|].
  apply Qle_trans with (y := (b * inject_Z 1000000000)%Q); [|exact Hb].
  apply Qmult_le_compat_r; [exact Hab | discriminate].
Qed.

Lemma sleep_if_positive_accepted wait_time (w : World) :
  sleep_refused wait_time = None ->
  exists w', sleep_if_positive wait_time w = (Ok tt, w') /\
             random_draws w' = random_draws w.
Proof.
  intros Hok. unfold sleep_if_positive, time_sleep. rewrite Hok.
  destruct (negb (Qle_bool wait_time 0)); eexists; split; reflexivity.
Qed.

Lemma sleep_if_positive_random_draws wait_time w r w' :
  sleep_if_positive wait_time w = (r, w') -> random_draws w' = random_draws w.
Proof.
  destruct (sleep_if_positive_cases wait_time w) as [[e ->] | [-> | [-> _]]];
    intros [= _ <-]; reflexivity.
Qed.

Lemma _get_now_random_draws (w : World) :
  random_draws (snd (_get_now w)) = random_draws w.
Proof. unfold _get_now. destruct (clock_readings w); reflexivity. Qed.

Lemma throttled_once_random_draws config rl (w : World) :
  random_draws (snd (throttled_once config rl w)) = random_draws w.
Proof.
  unfold throttled_once, on_error, calculate_wait_time, throttled, randint, _get_now.
  destruct (clock_readings w); cbn; destruct (randint_draws w); reflexivity.
Qed.

Lemma countdown_random_draws (n : Z) (w : World) :
  random_draws (countdown n w) = random_draws w.
Proof.
  unfold countdown.
  generalize (range_down_by_5 (Z.to_nat n) n). intros steps.
  change (random_draws (fold_left
            (fun w remaining =>
               sleep (inject_Z (Z.min 5 remaining))
                 (print (MRemaining (remaining / 60) (remaining mod 60)) w)) steps w)
          = random_draws w).
  revert w. induction steps as [|r steps IH]; intros w; simpl; [reflexivity|].
  rewrite IH. reflexivity.
Qed.

Lemma waited_random_draws announce wait_time (w : World) :
  random_draws (waited announce wait_time w) = random_draws w.
Proof. unfold waited. rewrite countdown_random_draws. reflexivity. Qed.

Lemma promote_attempts_random_draws config product premium_priority is_published
    max_retries attempts :
  forall rl w,
    random_draws
      (snd (promote_attempts config product premium_priority is_published
              max_retries attempts rl w))
    = random_draws w.
Proof.
  induction attempts as [|a attempts IH]; intros rl w; [reflexivity|].
  rewrite promote_attempts_cons.
  assert (Hc : random_draws
                 (snd (promote_call
                         (promote_event is_published product premium_priority) w))
               = random_draws w).
  { unfold promote_call. simpl. destruct (promote_replies w); reflexivity. }
  destruct (promote_call _ w) as [[u|e] w1]; cbn [snd] in *; [exact Hc|].
  destruct (is_429 e); [|exact Hc].
  pose proof (throttled_once_random_draws config rl w1) as H1.
  destruct (throttled_once config rl w1) as [[rl1 wt] w3]. cbn [snd] in H1.
  destruct (a <? max_retries - 1); cbn [snd]; [|congruence].
  rewrite IH, waited_random_draws. congruence.
Qed.

Lemma fetch_attempts_random_draws config attempts :
  forall st w,
    random_draws (snd (fetch_attempts config page_max_retries attempts st w))
    = random_draws w.
Proof.
  induction attempts as [|a attempts IH]; intros st w; [reflexivity|].
  rewrite fetch_attempts_cons.
  assert (Hc : random_draws (snd (get_items (cursor st) (item_status config) w))
               = random_draws w).
  { unfold get_items. simpl. destruct (get_items_replies w); reflexivity. }
  destruct (get_items (cursor st) (item_status config) w) as [[il|e] w1];
    cbn [snd] in *; [exact Hc|].
  destruct (is_rate_limited e); [|exact Hc].
  pose proof (throttled_once_random_draws config (rate_limiter st) w1) as H1.
  destruct (throttled_once config (rate_limiter st) w1) as [[rl1 wt] w3].
  cbn [snd] in H1. cbv zeta.
  destruct (a <? page_max_retries - 1); cbn [snd].
  - rewrite IH, waited_random_draws. congruence.
  - cbn. congruence.
Qed.

(** The delay between two promotions, drawn from a range that
    [_validate_config] has accepted and that [time.sleep] can sleep, is
    slept. *)
Lemma calculate_wait_time_slept config rl (w : World) :
  promos_bounds_refused (_delay_between_promos_bounds config) = false ->
  sleep_refused (snd (_delay_between_promos_bounds config)) = None ->
  unit_draws w ->
  sleep_refused (fst (calculate_wait_time config rl None w)) = None /\
  unit_draws (snd (calculate_wait_time config rl None w)).
Proof.
  intros Hok Hmax Hu.
  unfold calculate_wait_time, random_delay_between_promos_sec.
  rewrite bool_decide_eq_false_2 by discriminate.
  destruct (_delay_between_promos_bounds config) as [dmin dmax]. cbn [snd] in Hmax.
  destruct (promos_bounds_accepted dmin dmax Hok) as [Hpos Hle].
  destruct (uniform_between dmin dmax w Hle Hu) as [[Hlo Hhi] Hu'].
  split; [|exact Hu'].
  apply (sleep_refused_shorter _ dmax); [lra | exact Hhi | exact Hmax].
Qed.

Lemma say_random_draws config m (w : World) :
  random_draws (say config m w) = random_draws w.
Proof. unfold say. destruct (verbose config); reflexivity. Qed.

Lemma promote_step_checked config product norm_name st w :
  total_checked (snd (fst (promote_step config product norm_name st w)))
  = total_checked st.
Proof. unfold promote_step. repeat branch; reflexivity. Qed.

(** One listing that reaches the [try] block moves one counter by one,
    when the sleep that follows a promotion is one that [time.sleep]
    accepts. *)
Lemma promote_step_counters config product norm_name st w :
  promos_bounds_refused (_delay_between_promos_bounds config) = false ->
  sleep_refused (snd (_delay_between_promos_bounds config)) = None ->
  unit_draws w ->
  counted_once st (snd (fst (promote_step config product norm_name st w))) /\
  unit_draws (snd (promote_step config product norm_name st w)).
Proof.
  intros Hok Hmax Hu. unfold promote_step, counted_once.
  assert (H0 : random_draws
                 (snd (get_item_priority_statuses (item_id product) (item_price product) w))
               = random_draws w).
  { unfold get_item_priority_statuses. simpl. destruct (priority_replies w); reflexivity. }
  destruct (get_item_priority_statuses (item_id product) (item_price product) w)
    as [[priority_statuses|e] w1]; cbn [snd] in H0.
  2:{ unfold unit_draws in *. cbn. rewrite H0. split; [lia | exact Hu]. }
  destruct (List.find is_premium priority_statuses) as [premium_priority|].
  2:{ unfold unit_draws in *. cbn [fst snd]. rewrite say_random_draws, H0.
      split; [cbn; lia | exact Hu]. }
  pose proof (promote_attempts_random_draws config product premium_priority
                (bool_decide (item_status config = "APPROVED")) 3 (range 3)
                (rate_limiter st) w1) as H1.
  fold (promote_product_with_retry config product premium_priority
          (bool_decide (item_status config = "APPROVED")) (rate_limiter st) 3 w1) in H1.
  destruct (promote_product_with_retry config product premium_priority
              (bool_decide (item_status config = "APPROVED")) (rate_limiter st) 3 w1)
    as [[[success message] rl] w2]. cbn [snd] in H1.
  assert (Hu2 : unit_draws w2) by (unfold unit_draws in *; rewrite H1, H0; exact Hu).
  destruct success.
  - destruct (calculate_wait_time_slept config rl (print (MSuccess message) w2)
                Hok Hmax Hu2) as [Hsl Hu3].
    destruct (calculate_wait_time config rl None (print (MSuccess message) w2))
      as [wait_time w3]. cbn [fst snd] in Hsl, Hu3.
    destruct (sleep_if_positive_accepted wait_time w3 Hsl) as (w4 & -> & Hd).
    unfold unit_draws in *. cbn. rewrite Hd. split; [lia | exact Hu3].
  - unfold unit_draws in *.
    destruct (str_in "Пропуск товара" message); cbn; (split; [lia | exact Hu2]).
Qed.

(** ** The duplicate counter *)

Lemma dd_get_value key d : fst (dd_get key d) = default 0 (d !! key).
Proof. unfold dd_get. destruct (d !! key); reflexivity. Qed.

Lemma dd_get_lookup key d name :
  default 0 (snd (dd_get key d) !! name) = default 0 (d !! name).
Proof.
  unfold dd_get. destruct (d !! key) eqn:E; [reflexivity|]. simpl.
  destruct (decide (key = name)) as [->|Hne].
  - rewrite lookup_insert_eq, E. reflexivity.
  - rewrite lookup_insert_ne by exact Hne. reflexivity.
Qed.

Lemma dd_incr_lookup key d name :
  default 0 (dd_incr key d !! name)
  = if decide (key = name) then default 0 (d !! key) + 1 else default 0 (d !! name).
Proof.
  unfold dd_incr. pose proof (dd_get_value key d) as Hv.
  pose proof (dd_get_lookup key d name) as Hl.
  destruct (dd_get key d) as [n d']. simpl in Hv, Hl.
  destruct (decide (key = name)) as [->|Hne].
  - rewrite lookup_insert_eq. simpl. lia.
  - rewrite lookup_insert_ne by exact Hne. exact Hl.
Qed.

Lemma promote_step_promoted_count config product norm_name st w name :
  promoted_count (snd (fst (promote_step config product norm_name st w))) name
  <= (if decide (norm_name = name)
      then promoted_count st norm_name + 1
      else promoted_count st name) /\
  promoted_count st name
  <= promoted_count (snd (fst (promote_step config product norm_name st w))) name.
Proof.
  unfold promote_step, promoted_count.
  repeat branch; cbn [fst snd promoted_by_name incr_total_errors incr_total_skipped
                      incr_total_promoted set_promoted_by_name set_rate_limiter];
    rewrite ?dd_incr_lookup; repeat case_decide; subst; try congruence; lia.
Qed.

Lemma promote_step_catches config product norm_name st w e :
  fst (fst (promote_step config product norm_name st w)) <> Uncaught e.
Proof. unfold promote_step. repeat branch; cbn [fst]; discriminate. Qed.

Section Listing.

Variable fromisoformat : string -> option datetime.
Variable config : Config.

Local Abbreviation process := (process_product fromisoformat config).

Lemma process_product_pages product st w :
  get_items_replies (snd (process product st w)) = get_items_replies w.
Proof.
  unfold process_product.
  repeat branch; cbn [snd]; rewrite ?promote_step_pages; pages.
Qed.

Lemma process_product_checked product st w :
  total_checked (snd (fst (process product st w))) = total_checked st + 1.
Proof.
  unfold process_product.
  repeat branch; rewrite ?promote_step_checked;
    repeat match goal with
      | H : (if _ then _ else _) = _ |- _ => revert H
      end;
    repeat branch; intros; simplify_eq; cbn in *; lia.
Qed.

(** One listing moves at most one of promoted, skipped and errors, by
    one, when the sleep that follows a promotion is one that [time.sleep]
    accepts. *)
Lemma process_product_counters product st w :
  promos_bounds_refused (_delay_between_promos_bounds config) = false ->
  sleep_refused (snd (_delay_between_promos_bounds config)) = None ->
  unit_draws w ->
  counted_once st (snd (fst (process product st w))) /\
  unit_draws (snd (process product st w)).
Proof.
  intros Hok Hmax Hu. unfold process_product.
  assert (Hsay : forall D st' m w0,
             random_draws w0 = random_draws w ->
             counted_once st st' ->
             counted_once st (snd (fst (D : Decision, st' : Locals, say config m w0))) /\
             unit_draws (snd (D, st', say config m w0))).
  { intros D st' m w0 Hw Hc. cbn [fst snd]. split; [exact Hc|].
    unfold unit_draws in *. rewrite say_random_draws, Hw. exact Hu. }
  destruct (name_filter config _) as [m|].
  { apply Hsay; [reflexivity | unfold counted_once; cbn; lia]. }
  destruct (fromisoformat (approval_date product)) as [approval|];
    [|apply Hsay; [reflexivity | unfold counted_once; cbn; lia]].
  pose proof (_get_now_random_draws w) as Hnow.
  destruct (_get_now w) as [now w1]. cbn [snd] in Hnow.
  destruct (promo_threshold_sec config) as [threshold|e].
  2:{ cbn [fst snd]. split; [unfold counted_once; cbn; lia|].
      unfold unit_draws in *. rewrite Hnow. exact Hu. }
  destruct (_ <=? threshold * 1000000);
    [apply Hsay; [exact Hnow | unfold counted_once; cbn; lia]|].
  match goal with
  | |- context [let '(limit_reached, st0) := ?limit in _] =>
      assert (Hlim : total_promoted (snd limit) = total_promoted st /\
                     total_skipped (snd limit) = total_skipped st /\
                     total_errors (snd limit) = total_errors st);
      [|destruct limit as [limit_reached st1]]
  end.
  { destruct (0 <=? duplicates_limit config); [destruct (dd_get _ _)|];
      repeat split. }
  cbn [snd] in Hlim. destruct Hlim as (Hp & Hs & He).
  destruct limit_reached;
    [apply Hsay; [exact Hnow | unfold counted_once; cbn; lia]|].
  match goal with
  | |- context [promote_step ?c ?p ?n ?s ?w0] =>
      destruct (promote_step_counters c p n s w0 Hok Hmax) as [Hc Hu']
  end.
  { unfold unit_draws in *. rewrite !say_random_draws, Hnow. exact Hu. }
  split; [|exact Hu'].
  unfold counted_once in *. lia.
Qed.

(** The duplicate limit is kept by every listing. *)
Lemma process_product_within_limit product st w :
  0 <= duplicates_limit config ->
  within_limit (duplicates_limit config) st ->
  within_limit (duplicates_limit config) (snd (fst (process product st w))).
Proof.
  intros Hk Hinv name. specialize (Hinv name). revert Hinv.
  unfold process_product, promoted_count.
  apply Z.leb_le in Hk. rewrite Hk.
  repeat branch; cbn [fst snd promoted_by_name incr_total_checked incr_total_skipped];
    try (intros; simplify_eq; cbn; assumption).
  all: intros Hinv.
  all: match goal with
       | H : dd_get ?k ?d = (?n, ?d') |- _ =>
           pose proof (dd_get_value k d) as Hv;
           pose proof (dd_get_lookup k d name) as Hl;
           pose proof (dd_get_lookup k d k) as Hlk;
           rewrite H in Hv, Hl, Hlk; cbn [fst snd] in Hv, Hl, Hlk
       end.
  all: try match goal with
         | |- context [promote_step ?c ?p ?n ?s ?w'] =>
             destruct (promote_step_promoted_count c p n s w' name) as [Hup _];
             unfold promoted_count in Hup
         end.
  all: match goal with
       | H : (_ <=? _) = true |- _ => clear H
       end.
  all: try match goal with
         | H : (duplicates_limit config <=? _) = false |- _ => apply Z.leb_gt in H
         end.
  all: cbn [promoted_by_name set_promoted_by_name incr_total_checked] in *.
  all: try case_decide; subst; lia.
Qed.

(** A well-formed threshold leaves the loop body nothing to raise. *)
Lemma process_product_no_exception product st w threshold e :
  promo_threshold_sec config = Ok threshold ->
  fst (fst (process product st w)) <> Uncaught e.
Proof.
  intros Ht. unfold process_product. rewrite Ht.
  repeat branch; cbn [fst]; try discriminate; apply promote_step_catches.
Qed.

End Listing.

(** ** Pages *)

Lemma listings_of_app l1 l2 : listings_of (l1 ++ l2) = listings_of l1 + listings_of l2.
Proof.
  induction l1 as [|[[il|]|e] l1 IH]; simpl; rewrite ?IH; lia.
Qed.

Lemma random_delay_between_pages_sec_pages config w :
  get_items_replies (snd (random_delay_between_pages_sec config w)) = get_items_replies w.
Proof.
  unfold random_delay_between_pages_sec.
  destruct (_delay_between_pages_bounds config) as [pmin pmax].
  destruct (Qeq_bool pmin 0 && Qeq_bool pmax 0); [reflexivity|].
  apply replies_left_get_items, uniform_replies_left.
Qed.

(** The replies a page fetch takes: those of its attempts, the last of
    which is the page when the fetch succeeds. *)
Lemma fetch_attempts_consumed config attempts :
  forall st w, exists consumed,
    get_items_replies w
    = consumed ++ get_items_replies (snd (fetch_attempts config page_max_retries attempts st w)) /\
    listings_of consumed
    = match fst (fst (fetch_attempts config page_max_retries attempts st w)) with
      | Fetched (Some item_list) => Z.of_nat (length (items item_list))
      | _ => 0
      end /\
    (forall item_list,
        fst (fst (fetch_attempts config page_max_retries attempts st w))
        = Fetched (Some item_list) ->
        consumed <> []).
Proof.
  induction attempts as [|a attempts IH]; intros st w.
  - exists []. simpl. repeat split. discriminate.
  - rewrite fetch_attempts_cons.
    pose proof (get_items_cons (cursor st) (item_status config) w) as Hcons.
    pose proof (get_items_nil (cursor st) (item_status config) w) as Hnil.
    destruct (get_items_replies w) as [|r rest] eqn:Hrep.
    + destruct (Hnil eq_refl) as [Hr Hrest].
      destruct (get_items (cursor st) (item_status config) w) as [r w1].
      cbn [fst snd] in *. subst r.
      change (is_rate_limited no_reply) with false. cbv iota.
      exists []. cbn. rewrite Hrest. repeat split. discriminate.
    + destruct (Hcons r rest eq_refl) as [Hr Hrest].
      destruct (get_items (cursor st) (item_status config) w) as [r' w1].
      cbn [fst snd] in *. subst r'.
      destruct r as [il|e].
      * exists [Ok il]. cbn [fst snd]. rewrite Hrest.
        repeat split; [destruct il; simpl; lia | discriminate].
      * destruct (is_rate_limited e).
        -- pose proof (replies_left_get_items _ _
                         (throttled_once_replies_left config (rate_limiter st) w1)) as H1.
           destruct (throttled_once config (rate_limiter st) w1) as [[rl1 wt] w3].
           cbn [snd] in H1. cbv zeta.
           destruct (a <? page_max_retries - 1).
           ++ destruct (IH (set_rate_limiter rl1 st)
                          (waited (MPageRateLimit (a + 1) page_max_retries) wt w3))
                as (consumed & Hc & Hl & Hne).
              exists (Raise e :: consumed).
              rewrite (replies_left_get_items _ _ (waited_replies_left _ _ _)), H1, Hrest in Hc.
              repeat split.
              ** simpl. f_equal. exact Hc.
              ** exact Hl.
              ** discriminate.
           ++ exists [Raise e]. cbn. rewrite H1, Hrest. repeat split. discriminate.
        -- exists [Raise e]. cbn. rewrite Hrest. repeat split. discriminate.
Qed.

Section Loop.

Variable fromisoformat : string -> option datetime.
Variable config : Config.

Local Abbreviation process := (process_product fromisoformat config).
Local Abbreviation items_loop := (process_items fromisoformat config).
Local Abbreviation loop fuel := (pages_loop fromisoformat fuel config).

Lemma process_items_cons product products st w :
  items_loop (product :: products) st w =
  match fst (fst (process product st w)) with
  | Uncaught e => (Some e, snd (fst (process product st w)), snd (process product st w))
  | _ => items_loop products (snd (fst (process product st w))) (snd (process product st w))
  end.
Proof.
  cbn [process_items].
  destruct (process_product fromisoformat config product st w) as [[[] st1] w1];
    reflexivity.
Qed.

Lemma process_items_pages products :
  forall st w, get_items_replies (snd (items_loop products st w)) = get_items_replies w.
Proof.
  induction products as [|p products IH]; intros st w; [reflexivity|].
  rewrite process_items_cons.
  pose proof (process_product_pages fromisoformat config p st w) as Hp.
  destruct (fst (fst (process p st w))); cbn [snd]; rewrite ?IH; exact Hp.
Qed.

(** A relation between locals that every listing respects is respected
    by a page of listings, the worlds staying within an invariant that the
    listings keep. *)
Lemma process_items_rel_inv (I : World -> Prop) (R : Locals -> Locals -> Prop) :
  (forall st, R st st) ->
  (forall st1 st2 st3, R st1 st2 -> R st2 st3 -> R st1 st3) ->
  (forall product st w,
      I w -> R st (snd (fst (process product st w))) /\ I (snd (process product st w))) ->
  forall products st w,
    I w ->
    R st (snd (fst (items_loop products st w))) /\ I (snd (items_loop products st w)).
Proof.
  intros Hrefl Htrans Hstep.
  induction products as [|p products IH]; intros st w Hw; [split; [apply Hrefl | exact Hw]|].
  rewrite process_items_cons. destruct (Hstep p st w Hw) as [HR HI].
  destruct (IH (snd (fst (process p st w))) (snd (process p st w)) HI) as [HR' HI'].
  destruct (fst (fst (process p st w))); cbn [fst snd];
    solve [split; assumption | split; [eapply Htrans; eassumption | assumption]].
Qed.

Lemma process_items_rel (R : Locals -> Locals -> Prop) :
  (forall st, R st st) ->
  (forall st1 st2 st3, R st1 st2 -> R st2 st3 -> R st1 st3) ->
  (forall product st w, R st (snd (fst (process product st w)))) ->
  forall products st w, R st (snd (fst (items_loop products st w))).
Proof.
  intros Hrefl Htrans Hstep products st w.
  apply (process_items_rel_inv (fun _ => True) R Hrefl Htrans); auto.
Qed.

(** Every listing reached is counted, and all are reached unless an
    exception leaves the loop. *)
Lemma process_items_checked products :
  forall st w,
    total_checked st <= total_checked (snd (fst (items_loop products st w)))
    <= total_checked st + Z.of_nat (length products) /\
    (fst (fst (items_loop products st w)) = None ->
     total_checked (snd (fst (items_loop products st w)))
     = total_checked st + Z.of_nat (length products)).
Proof.
  induction products as [|p products IH]; intros st w.
  - simpl. split; [lia | intros _; lia].
  - rewrite process_items_cons.
    pose proof (process_product_checked fromisoformat config p st w) as Hc.
   
    specialize (IH (snd (fst (process p st w))) (snd (process p st w))).
    destruct IH as [IH1 IH2].
    destruct (fst (fst (process p st w))); cbn [fst snd length];
      (split; [lia | intros H; try discriminate H; specialize (IH2 H); lia]).
Qed.

Lemma process_items_no_exception products threshold :
  promo_threshold_sec config = Ok threshold ->
  forall st w, fst (fst (items_loop products st w)) = None.
Proof.
  intros Ht. induction products as [|p products IH]; intros st w; [reflexivity|].
  rewrite process_items_cons.
  pose proof (fun e => process_product_no_exception fromisoformat config p st w threshold e Ht)
    as Hno.
 
  destruct (fst (fst (process p st w))); try apply IH.
  exfalso. eapply Hno. reflexivity.
Qed.

(** A relation between locals that the limiter, the cursor and every
    listing respect holds between the locals at the start of the loop and
    those at its end; when the loop is left by [return], it holds up to the
    error the failed page fetch has just counted. *)
Lemma pages_loop_rel_inv (I : World -> Prop) (R : Locals -> Locals -> Prop) :
  (forall st, R st st) ->
  (forall st1 st2 st3, R st1 st2 -> R st2 st3 -> R st1 st3) ->
  (forall rl st, R st (set_rate_limiter rl st)) ->
  (forall c st, R st (set_cursor c st)) ->
  (forall st w,
      I w -> I (snd (fetch_attempts config page_max_retries (range page_max_retries) st w))) ->
  (forall w, I w -> I (snd (random_delay_between_pages_sec config w))) ->
  (forall seconds w, I w -> I (sleep seconds w)) ->
  (forall product st w,
      I w -> R st (snd (fst (process product st w))) /\ I (snd (process product st w))) ->
  forall fuel st w,
    I w ->
    match fst (fst (loop fuel st w)) with
    | ByReturn =>
        exists st', R st st' /\ snd (fst (loop fuel st w)) = incr_total_errors st'
    | _ => R st (snd (fst (loop fuel st w)))
    end.
Proof.
  intros Hrefl Htrans Hrl Hcur HIfetch HIpause HIsleep Hstep.
  induction fuel as [|fuel IH]; intros st w Hw; [apply Hrefl|].
  cbn [pages_loop].
  destruct (fetch_attempts_locals config (range page_max_retries) st w) as [rl Hst].
  pose proof (HIfetch st w Hw) as Hw1.
  destruct (fetch_attempts config page_max_retries (range page_max_retries) st w)
    as [[fx st1] w1].
  cbn [fst snd] in Hst, Hw1.
  destruct fx as [[il|]|]; subst st1.
  - destruct (process_items_rel_inv I R Hrefl Htrans Hstep (items il)
                (set_rate_limiter rl st) w1 Hw1) as [Hitems Hw2].
    destruct (process_items fromisoformat config (items il) (set_rate_limiter rl st) w1)
      as [[[e|] st2] w2]; cbn [fst snd] in *.
    + eapply Htrans; [apply Hrl | exact Hitems].
    + destruct (negb (has_next_page (page_info il))); cbn [fst snd].
      * eapply Htrans; [apply Hrl | exact Hitems].
      * pose proof (HIpause w2 Hw2) as Hw3.
        destruct (random_delay_between_pages_sec config w2) as [wt w3].
        cbn [snd] in Hw3.
        assert (Hpre : R st (set_cursor (end_cursor (page_info il)) st2)).
        { eapply Htrans; [apply Hrl|]. eapply Htrans; [exact Hitems | apply Hcur]. }
        assert (Hnext : forall w4,
                   I w4 ->
                   match
                     fst (fst (pages_loop fromisoformat fuel config
                                 (set_cursor (end_cursor (page_info il)) st2) w4))
                   with
                   | ByReturn =>
                       exists st',
                         R st st' /\
                         snd (fst (pages_loop fromisoformat fuel config
                                     (set_cursor (end_cursor (page_info il)) st2) w4))
                         = incr_total_errors st'
                   | _ =>
                       R st (snd (fst (pages_loop fromisoformat fuel config
                                         (set_cursor (end_cursor (page_info il)) st2) w4)))
                   end).
        { intros w4 Hw4.
          specialize (IH (set_cursor (end_cursor (page_info il)) st2) w4 Hw4).
          destruct (fst (fst (pages_loop fromisoformat fuel config _ _)));
            try (eapply Htrans; [exact Hpre | exact IH]).
          destruct IH as (st' & HR & Heq). exists st'. split; [|exact Heq].
          eapply Htrans; [exact Hpre | exact HR]. }
        destruct (sleep_if_positive_cases wt w3) as [[e ->] | [-> | [-> _]]].
        -- cbn [fst snd]. eapply Htrans; [apply Hrl | exact Hitems].
        -- apply Hnext, Hw3.
        -- apply Hnext, HIsleep, Hw3.
  - cbn [fst snd]. exists (set_rate_limiter rl st). split; [apply Hrl | reflexivity].
  - cbn [fst snd]. exists (set_rate_limiter rl st). split; [apply Hrl | reflexivity].
Qed.

Lemma pages_loop_rel (R : Locals -> Locals -> Prop) :
  (forall st, R st st) ->
  (forall st1 st2 st3, R st1 st2 -> R st2 st3 -> R st1 st3) ->
  (forall rl st, R st (set_rate_limiter rl st)) ->
  (forall c st, R st (set_cursor c st)) ->
  (forall product st w, R st (snd (fst (process product st w)))) ->
  forall fuel st w,
    match fst (fst (loop fuel st w)) with
    | ByReturn =>
        exists st', R st st' /\ snd (fst (loop fuel st w)) = incr_total_errors st'
    | _ => R st (snd (fst (loop fuel st w)))
    end.
Proof.
  intros Hrefl Htrans Hrl Hcur Hstep fuel st w.
  apply (pages_loop_rel_inv (fun _ => True) R Hrefl Htrans Hrl Hcur); auto.
Qed.

(** What the loop takes from the page replies and what it counts as
    checked: the listings of the pages fetched, all of them when reading
    the threshold does not raise. The loop ends within as many rounds as
    there are replies, and one more. *)
Lemma pages_loop_checked :
  forall fuel st w, exists consumed,
    get_items_replies w = consumed ++ get_items_replies (snd (loop fuel st w)) /\
    total_checked st <= total_checked (snd (fst (loop fuel st w)))
    <= total_checked st + listings_of consumed /\
    ((exists threshold, promo_threshold_sec config = Ok threshold) ->
     total_checked (snd (fst (loop fuel st w))) = total_checked st + listings_of consumed) /\
    ((length (get_items_replies w) < fuel)%nat ->
     fst (fst (loop fuel st w)) <> Unfinished).
Proof.
  induction fuel as [|fuel IH]; intros st w.
  - exists []. cbn. repeat split; intros; lia.
  - cbn beta in *. cbn [pages_loop].
    destruct (fetch_attempts_locals config (range page_max_retries) st w) as [rl Hst].
    destruct (fetch_attempts_consumed config (range page_max_retries) st w)
      as (c1 & Hc1 & Hl1 & Hne1).
    destruct (fetch_attempts config page_max_retries (range page_max_retries) st w)
      as [[fx st1] w1].
    cbn [fst snd] in *.
    destruct fx as [[il|]|]; subst st1.
    + pose proof (process_items_pages (items il) (set_rate_limiter rl st) w1) as Hp.
      destruct (process_items_checked (items il) (set_rate_limiter rl st) w1) as [Hck1 Hck2].
      pose proof (fun threshold Ht =>
                    process_items_no_exception (items il) threshold Ht
                      (set_rate_limiter rl st) w1) as Hno.
      destruct (process_items fromisoformat config (items il) (set_rate_limiter rl st) w1)
        as [[[e|] st2] w2]; cbn [fst snd total_checked set_rate_limiter] in *.
      * exists c1. split; [congruence|]. repeat split; try lia; [|discriminate].
        intros [threshold Ht]. specialize (Hno threshold Ht). discriminate.
      * specialize (Hck2 eq_refl).
        destruct (negb (has_next_page (page_info il))); cbn [fst snd].
        -- exists c1. split; [congruence|]. repeat split; try lia; discriminate.
        -- pose proof (random_delay_between_pages_sec_pages config w2) as Hd.
           destruct (random_delay_between_pages_sec config w2) as [wt w3].
           cbn [snd] in Hd.
           assert (Hnext : forall w4,
                      get_items_replies w4 = get_items_replies w3 ->
                      exists consumed,
                        get_items_replies w
                        = consumed
                          ++ get_items_replies
                               (snd (pages_loop fromisoformat fuel config
                                       (set_cursor (end_cursor (page_info il)) st2) w4)) /\
                        total_checked st
                        <= total_checked
                             (snd (fst (pages_loop fromisoformat fuel config
                                          (set_cursor (end_cursor (page_info il)) st2) w4)))
                        <= total_checked st + listings_of consumed /\
                        ((exists threshold, promo_threshold_sec config = Ok threshold) ->
                         total_checked
                           (snd (fst (pages_loop fromisoformat fuel config
                                        (set_cursor (end_cursor (page_info il)) st2) w4)))
                         = total_checked st + listings_of consumed) /\
                        ((length (get_items_replies w) < S fuel)%nat ->
                         fst (fst (pages_loop fromisoformat fuel config
                                     (set_cursor (end_cursor (page_info il)) st2) w4))
                         <> Unfinished)).
           { intros w4 H4.
             destruct (IH (set_cursor (end_cursor (page_info il)) st2) w4)
               as (c2 & Hc2 & Hb2 & He2 & Hf2).
             cbn [total_checked set_cursor] in *.
             exists (c1 ++ c2). rewrite listings_of_app. repeat split; try lia.
             - rewrite <- app_assoc, <- Hc2. congruence.
             - intros H. specialize (He2 H). lia.
             - intros Hfuel. apply Hf2.
               assert (c1 <> []) by (eapply Hne1; reflexivity).
               assert (length (get_items_replies w)
                       = (length c1 + length (get_items_replies w4))%nat)
                 by (rewrite Hc1, length_app; congruence).
               destruct c1; [congruence|]. simpl in *. lia. }
           destruct (sleep_if_positive_cases wt w3) as [[e ->] | [-> | [-> _]]].
           ++ exists c1. cbn [fst snd]. split; [congruence|].
              repeat split; try lia; discriminate.
           ++ apply Hnext. reflexivity.
           ++ apply Hnext. reflexivity.
    + exists c1. cbn. split; [exact Hc1|]. repeat split; try lia; discriminate.
    + exists c1. cbn. split; [exact Hc1|]. repeat split; try lia; discriminate.
Qed.

End Loop.

(** ** The age of a listing *)

Lemma elapsed_since_localize now approval :
  elapsed_since now
    (match tzinfo approval with None => localize_utc approval | Some _ => approval end)
  = elapsed_since now approval.
Proof. unfold elapsed_since, localize_utc. destruct (tzinfo approval) eqn:E; simpl; rewrite ?E; reflexivity. Qed.

Section Eligibility.

Variable fromisoformat : string -> option datetime.
Variable config : Config.

Local Abbreviation process := (process_product fromisoformat config).

(** C7: a listing that passes the name filter and whose approval date
    does not parse is decided [SkipInvalidDate] and counted as skipped,
    not as an error; one whose date parses and whose age does not exceed
    the threshold is decided [SkipTooYoung] and counted neither as skipped
    nor as anything else but checked. *)
Theorem process_product_date_and_age product st w :
  name_filter config (_normalize_name (Some (default "" (item_name product)))) = None ->
  (fromisoformat (approval_date product) = None ->
   fst (fst (process product st w)) = SkipInvalidDate /\
   total_skipped (snd (fst (process product st w))) = total_skipped st + 1 /\
   total_errors (snd (fst (process product st w))) = total_errors st /\
   total_promoted (snd (fst (process product st w))) = total_promoted st) /\
  (forall approval threshold,
      fromisoformat (approval_date product) = Some approval ->
      promo_threshold_sec config = Ok threshold ->
      elapsed_since (fst (_get_now w)) approval <= threshold * 1000000 ->
      fst (fst (process product st w)) = SkipTooYoung /\
      total_skipped (snd (fst (process product st w))) = total_skipped st /\
      total_errors (snd (fst (process product st w))) = total_errors st /\
      total_promoted (snd (fst (process product st w))) = total_promoted st).
Proof.
  intros Hname. unfold process_product. rewrite Hname. split.
  - intros ->. repeat split.
  - intros approval threshold -> -> Hage.
    rewrite <- (elapsed_since_localize (fst (_get_now w)) approval) in Hage.
    destruct (_get_now w) as [now w1]. cbn [fst] in Hage.
    apply Z.leb_le in Hage. rewrite Hage. repeat split.
Qed.

(** Once the count of a name has reached the limit, a listing of that name
    that passes the name, date and age checks is skipped: nothing is asked
    of the marketplace, and the only effect is the line that says so. *)
Lemma process_product_limit_reached product st w approval threshold :
  0 <= duplicates_limit config ->
  name_filter config (_normalize_name (Some (default "" (item_name product)))) = None ->
  fromisoformat (approval_date product) = Some approval ->
  promo_threshold_sec config = Ok threshold ->
  threshold * 1000000 < elapsed_since (fst (_get_now w)) approval ->
  duplicates_limit config
  <= promoted_count st (_normalize_name (Some (default "" (item_name product)))) ->
  fst (fst (process product st w)) = SkipDuplicateLimit /\
  total_skipped (snd (fst (process product st w))) = total_skipped st + 1 /\
  total_promoted (snd (fst (process product st w))) = total_promoted st /\
  (forall name,
      promoted_count (snd (fst (process product st w))) name = promoted_count st name) /\
  trace (snd (process product st w))
  = trace w ++ (if verbose config
                then [Print (MDuplicateLimit (default "" (item_name product))
                               (duplicates_limit config))]
                else []).
Proof.
  intros Hk Hname Hdate Hthr Hage Hcount.
  unfold process_product. rewrite Hname, Hdate, Hthr.
  rewrite <- (elapsed_since_localize (fst (_get_now w)) approval) in Hage.
  pose proof (_get_now_trace w) as Ht.
  destruct (_get_now w) as [now w1]. cbn [fst snd] in Hage, Ht.
  apply Z.leb_gt in Hage. rewrite Hage.
  apply Z.leb_le in Hk. rewrite Hk.
  unfold promoted_count in Hcount.
  set (norm_name := _normalize_name (Some (default "" (item_name product)))) in *.
  pose proof (dd_get_value norm_name (promoted_by_name (incr_total_checked st))) as Hv.
  pose proof (dd_get_lookup norm_name (promoted_by_name (incr_total_checked st))) as Hl.
  destruct (dd_get norm_name (promoted_by_name (incr_total_checked st))) as [n d].
  cbn [fst snd promoted_by_name incr_total_checked] in Hv, Hl.
  assert (Hn : (duplicates_limit config <=? n) = true) by (apply Z.leb_le; lia).
  rewrite Hn. cbn [fst snd]. repeat split.
  - intros name. unfold promoted_count. cbn. apply Hl.
  - unfold say. destruct (verbose config); cbn; rewrite Ht, ?app_nil_r; reflexivity.
Qed.

End Eligibility.

(** ** The cycle *)

Lemma fetch_attempts_summary config attempts :
  forall st w,
    fst (fst (fetch_attempts config page_max_retries attempts st w)) = FetchReturn ->
    exists w0,
      snd (fetch_attempts config page_max_retries attempts st w)
      = print_summary (snd (fst (fetch_attempts config page_max_retries attempts st w))) w0.
Proof.
  induction attempts as [|a attempts IH]; intros st w; [discriminate|].
  rewrite fetch_attempts_cons.
  destruct (get_items (cursor st) (item_status config) w) as [[il|e] w1]; [discriminate|].
  destruct (is_rate_limited e).
  - destruct (throttled_once config (rate_limiter st) w1) as [[rl1 wt] w3]. cbv zeta.
    destruct (a <? page_max_retries - 1); [apply IH|].
    intros _. eexists. reflexivity.
  - intros _. eexists. reflexivity.
Qed.

Section WholeCycle.

Variable fromisoformat : string -> option datetime.
Variable config : Config.

Local Abbreviation loop fuel := (pages_loop fromisoformat fuel config).
Local Abbreviation cycle := (check_and_update_products fromisoformat config).

Lemma pages_loop_summary :
  forall fuel st w,
    fst (fst (loop fuel st w)) = ByReturn ->
    exists w0, snd (loop fuel st w) = print_summary (snd (fst (loop fuel st w))) w0.
Proof.
  induction fuel as [|fuel IH]; intros st w; [discriminate|].
  cbn beta in *. cbn [pages_loop].
  pose proof (fetch_attempts_summary config (range page_max_retries) st w) as Hf.
  destruct (fetch_attempts config page_max_retries (range page_max_retries) st w)
    as [[[[il|]|] st1] w1]; cbn [fst snd] in *.
  - destruct (process_items fromisoformat config (items il) st1 w1) as [[[e|] st2] w2];
      [discriminate|].
    destruct (negb (has_next_page (page_info il))); [discriminate|].
    destruct (random_delay_between_pages_sec config w2) as [wt w3].
    destruct (sleep_if_positive wt w3) as [[u|e] w4]; [apply IH | discriminate].
  - intros _. eexists. reflexivity.
  - intros _. apply Hf. reflexivity.
Qed.

(** The cycle ends, whatever the outside replies, and the last thing it
    does is to print the summary of its counters. No exception leaves it:
    one that leaves the loop is printed before the summary. *)
Lemma check_and_update_products_reports (w : World) :
  exists w0,
    cycle w
    = Some (snd (fst (loop (S (length (get_items_replies w))) Locals_init w)),
            print_summary
              (snd (fst (loop (S (length (get_items_replies w))) Locals_init w))) w0) /\
    get_items_replies w0
    = get_items_replies (snd (loop (S (length (get_items_replies w))) Locals_init w)).
Proof.
  unfold check_and_update_products, cycle_from.
  destruct (pages_loop_checked fromisoformat config
              (S (length (get_items_replies w))) Locals_init w)
    as (consumed & _ & _ & _ & Hfin).
  pose proof (pages_loop_summary (S (length (get_items_replies w))) Locals_init w) as Hsum.
  cbn beta in *.
  destruct (pages_loop fromisoformat (S (length (get_items_replies w))) config Locals_init w)
    as [[[| |e|] st] w1]; cbn [fst snd] in *.
  - destruct (Hsum eq_refl) as [w0 ->]. exists w0. split; reflexivity.
  - exists w1. split; reflexivity.
  - exists (print (MCycleError e) w1). split; reflexivity.
  - exfalso. apply Hfin; [lia | reflexivity].
Qed.

(** C1: under a duplicate limit [K >= 0], no name is ever promoted more
    than [K] times in a cycle: the count of every name is within the limit
    when the cycle ends, every listing processed leaves it so, and once the
    count of a name has reached [K] a further listing of that name that
    passes the name, date and age checks is decided [SkipDuplicateLimit]
    and counted as skipped with nothing asked of the marketplace. *)
Theorem duplicate_limit_respected (w : World) :
  0 <= duplicates_limit config ->
  (exists st w',
      cycle w = Some (st, w') /\ within_limit (duplicates_limit config) st) /\
  (forall product st w1,
      within_limit (duplicates_limit config) st ->
      within_limit (duplicates_limit config)
        (snd (fst (process_product fromisoformat config product st w1)))) /\
  (forall product st w1 approval threshold,
      name_filter config (_normalize_name (Some (default "" (item_name product)))) = None ->
      fromisoformat (approval_date product) = Some approval ->
      promo_threshold_sec config = Ok threshold ->
      threshold * 1000000 < elapsed_since (fst (_get_now w1)) approval ->
      duplicates_limit config
      <= promoted_count st (_normalize_name (Some (default "" (item_name product)))) ->
      fst (fst (process_product fromisoformat config product st w1)) = SkipDuplicateLimit /\
      total_skipped (snd (fst (process_product fromisoformat config product st w1)))
      = total_skipped st + 1 /\
      total_promoted (snd (fst (process_product fromisoformat config product st w1)))
      = total_promoted st /\
      (forall name,
          promoted_count (snd (fst (process_product fromisoformat config product st w1))) name
          = promoted_count st name) /\
      trace (snd (process_product fromisoformat config product st w1))
      = trace w1 ++ (if verbose config
                     then [Print (MDuplicateLimit (default "" (item_name product))
                                    (duplicates_limit config))]
                     else [])).
Proof.
  intros Hk. repeat apply conj.
  - destruct (check_and_update_products_reports w) as (w0 & Heq & _).
    eexists _, _. split; [exact Heq|].
    pose proof (pages_loop_rel fromisoformat config
                  (fun st st' => within_limit (duplicates_limit config) st ->
                                 within_limit (duplicates_limit config) st')) as Hrel.
    cbv beta in Hrel.
  specialize (Hrel (fun _ H => H) (fun _ _ _ H1 H2 H => H2 (H1 H))
                   (fun _ _ H => H) (fun _ _ H => H)).
    specialize (Hrel (fun product st w1 =>
                        process_product_within_limit fromisoformat config product st w1 Hk)).
    specialize (Hrel (S (length (get_items_replies w))) Locals_init w).
    assert (Hinit : within_limit (duplicates_limit config) Locals_init).
    { intros name. unfold promoted_count. cbn. rewrite lookup_empty. exact Hk. }
    cbn beta in *.
    destruct (fst (fst (pages_loop fromisoformat (S (length (get_items_replies w)))
                          config Locals_init w))); auto.
    destruct Hrel as (st' & Hst' & ->). exact (Hst' Hinit).
  - intros product st w1. apply process_product_within_limit, Hk.
  - intros product st w1 approval threshold.
    apply process_product_limit_reached, Hk.
Qed.

(** C4, as amended: when a cycle ends, promoted + skipped + errors is at
    most checked + 1, and at most checked unless the cycle ended on a
    failed page fetch, which counts an error for no listing; checked is the
    number of listings of the pages fetched. This is so for a threshold
    that is a number, as [print_banner] has found it before the first
    cycle, and for delays between promotions that [_validate_config]
    accepts and [time.sleep] can sleep. *)
Theorem cycle_counters (w : World) (threshold : Z) :
  promo_threshold_sec config = Ok threshold ->
  promos_bounds_refused (_delay_between_promos_bounds config) = false ->
  sleep_refused (snd (_delay_between_promos_bounds config)) = None ->
  unit_draws w ->
  exists st w' consumed,
    cycle w = Some (st, w') /\
    get_items_replies w = consumed ++ get_items_replies w' /\
    total_promoted st + total_skipped st + total_errors st <= total_checked st + 1 /\
    (cycle_exit fromisoformat config w <> ByReturn ->
     total_promoted st + total_skipped st + total_errors st <= total_checked st) /\
    total_checked st = listings_of consumed.
Proof.
  intros Ht Hok Hmax Hu.
  destruct (check_and_update_products_reports w) as (w0 & Heq & Hrep).
  destruct (pages_loop_checked fromisoformat config
              (S (length (get_items_replies w))) Locals_init w)
    as (consumed & Hcons & _ & Hexact & _).
  specialize (Hexact (ex_intro _ threshold Ht)).
  pose proof (pages_loop_rel_inv fromisoformat config unit_draws
                (fun st st' =>
                   total_promoted st + total_skipped st + total_errors st <= total_checked st ->
                   total_promoted st' + total_skipped st' + total_errors st'
                   <= total_checked st')) as Hrel.
  cbv beta in Hrel.
  specialize (Hrel (fun _ H => H) (fun _ _ _ H1 H2 H => H2 (H1 H))
                   (fun _ _ H => H) (fun _ _ H => H)).
  assert (Hfetch : forall st w1,
             unit_draws w1 ->
             unit_draws (snd (fetch_attempts config page_max_retries
                                (range page_max_retries) st w1))).
  { intros st w1 H. unfold unit_draws in *.
    rewrite fetch_attempts_random_draws. exact H. }
  assert (Hpause : forall w1,
             unit_draws w1 -> unit_draws (snd (random_delay_between_pages_sec config w1))).
  { intros w1 H. unfold random_delay_between_pages_sec.
    destruct (_delay_between_pages_bounds config) as [pmin pmax].
    destruct (Qeq_bool pmin 0 && Qeq_bool pmax 0); [exact H|].
    unfold uniform, unit_draws in *.
    destruct (random_draws w1) as [|u rest]; cbn [snd random_draws]; [constructor|].
    apply Forall_cons in H as [_ H]. exact H. }
  assert (Hstep : forall product st w1,
             unit_draws w1 ->
             (total_promoted st + total_skipped st + total_errors st <= total_checked st ->
              total_promoted (snd (fst (process_product fromisoformat config product st w1)))
              + total_skipped (snd (fst (process_product fromisoformat config product st w1)))
              + total_errors (snd (fst (process_product fromisoformat config product st w1)))
              <= total_checked
                   (snd (fst (process_product fromisoformat config product st w1)))) /\
             unit_draws (snd (process_product fromisoformat config product st w1))).
  { intros product st w1 H.
    destruct (process_product_counters fromisoformat config product st w1 Hok Hmax H)
      as [(_ & _ & _ & Hsum) Hu1].
    pose proof (process_product_checked fromisoformat config product st w1) as Hck.
    split; [lia | exact Hu1]. }
  specialize (Hrel Hfetch Hpause (fun _ _ H => H) Hstep
                (S (length (get_items_replies w))) Locals_init w Hu).
  unfold cycle_exit. cbn beta in *.
  eexists _, _, consumed. split; [exact Heq|].
  cbn [get_items_replies print_summary print emit]. rewrite Hrep.
  split; [exact Hcons|].
  cbn [total_checked Locals_init] in Hexact.
  destruct (fst (fst (pages_loop fromisoformat (S (length (get_items_replies w)))
                        config Locals_init w))) eqn:Hexit.
  - destruct Hrel as (st' & Hst' & Hst). rewrite Hst in *.
    specialize (Hst' ltac:(cbn; lia)). cbn [total_promoted total_skipped total_errors
                                             total_checked incr_total_errors] in *.
    repeat split; try lia. intros H. congruence.
  - specialize (Hrel ltac:(cbn; lia)). repeat split; lia.
  - specialize (Hrel ltac:(cbn; lia)). repeat split; lia.
  - specialize (Hrel ltac:(cbn; lia)). repeat split; lia.
Qed.

End WholeCycle.

(** ** A page fetch that fails *)

Lemma fetch_attempts_trace config attempts :
  forall st w, exists evs,
    trace (snd (fetch_attempts config page_max_retries attempts st w)) = trace w ++ evs /\
    (attempts <> [] ->
     exists evs', evs = GetItems (cursor st) (item_status config) :: evs').
Proof.
  induction attempts as [|a attempts IH]; intros st w.
  - exists []. simpl. rewrite app_nil_r. split; [reflexivity | congruence].
  - rewrite fetch_attempts_cons.
    pose proof (get_items_trace (cursor st) (item_status config) w) as Ht.
    destruct (get_items (cursor st) (item_status config) w) as [[il|e] w1];
      cbn [snd] in *.
    + exists [GetItems (cursor st) (item_status config)]. eauto.
    + destruct (is_rate_limited e).
      * pose proof (throttled_once_trace config (rate_limiter st) w1) as Ht1.
        destruct (throttled_once config (rate_limiter st) w1) as [[rl1 wt] w3].
        cbn [snd] in Ht1. cbv zeta.
        destruct (a <? page_max_retries - 1).
        -- destruct (IH (set_rate_limiter rl1 st)
                       (waited (MPageRateLimit (a + 1) page_max_retries) wt w3))
             as (evs & He & _).
           eexists. split; [|eauto].
           rewrite He, waited_trace, Ht1, Ht. rewrite <- !app_assoc. reflexivity.
        -- eexists. split; [|eauto]. cbn [snd]. unfold print_summary, print.
           rewrite !emit_trace, Ht1, Ht. rewrite <- !app_assoc. reflexivity.
      * eexists. split; [|eauto]. cbn [snd]. unfold print_summary, print.
        rewrite !emit_trace, Ht. rewrite <- !app_assoc. reflexivity.
Qed.

(** C6: when the page fetch is throttled on each of its
    [page_max_retries] attempts, or is answered by an error that is not
    throttling, the loop is left by [return] and the cycle ends there:
    one error is counted, the other counters and the per-name counts are
    those the earlier pages left, and the last thing done is the summary
    of these. No exception is involved. *)
Theorem failed_page_fetch_ends_cycle (fromisoformat : string -> option datetime)
    (config : Config) (fuel : nat) (st : Locals) (w : World) (es : list string) :
  (exists rest,
      get_items_replies w = map Raise es ++ rest /\
      Z.of_nat (length es) = page_max_retries /\
      Forall (fun e => is_rate_limited e = true) es)
  \/ (exists e rest,
      get_items_replies w = map Raise es ++ Raise e :: rest /\
      Z.of_nat (length es) < page_max_retries /\
      Forall (fun e => is_rate_limited e = true) es /\
      is_rate_limited e = false) ->
  exists st' w' evs,
    pages_loop fromisoformat (S fuel) config st w = (ByReturn, st', w') /\
    cycle_from fromisoformat (S fuel) config st w = Some (st', w') /\
    total_errors st' = total_errors st + 1 /\
    total_checked st' = total_checked st /\
    total_promoted st' = total_promoted st /\
    total_skipped st' = total_skipped st /\
    promoted_by_name st' = promoted_by_name st /\
    trace w' = trace w ++ evs
               ++ [Print (MSummary (total_checked st) (total_promoted st))].
Proof.
  intros Hfail.
  destruct (fetch_gives_up config es st w Hfail) as (rl' & w' & evs & Heq & Ht).
  exists (incr_total_errors (set_rate_limiter rl' st)), w', evs.
  unfold cycle_from. cbn [pages_loop]. rewrite Heq. repeat split. exact Ht.
Qed.

(** C10: an error that says "Too many attempts" and neither "429" nor
    "TOO_MANY_REQUESTS" is throttling to the page fetch, which counts it,
    waits and asks again, and is no throttling to
    [promote_product_with_retry], which fails at once with that error,
    after the one call. *)
Theorem too_many_attempts_classified_differently (config : Config)
    (product : ItemProfile) (premium_priority : ItemPriorityStatus)
    (is_published : bool) (rl : RateLimiter) (max_retries : Z)
    (st : Locals) (w : World) (e : string) :
  str_in "Too many attempts" e = true ->
  str_in "429" e = false ->
  str_in "TOO_MANY_REQUESTS" e = false ->
  (forall rest,
      get_items_replies w = Raise e :: rest ->
      exists rl' wait_time w' evs,
        fetch_attempts config page_max_retries (range page_max_retries) st w
        = fetch_attempts config page_max_retries [1; 2; 3; 4]
            (set_rate_limiter rl' st) w' /\
        consecutive_errors rl' = consecutive_errors (rate_limiter st) + 1 /\
        trace w'
        = trace w ++ GetItems (cursor st) (item_status config)
                  :: waited_events (MPageRateLimit 1 page_max_retries) wait_time /\
        trace (snd (fetch_attempts config page_max_retries (range page_max_retries) st w))
        = trace w' ++ GetItems (cursor st) (item_status config) :: evs) /\
  (forall rest,
      1 <= max_retries ->
      promote_replies w = Raise e :: rest ->
      exists w',
        promote_product_with_retry config product premium_priority is_published
          rl max_retries w
        = ((false, msg_promotion_error e), rl, w') /\
        trace w' = trace w ++ [promote_event is_published product premium_priority]).
Proof.
  intros Hmark H429 Htmr. split.
  - intros rest Hrep.
    change (range page_max_retries) with (0 :: [1; 2; 3; 4]).
    rewrite fetch_attempts_cons.
    pose proof (get_items_trace (cursor st) (item_status config) w) as Ht.
    destruct (get_items_cons (cursor st) (item_status config) w _ _ Hrep) as [Hr _].
    destruct (get_items (cursor st) (item_status config) w) as [r w1].
    cbn [fst snd] in *. subst r.
    unfold is_rate_limited. rewrite Hmark, orb_true_r.
    pose proof (throttled_once_trace config (rate_limiter st) w1) as Ht1.
    pose proof (throttled_once_consecutive_errors config (rate_limiter st) w1) as Hc1.
    destruct (throttled_once config (rate_limiter st) w1) as [[rl1 wt] w3].
    cbn [fst snd] in *. cbv zeta.
    change (0 <? page_max_retries - 1) with true. cbv iota.
    change (0 + 1) with 1.
    set (w4 := waited (MPageRateLimit 1 page_max_retries) wt w3).
    destruct (fetch_attempts_trace config [1; 2; 3; 4] (set_rate_limiter rl1 st) w4)
      as (evs & He & Hfirst).
    destruct (Hfirst ltac:(discriminate)) as [evs' ->].
    exists rl1, wt, w4, evs'. repeat split.
    + exact Hc1.
    + subst w4. rewrite waited_trace, Ht1, Ht. rewrite <- app_assoc. reflexivity.
    + exact He.
  - intros rest Hn Hrep. unfold promote_product_with_retry.
    destruct (range_split 0 max_retries ltac:(lia)) as [more ->]. simpl app.
    apply (promote_attempts_other_error config product premium_priority is_published
             max_retries 0 more rl w e rest Hrep).
    unfold is_429. rewrite H429, Htmr. reflexivity.
Qed.

(** ** The claims at sample inputs *)

Lemma duplicate_limit_respected_witness :
  0 <= duplicates_limit (sample_config (Some 1)) /\
  exists st w',
    check_and_update_products sample_fromisoformat (sample_config (Some 1)) two_gems
    = Some (st, w') /\
    within_limit (duplicates_limit (sample_config (Some 1))) st.
Proof.
  assert (H : 0 <= duplicates_limit (sample_config (Some 1))) by (cbn; lia).
  split; [exact H|].
  exact (proj1 (duplicate_limit_respected sample_fromisoformat
                  (sample_config (Some 1)) two_gems H)).
Defined.

Lemma cycle_counters_witness :
  unit_draws two_gems /\
  exists st w' consumed,
    check_and_update_products sample_fromisoformat (sample_config None) two_gems
    = Some (st, w') /\
    get_items_replies two_gems = consumed ++ get_items_replies w' /\
    total_promoted st + total_skipped st + total_errors st <= total_checked st /\
    total_checked st = listings_of consumed.
Proof.
  assert (Hu : unit_draws two_gems) by constructor.
  split; [exact Hu|].
  destruct (cycle_counters sample_fromisoformat (sample_config None) two_gems 1800
              eq_refl eq_refl eq_refl Hu)
    as (st & w' & consumed & Heq & Hcons & _ & Hsum & Hck).
  exists st, w', consumed. repeat split; try assumption.
  apply Hsum. vm_compute. discriminate.
Defined.

Lemma promote_product_with_retry_budget_witness :
  1 <= 3 /\
  fst (fst (promote_product_with_retry (sample_config None) gem sample_premium true
              (limiter_after 0) 3 (throttled_promotions 3)))
  = (false, msg_retries_exhausted 3).
Proof.
  assert (H : 1 <= 3) by lia.
  split; [exact H|].
  destruct (promote_product_with_retry_budget (sample_config None) gem sample_premium
              true 3 (limiter_after 0) (throttled_promotions 3) H) as (_ & Hall & _).
  apply (Hall (repeat "HTTP 429 TOO_MANY_REQUESTS" 3) []).
  - reflexivity.
  - reflexivity.
  - repeat constructor.
Defined.

Lemma promote_product_with_retry_returns_in_loop_witness :
  1 <= 3 /\
  fst (fst (promote_product_with_retry (sample_config None) gem sample_premium true
              (limiter_after 0) 3 (throttled_promotions 1)))
  <> (false, msg_unknown_error).
Proof.
  assert (H : 1 <= 3) by lia.
  split; [exact H|].
  exact (proj2 (promote_product_with_retry_returns_in_loop (sample_config None) gem
                  sample_premium true (limiter_after 0) 3 (throttled_promotions 1) H)).
Defined.

Lemma failed_page_fetch_ends_cycle_witness :
  exists st' w' evs,
    pages_loop sample_fromisoformat 1 (sample_config None) Locals_init (throttled_pages 5)
    = (ByReturn, st', w') /\
    cycle_from sample_fromisoformat 1 (sample_config None) Locals_init (throttled_pages 5)
    = Some (st', w') /\
    total_errors st' = total_errors Locals_init + 1 /\
    total_checked st' = total_checked Locals_init /\
    total_promoted st' = total_promoted Locals_init /\
    total_skipped st' = total_skipped Locals_init /\
    promoted_by_name st' = promoted_by_name Locals_init /\
    trace w' = trace (throttled_pages 5) ++ evs
               ++ [Print (MSummary (total_checked Locals_init)
                            (total_promoted Locals_init))].
Proof.
  apply (failed_page_fetch_ends_cycle sample_fromisoformat (sample_config None) 0
           Locals_init (throttled_pages 5) (repeat "429 Too Many Requests" 5)).
  left. exists []. split; [reflexivity|]. split; [reflexivity|]. repeat constructor.
Defined.

Lemma process_product_date_and_age_witness :
  name_filter (sample_config None)
    (_normalize_name (Some (default "" (item_name (sample_product "Gem x100" "soon")))))
  = None /\
  fst (fst (process_product sample_fromisoformat (sample_config None)
              (sample_product "Gem x100" "soon") Locals_init (world_of [] [] [] [])))
  = SkipInvalidDate.
Proof.
  assert (H : name_filter (sample_config None)
                (_normalize_name
                   (Some (default "" (item_name (sample_product "Gem x100" "soon")))))
              = None) by reflexivity.
  split; [exact H|].
  destruct (process_product_date_and_age sample_fromisoformat (sample_config None)
              (sample_product "Gem x100" "soon") Locals_init (world_of [] [] [] []) H)
    as [Hdate _].
  apply Hdate. reflexivity.
Defined.

Lemma too_many_attempts_classified_differently_witness :
  str_in "Too many attempts" too_many_attempts = true /\
  exists w',
    promote_product_with_retry (sample_config None) gem sample_premium true
      (limiter_after 0) 3 (world_of [] [] [Raise too_many_attempts] [])
    = ((false, msg_promotion_error too_many_attempts), limiter_after 0, w') /\
    trace w'
    = trace (world_of [] [] [Raise too_many_attempts] [])
      ++ [promote_event true gem sample_premium].
Proof.
  assert (H : str_in "Too many attempts" too_many_attempts = true) by reflexivity.
  split; [exact H|].
  destruct (too_many_attempts_classified_differently (sample_config None) gem
              sample_premium true (limiter_after 0) 3 Locals_init
              (world_of [] [] [Raise too_many_attempts] []) too_many_attempts
              H eq_refl eq_refl) as [_ Hpromote].
  apply (Hpromote []); [lia | reflexivity].
Defined.

(** C4, as stated, fails: when the first page fetch is answered by an
    error, the cycle ends with one error counted and no listing checked. *)
Lemma failed_first_fetch_counts_error :
  counters_of
    (check_and_update_products sample_fromisoformat (sample_config None)
       (world_of [Raise "500 Internal Server Error"] [] [] []))
  = Some (0, 0, 0, 1) /\
  0 < 0 + 0 + 1.
Proof. split; [vm_compute; reflexivity | lia]. Qed.

(** C5 at a failing input: a pause between pages of [1e10] seconds, which
    [_validate_config] accepts, and a first page that another follows. The
    [time.sleep] of the pause raises outside every inner [try]; the
    exception is caught at the boundary of the cycle and printed, and the
    summary follows, but no error is counted: the counters are 1 checked,
    0 promoted, 0 skipped and 0 errors. *)
Theorem cycle_boundary_exception_not_counted :
  pages_bounds_refused
    (_delay_between_pages_bounds (config_with_delays (12 # 10) unsleepable)) = false /\
  counters_of
    (check_and_update_products sample_fromisoformat
       (config_with_delays (12 # 10) unsleepable)
       (world_of [Ok (Some (first_page [gem]))] [] [] [ten_minutes_later]))
  = Some (1, 0, 0, 0) /\
  trace_of
    (check_and_update_products sample_fromisoformat
       (config_with_delays (12 # 10) unsleepable)
       (world_of [Ok (Some (first_page [gem]))] [] [] [ten_minutes_later]))
  = Some [GetItems None "APPROVED";
          Print (MTooYoung "Gem x100" 20);
          Print (MCycleError "timestamp too large to convert to C _PyTime_t");
          Print (MSummary 1 0)].
Proof. repeat split; vm_compute; reflexivity. Qed.

(** ** The scenarios of the specification *)

(** Scenario A: approved ten minutes ago, threshold thirty minutes. *)
Example scenario_too_young :
  counters_of
    (check_and_update_products sample_fromisoformat (sample_config None)
       (world_of [Ok (Some (last_page [gem]))] [] [] [ten_minutes_later]))
  = Some (1, 0, 0, 0) /\
  trace_of
    (check_and_update_products sample_fromisoformat (sample_config None)
       (world_of [Ok (Some (last_page [gem]))] [] [] [ten_minutes_later]))
  = Some [GetItems None "APPROVED"; Print (MTooYoung "Gem x100" 20); Print (MSummary 1 0)].
Proof. split; vm_compute; reflexivity. Qed.

(** Scenario B: the name is on the exclude list, whatever the age. *)
Example scenario_excluded :
  counters_of
    (check_and_update_products sample_fromisoformat
       {| item_status := "APPROVED";
          verbose := true;
          filters_include_names := [];
          filters_exclude_names := ["boost pack"];
          filters_duplicates_limit := None;
          intervals_promo_threshold := Some (YNumber 30);
          _delay_between_promos_bounds := (12 # 10, 35 # 10);
          _delay_between_pages_bounds := (0 # 1, 0 # 1) |}
       (world_of [Ok (Some (last_page [sample_product " Boost Pack" sample_date]))]
          [] [] [two_hours_later]))
  = Some (1, 0, 1, 0).
Proof. vm_compute. reflexivity. Qed.

(** Scenario C: limit 1, two listings of one name. *)
Example scenario_duplicate_limit :
  counters_of
    (check_and_update_products sample_fromisoformat (sample_config (Some 1)) two_gems)
  = Some (2, 1, 1, 0).
Proof. vm_compute. reflexivity. Qed.

(** Scenario D: throttled twice, accepted at the third attempt. *)
Example scenario_third_attempt :
  fst (promote_product_with_retry (sample_config None) gem sample_premium true
         (limiter_after 0) 3
         (world_of [] [] [Raise "429"; Raise "TOO_MANY_REQUESTS"; Ok tt] []))
  = ((true, msg_promoted "Premium"), limiter_after 0).
Proof. vm_compute. reflexivity. Qed.

(** Scenario E: the second page is throttled five times. *)
Example scenario_page_budget :
  counters_of
    (check_and_update_products sample_fromisoformat (sample_config None)
       (world_of
          (Ok (Some {| items := [gem];
                       page_info := {| has_next_page := true;
                                       end_cursor := Some "cursor-1" |} |})
           :: repeat (Raise "429 Too Many Requests") 5)
          [Ok [sample_premium]] [Ok tt] [two_hours_later]))
  = Some (1, 1, 0, 1).
Proof. vm_compute. reflexivity. Qed.

(** A delay between promotions of [1e10] seconds, which
    [_validate_config] accepts: the promotion is counted, its line is
    printed, and the [time.sleep] that follows raises inside the [try] of
    the listing, which counts an error for the same listing. *)
Example scenario_refused_sleep :
  promos_bounds_refused
    (_delay_between_promos_bounds (config_with_delays unsleepable 0)) = false /\
  counters_of
    (check_and_update_products sample_fromisoformat (config_with_delays unsleepable 0)
       (world_of [Ok (Some (last_page [gem]))] [Ok [sample_premium]] [Ok tt]
          [two_hours_later]))
  = Some (1, 1, 0, 1).
Proof. split; vm_compute; reflexivity. Qed.

(** * Further properties *)

(** ** The name lists of the configuration *)

Lemma lower_empty (s : string) : lower s = "" -> s = "".
Proof. destruct s; [reflexivity | discriminate]. Qed.

Lemma names_of_member (raw : list string) (n : string) :
  n ∈ names_of raw <->
  exists x, x ∈ raw /\ strip x <> "" /\ n = _normalize_name (Some x).
Proof.
  unfold names_of. rewrite elem_of_list_to_set, list_elem_of_In, in_map_iff. split.
  - intros (x & <- & Hx). apply list_elem_of_In, list_elem_of_filter in Hx as [Hne Hx].
    exists x. auto.
  - intros (x & Hx & Hne & ->). exists x. split; [reflexivity|].
    apply list_elem_of_In, list_elem_of_filter. auto.
Qed.

Lemma names_of_no_blank (raw : list string) : "" ∉ names_of raw.
Proof.
  rewrite names_of_member. intros (x & _ & Hne & Heq).
  unfold _normalize_name in Heq. simpl in Heq.
  symmetry in Heq. apply lower_empty in Heq. contradiction.
Qed.

(** X3: a listing without a name, or with a blank one, is rejected by
    every include list that has an entry, and by no exclude list. *)
Theorem name_filter_blank (config : Config) (name : option string) :
  strip (default "" name) = "" ->
  name_filter config (_normalize_name (Some (default "" name)))
  = if bool_decide (include_names config ≠ ∅) then Some MSkipInclude else None.
Proof.
  intros Hblank. unfold name_filter.
  change (_normalize_name (Some (default "" name))) with (lower (strip (default "" name))).
  rewrite Hblank. cbn [lower].
  pose proof (names_of_no_blank (filters_include_names config)) as Hi.
  pose proof (names_of_no_blank (filters_exclude_names config)) as He.
  fold (include_names config) in Hi. fold (exclude_names config) in He.
  rewrite (bool_decide_eq_true_2 _ Hi), (bool_decide_eq_false_2 _ He), andb_false_r.
  reflexivity.
Qed.

Lemma name_filter_blank_witness :
  strip (default "" (Some "   ")) = "" /\
  name_filter (sample_config None) (_normalize_name (Some (default "" (Some "   "))))
  = if bool_decide (include_names (sample_config None) ≠ ∅)
    then Some MSkipInclude else None.
Proof.
  assert (H : strip (default "" (Some "   ")) = "") by reflexivity.
  split; [exact H|].
  exact (name_filter_blank (sample_config None) (Some "   ") H).
Defined.

Lemma promote_step_not_filter config product norm_name st w :
  fst (fst (promote_step config product norm_name st w)) <> SkipFilter.
Proof. unfold promote_step. repeat branch; cbn [fst]; discriminate. Qed.

Lemma process_product_skip_filter_iff (fromisoformat : string -> option datetime)
    (config : Config) (product : ItemProfile) (st : Locals) (w : World) :
  fst (fst (process_product fromisoformat config product st w)) = SkipFilter <->
  name_filter config (_normalize_name (Some (default "" (item_name product)))) <> None.
Proof.
  unfold process_product.
  destruct (name_filter config _) as [m|] eqn:Hf; [split; [congruence | reflexivity]|].
  split; [|congruence]. intros H. exfalso. revert H.
  repeat branch; cbn [fst]; try discriminate; apply promote_step_not_filter.
Qed.

(** X4: a listing is decided [SkipFilter] exactly when the name filter
    rejects it: with an include list that has an entry, when its name is
    not on that list, whatever the exclude list holds; with none, when its
    name is on the exclude list. It is then counted as skipped, and that
    is all: the clock is not read, nothing is asked of the marketplace and
    nothing but the line that says so is printed. *)
Theorem process_product_filtered (fromisoformat : string -> option datetime)
    (config : Config) (product : ItemProfile) (st : Locals) (w : World) :
  (fst (fst (process_product fromisoformat config product st w)) = SkipFilter <->
   if bool_decide (include_names config ≠ ∅)
   then _normalize_name (Some (default "" (item_name product))) ∉ include_names config
   else _normalize_name (Some (default "" (item_name product))) ∈ exclude_names config) /\
  (fst (fst (process_product fromisoformat config product st w)) = SkipFilter ->
   snd (fst (process_product fromisoformat config product st w))
   = incr_total_skipped (incr_total_checked st) /\
   clock_readings (snd (process_product fromisoformat config product st w))
   = clock_readings w /\
   exists line,
     trace (snd (process_product fromisoformat config product st w))
     = trace w ++ (if verbose config then [Print line] else [])).
Proof.
  rewrite process_product_skip_filter_iff. split.
  - unfold name_filter.
    repeat case_bool_decide; cbn [andb]; split; intros; try congruence; try tauto;
      exfalso;
      match goal with
      | Hn : _ ∈ ?X, Hx : ?X = ∅ |- _ =>
          rewrite Hx in Hn; exact (not_elem_of_empty _ Hn)
      end.
  - intros Hf. unfold process_product.
    destruct (name_filter config _) as [m|]; [|congruence].
    cbn [fst snd]. split; [reflexivity|]. unfold say.
    split; [destruct (verbose config); reflexivity|].
    exists (m (default "" (item_name product))).
    destruct (verbose config); cbn; rewrite ?app_nil_r; reflexivity.
Qed.

(** ** The waits of [RateLimiter] *)

(** X5: below five consecutive errors the cap of 120 seconds plays no
    part, the throttled wait being [5 * 2^n + jitter], at most 90 seconds;
    from five consecutive errors on the wait is 120 seconds whatever the
    jitter. *)
Theorem calculate_wait_time_429_table (config : Config) (self : RateLimiter) (w : World) :
  0 <= consecutive_errors self ->
  (consecutive_errors self <= 4 ->
   fst (calculate_wait_time config self throttled w)
   = inject_Z (5 * 2 ^ consecutive_errors self + fst (randint 0 10 w)) /\
   Qle (fst (calculate_wait_time config self throttled w)) (inject_Z 90)) /\
  (5 <= consecutive_errors self ->
   fst (calculate_wait_time config self throttled w) = inject_Z 120).
Proof.
  intros Hn. rewrite calculate_wait_time_429. cbn [fst]. unfold backoff.
  pose proof (randint_range 0 10 w ltac:(lia)) as Hj.
  split.
  - intros H4.
    assert (2 ^ consecutive_errors self <= 2 ^ 4) by (apply Z.pow_le_mono_r; lia).
    assert (0 < 2 ^ consecutive_errors self) by (apply Z.pow_pos_nonneg; lia).
    change (2 ^ 4) with 16 in *.
    rewrite (Z.min_l (consecutive_errors self) 5) by lia.
    rewrite Z.min_l by lia. split.
    + reflexivity.
    + rewrite <- Zle_Qle. lia.
  - intros H5. rewrite (Z.min_r _ 5) by lia. change (2 ^ 5) with 32. f_equal. lia.
Qed.

Lemma calculate_wait_time_429_table_witness :
  0 <= consecutive_errors (limiter_after 7) /\
  fst (calculate_wait_time (sample_config None) (limiter_after 7) throttled
         (world_drawing 3))
  = inject_Z 120.
Proof.
  assert (H : 0 <= consecutive_errors (limiter_after 7)) by (cbn; lia).
  split; [exact H|].
  apply (calculate_wait_time_429_table (sample_config None) (limiter_after 7)
           (world_drawing 3) H).
  cbn. lia.
Defined.

(** X6: both retry loops count a throttled reply with [on_error] before
    they ask [calculate_wait_time(429)] for the wait: that wait is at
    least 10 and at most 120 seconds. *)
Theorem throttled_wait_bounds (config : Config) (self : RateLimiter) (w : World) :
  0 <= consecutive_errors self ->
  Qle (inject_Z 10)
      (fst (calculate_wait_time config (fst (on_error self w)) throttled
              (snd (on_error self w)))) /\
  Qle (fst (calculate_wait_time config (fst (on_error self w)) throttled
              (snd (on_error self w))))
      (inject_Z 120).
Proof.
  intros Hn. rewrite calculate_wait_time_429. cbn [fst].
  rewrite on_error_consecutive_errors.
  pose proof (randint_range 0 10 (snd (on_error self w)) ltac:(lia)) as Hj.
  rewrite <- !Zle_Qle. unfold backoff.
  assert (2 ^ 1 <= 2 ^ Z.min (consecutive_errors self + 1) 5)
    by (apply Z.pow_le_mono_r; lia).
  change (2 ^ 1) with 2 in *. lia.
Qed.

Lemma throttled_wait_bounds_witness :
  0 <= consecutive_errors (limiter_after 0) /\
  Qle (inject_Z 10)
      (fst (calculate_wait_time (sample_config None)
              (fst (on_error (limiter_after 0) (world_drawing 0))) throttled
              (snd (on_error (limiter_after 0) (world_drawing 0))))).
Proof.
  assert (H : 0 <= consecutive_errors (limiter_after 0)) by (cbn; lia).
  split; [exact H|].
  exact (proj1 (throttled_wait_bounds (sample_config None) (limiter_after 0)
                  (world_drawing 0) H)).
Defined.

(** X7: asked with any error code but 429, or with none,
    [calculate_wait_time] returns a delay drawn from the range that
    [_validate_config] has accepted: it lies between [dmin] and [dmax] and
    is positive. *)
Theorem calculate_wait_time_between_promos (config : Config) (self : RateLimiter)
    (error_code : option Z) (w : World) :
  error_code <> Some 429 ->
  promos_bounds_refused (_delay_between_promos_bounds config) = false ->
  unit_draws w ->
  Qle (fst (_delay_between_promos_bounds config))
      (fst (calculate_wait_time config self error_code w)) /\
  Qle (fst (calculate_wait_time config self error_code w))
      (snd (_delay_between_promos_bounds config)) /\
  Qlt 0 (fst (calculate_wait_time config self error_code w)) /\
  unit_draws (snd (calculate_wait_time config self error_code w)).
Proof.
  intros Hcode Hok Hu. unfold calculate_wait_time, random_delay_between_promos_sec.
  rewrite bool_decide_eq_false_2 by exact Hcode.
  destruct (_delay_between_promos_bounds config) as [dmin dmax].
  destruct (promos_bounds_accepted dmin dmax Hok) as [Hpos Hle].
  destruct (uniform_between dmin dmax w Hle Hu) as [[H1 H2] H3].
  cbn [fst snd]. repeat split; try assumption. lra.
Qed.

Lemma calculate_wait_time_between_promos_witness :
  None <> Some 429 /\
  Qlt 0 (fst (calculate_wait_time (sample_config None) (limiter_after 0) None
                (world_of [] [] [] []))).
Proof.
  assert (H : (None : option Z) <> Some 429) by discriminate.
  split; [exact H|].
  apply (calculate_wait_time_between_promos (sample_config None) (limiter_after 0)
           None (world_of [] [] [] []) H).
  - reflexivity.
  - constructor.
Defined.

Lemma pages_bounds_accepted (pmin pmax : Q) :
  pages_bounds_refused (pmin, pmax) = false -> (0 <= pmin /\ pmin <= pmax)%Q.
Proof.
  unfold pages_bounds_refused. intros H.
  apply orb_false_elim in H as [H Hle]. apply orb_false_elim in H as [Hmin _].
  apply negb_false_iff, Qle_bool_iff in Hle, Hmin. auto.
Qed.

(** X8: the pause between two pages lies in the range that
    [_validate_config] has accepted. When both bounds are 0 it is 0 and
    nothing is drawn; in every other case, equal bounds included, it is
    drawn. *)
Theorem random_delay_between_pages_sec_range (config : Config) (w : World) :
  pages_bounds_refused (_delay_between_pages_bounds config) = false ->
  unit_draws w ->
  Qle (fst (_delay_between_pages_bounds config))
      (fst (random_delay_between_pages_sec config w)) /\
  Qle (fst (random_delay_between_pages_sec config w))
      (snd (_delay_between_pages_bounds config)) /\
  (Qeq (fst (_delay_between_pages_bounds config)) 0 ->
   Qeq (snd (_delay_between_pages_bounds config)) 0 ->
   random_delay_between_pages_sec config w = (0%Q, w)) /\
  (~ (Qeq (fst (_delay_between_pages_bounds config)) 0 /\
      Qeq (snd (_delay_between_pages_bounds config)) 0) ->
   random_delay_between_pages_sec config w
   = uniform (fst (_delay_between_pages_bounds config))
       (snd (_delay_between_pages_bounds config)) w).
Proof.
  intros Hok Hu. unfold random_delay_between_pages_sec.
  destruct (_delay_between_pages_bounds config) as [pmin pmax].
  destruct (pages_bounds_accepted pmin pmax Hok) as [Hpos Hle].
  destruct (uniform_between pmin pmax w Hle Hu) as [[H1 H2] _].
  cbn [fst snd].
  destruct (Qeq_bool pmin 0) eqn:Emin; destruct (Qeq_bool pmax 0) eqn:Emax;
    cbn [andb fst snd];
    rewrite ?Qeq_bool_iff in *;
    repeat split; try assumption; try reflexivity; try lra; try tauto;
    try (intros Ha Hb; apply Qeq_bool_iff in Ha, Hb; congruence).
Qed.

Lemma random_delay_between_pages_sec_range_witness :
  pages_bounds_refused (_delay_between_pages_bounds (sample_config None)) = false /\
  Qle (fst (random_delay_between_pages_sec (sample_config None) (world_of [] [] [] [])))
      (snd (_delay_between_pages_bounds (sample_config None))).
Proof.
  assert (H : pages_bounds_refused (_delay_between_pages_bounds (sample_config None))
              = false) by reflexivity.
  split; [exact H|].
  apply (random_delay_between_pages_sec_range (sample_config None)
           (world_of [] [] [] []) H).
  constructor.
Defined.

(** ** The progress bar of a wait *)

Lemma range_down_by_5_sleeps (fuel : nat) :
  forall n,
    (Z.to_nat n <= fuel)%nat ->
    fold_right Z.add 0 (map (Z.min 5) (range_down_by_5 fuel n)) = Z.max 0 n /\
    Forall (fun r => 1 <= Z.min 5 r <= 5) (range_down_by_5 fuel n) /\
    Z.of_nat (length (range_down_by_5 fuel n)) = (Z.max 0 n + 4) / 5.
Proof.
  induction fuel as [|fuel IH]; intros n Hn.
  - simpl. repeat split; [lia | constructor |].
    replace (Z.max 0 n) with 0 by lia. reflexivity.
  - simpl. destruct (0 <? n) eqn:E.
    + apply Z.ltb_lt in E.
      destruct (IH (n - 5) ltac:(lia)) as (Hs & Hf & Hl).
      cbn [map fold_right length]. rewrite Hs. repeat split.
      * lia.
      * constructor; [lia | exact Hf].
      * rewrite Nat2Z.inj_succ, Hl. Z.div_mod_to_equations. lia.
    + apply Z.ltb_ge in E. simpl. repeat split; [lia | constructor |].
      replace (Z.max 0 n) with 0 by lia. reflexivity.
Qed.

Lemma countdown_events_sleeps (steps : list Z) :
  sleeps (flat_map
            (fun remaining =>
               [Print (MRemaining (remaining / 60) (remaining mod 60));
                Sleep (inject_Z (Z.min 5 remaining))]) steps
          ++ [Print MNewline])
  = map (fun remaining => inject_Z (Z.min 5 remaining)) steps.
Proof. induction steps as [|r steps IH]; simpl; [|rewrite IH]; reflexivity. Qed.

Lemma countdown_events_slept (steps : list Z) :
  Qeq (slept (flat_map
                (fun remaining =>
                   [Print (MRemaining (remaining / 60) (remaining mod 60));
                    Sleep (inject_Z (Z.min 5 remaining))]) steps
              ++ [Print MNewline]))
      (inject_Z (fold_right Z.add 0 (map (Z.min 5) steps))).
Proof.
  induction steps as [|r steps IH]; simpl; [reflexivity|].
  rewrite IH, inject_Z_plus. reflexivity.
Qed.

(** X9: the progress bar of a wait of [n] whole seconds prints and
    sleeps in turn, [ceil(n / 5)] times; each sleep lasts between 1 and 5
    seconds and together they last [n] seconds, or nothing when [n] is not
    positive. *)
Theorem countdown_sleeps (n : Z) (w : World) :
  trace (countdown n w) = trace w ++ countdown_events n /\
  Qeq (slept (countdown_events n)) (inject_Z (Z.max 0 n)) /\
  Forall (fun seconds => Qle (inject_Z 1) seconds /\ Qle seconds (inject_Z 5))
         (sleeps (countdown_events n)) /\
  Z.of_nat (length (sleeps (countdown_events n))) = (Z.max 0 n + 4) / 5.
Proof.
  split; [apply countdown_trace|].
  destruct (range_down_by_5_sleeps (Z.to_nat n) n ltac:(lia)) as (Hs & Hf & Hl).
  unfold countdown_events.
  rewrite countdown_events_slept, countdown_events_sleeps, length_map, Hs.
  split; [reflexivity|]. split; [|exact Hl].
  apply Forall_map. eapply Forall_impl; [exact Hf|].
  intros r Hr. cbn beta. rewrite <- !Zle_Qle. exact Hr.
Qed.

(** ** What the retry loops leave in the rate limiter *)

(** X10: [promote_product_with_retry] leaves the limiter reset when the
    promotion is accepted, however many throttled replies came before;
    when it gives up it leaves every throttled reply counted: all
    [max_retries] of them after an exhausted budget, those met before it
    when another error ends the loop. The count so left weighs on the next
    backoff of the cycle. *)
Theorem promote_product_with_retry_limiter (config : Config) (product : ItemProfile)
    (premium_priority : ItemPriorityStatus) (is_published : bool) (rl : RateLimiter)
    (max_retries : Z) (w : World) (es : list string) :
  Z.of_nat (length es) < max_retries ->
  Forall (fun e => is_429 e = true) es ->
  (forall rest,
      promote_replies w = map Raise es ++ Ok tt :: rest ->
      fst (promote_product_with_retry config product premium_priority is_published
             rl max_retries w)
      = ((true, msg_promoted (priority_name premium_priority)), RateLimiter_init) /\
      exists evs,
        trace (snd (promote_product_with_retry config product premium_priority
                      is_published rl max_retries w))
        = trace w ++ evs /\
        promote_calls evs = S (length es)) /\
  (forall e rest,
      promote_replies w = map Raise es ++ Raise e :: rest ->
      is_429 e = false ->
      consecutive_errors
        (snd (fst (promote_product_with_retry config product premium_priority
                     is_published rl max_retries w)))
      = consecutive_errors rl + Z.of_nat (length es)) /\
  (forall e rest,
      promote_replies w = map Raise es ++ Raise e :: rest ->
      is_429 e = true ->
      Z.of_nat (length es) = max_retries - 1 ->
      fst (fst (promote_product_with_retry config product premium_priority
                  is_published rl max_retries w))
      = (false, msg_retries_exhausted max_retries) /\
      consecutive_errors
        (snd (fst (promote_product_with_retry config product premium_priority
                     is_published rl max_retries w)))
      = consecutive_errors rl + max_retries).
Proof.
  intros Hlen Hes.
  assert (Hc : promote_calls [promote_event is_published product premium_priority] = 1%nat)
    by (unfold promote_event; destruct is_published; reflexivity).
  repeat apply conj.
  - intros rest Hrep.
    destruct (promote_after_throttles config product premium_priority is_published
                max_retries es rl w _ Hrep Hlen Hes)
      as (rl' & w' & evs & more & Heq & Hrep' & Ht' & Hcalls & _).
    rewrite Heq, promote_attempts_cons.
    pose proof (promote_call_trace
                  (promote_event is_published product premium_priority) w') as Ht.
    destruct (promote_call_cons (promote_event is_published product premium_priority)
                w' _ _ Hrep') as [Hr _].
    destruct (promote_call _ w') as [r w1]. cbn [fst snd] in *. subst r.
    cbn [fst snd].
    split; [reflexivity|].
    exists (evs ++ [promote_event is_published product premium_priority]).
    rewrite Ht, Ht', app_assoc. split; [reflexivity|].
    rewrite promote_calls_app, Hc, Hcalls. lia.
  - intros e rest Hrep He.
    destruct (promote_after_throttles config product premium_priority is_published
                max_retries es rl w _ Hrep Hlen Hes)
      as (rl' & w' & evs & more & Heq & Hrep' & _ & _ & Hce).
    destruct (promote_attempts_other_error config product premium_priority is_published
                max_retries (Z.of_nat (length es)) more rl' w' e rest Hrep' He)
      as (w2 & Heq2 & _).
    rewrite Heq, Heq2. exact Hce.
  - intros e rest Hrep He Hlast.
    destruct (promote_after_throttles config product premium_priority is_published
                max_retries es rl w _ Hrep Hlen Hes)
      as (rl' & w' & evs & more & Heq & Hrep' & _ & _ & Hce).
    rewrite Heq, Hlast, promote_attempts_cons.
    destruct (promote_call_cons (promote_event is_published product premium_priority)
                w' _ _ Hrep') as [Hr _].
    destruct (promote_call _ w') as [r w1]. cbn [fst snd] in *. subst r.
    rewrite He.
    pose proof (throttled_once_consecutive_errors config rl' w1) as Hc1.
    destruct (throttled_once config rl' w1) as [[rl1 wt] w3]. cbn [fst snd] in Hc1.
    rewrite Z.ltb_irrefl. cbn [fst snd]. split; [reflexivity | lia].
Qed.

Lemma promote_product_with_retry_limiter_witness :
  Z.of_nat (length ["429"; "TOO_MANY_REQUESTS"]) < 3 /\
  fst (promote_product_with_retry (sample_config None) gem sample_premium true
         (limiter_after 4) 3
         (world_of [] [] [Raise "429"; Raise "TOO_MANY_REQUESTS"; Ok tt] []))
  = ((true, msg_promoted (priority_name sample_premium)), RateLimiter_init).
Proof.
  assert (H : Z.of_nat (length ["429"; "TOO_MANY_REQUESTS"]) < 3) by (cbn; lia).
  split; [exact H|].
  destruct (promote_product_with_retry_limiter (sample_config None) gem sample_premium
              true (limiter_after 4) 3
              (world_of [] [] [Raise "429"; Raise "TOO_MANY_REQUESTS"; Ok tt] [])
              ["429"; "TOO_MANY_REQUESTS"] H ltac:(repeat constructor)) as [Hok _].
  exact (proj1 (Hok [] eq_refl)).
Defined.

Lemma fetch_attempts_page_arrives (config : Config) (st : Locals) (w : World)
    (es : list string) (item_list : option ItemProfileList)
    (rest : list (result (option ItemProfileList))) :
  get_items_replies w = map Raise es ++ Ok item_list :: rest ->
  Z.of_nat (length es) < page_max_retries ->
  Forall (fun e => is_rate_limited e = true) es ->
  exists w',
    fetch_attempts config page_max_retries (range page_max_retries) st w
    = (Fetched item_list, set_rate_limiter RateLimiter_init st, w') /\
    get_items_replies w' = rest.
Proof.
  intros Hrep Hlen Hes.
  destruct (fetch_after_throttles config es st w _ Hrep Hlen Hes)
    as (rl' & w' & evs & more & Heq & Hrep' & _).
  rewrite Heq, fetch_attempts_cons.
  destruct (get_items_cons (cursor (set_rate_limiter rl' st)) (item_status config)
              w' _ _ Hrep') as [Hr Hrest].
  destruct (get_items _ _ w') as [r w1]. cbn [fst snd] in *. subst r.
  exists w1. split; [reflexivity | exact Hrest].
Qed.

(** X11: a page that arrives, at the first attempt or after throttled
    ones, leaves the limiter reset and every counter as it was; the
    replies before it are the only ones taken. *)
Theorem fetch_success_resets_limiter (config : Config) (st : Locals) (w : World)
    (es : list string) (item_list : option ItemProfileList)
    (rest : list (result (option ItemProfileList))) :
  get_items_replies w = map Raise es ++ Ok item_list :: rest ->
  Z.of_nat (length es) < page_max_retries ->
  Forall (fun e => is_rate_limited e = true) es ->
  exists w',
    fetch_attempts config page_max_retries (range page_max_retries) st w
    = (Fetched item_list, set_rate_limiter RateLimiter_init st, w') /\
    get_items_replies w' = rest.
Proof.
  intros Hrep Hlen Hes.
  destruct (fetch_after_throttles config es st w _ Hrep Hlen Hes)
    as (rl' & w' & evs & more & Heq & Hrep' & _).
  rewrite Heq, fetch_attempts_cons.
  destruct (get_items_cons (cursor (set_rate_limiter rl' st)) (item_status config)
              w' _ _ Hrep') as [Hr Hrest].
  destruct (get_items _ _ w') as [r w1]. cbn [fst snd] in *. subst r.
  exists w1. split; [reflexivity | exact Hrest].
Qed.

Lemma fetch_success_resets_limiter_witness :
  exists w',
    fetch_attempts (sample_config None) page_max_retries (range page_max_retries)
      Locals_init
      (world_of [Raise "429"; Ok (Some (last_page [gem]))] [] [] [])
    = (Fetched (Some (last_page [gem])), set_rate_limiter RateLimiter_init Locals_init, w') /\
    get_items_replies w' = [].
Proof.
  apply (fetch_success_resets_limiter (sample_config None) Locals_init
           (world_of [Raise "429"; Ok (Some (last_page [gem]))] [] [] [])
           ["429"] (Some (last_page [gem])) []).
  - reflexivity.
  - unfold page_max_retries. cbn. lia.
  - repeat constructor.
Defined.

(** X12: when [get_items] returns [None] instead of a page, at the first
    attempt or after throttled ones, the cycle ends there as on a failed
    fetch: one error is counted, the limiter is left reset, and the last
    two lines printed are the complaint and the summary. *)
Theorem none_page_ends_cycle (fromisoformat : string -> option datetime)
    (config : Config) (fuel : nat) (st : Locals) (w : World) (es : list string)
    (rest : list (result (option ItemProfileList))) :
  get_items_replies w = map Raise es ++ Ok None :: rest ->
  Z.of_nat (length es) < page_max_retries ->
  Forall (fun e => is_rate_limited e = true) es ->
  exists w0,
    cycle_from fromisoformat (S fuel) config st w
    = Some (incr_total_errors (set_rate_limiter RateLimiter_init st),
            print_summary st (print MNoPageData w0)) /\
    get_items_replies w0 = rest.
Proof.
  intros Hrep Hlen Hes.
  destruct (fetch_attempts_page_arrives config st w es None rest Hrep Hlen Hes)
    as (w' & Heq & Hrest).
  exists w'. unfold cycle_from. cbn [pages_loop]. rewrite Heq. split; [reflexivity | exact Hrest].
Qed.

Lemma none_page_ends_cycle_witness :
  exists w0,
    cycle_from sample_fromisoformat 1 (sample_config None) Locals_init
      (world_of [Raise "429"; Ok None] [] [] [])
    = Some (incr_total_errors (set_rate_limiter RateLimiter_init Locals_init),
            print_summary Locals_init (print MNoPageData w0)) /\
    get_items_replies w0 = [].
Proof.
  apply (none_page_ends_cycle sample_fromisoformat (sample_config None) 0 Locals_init
           (world_of [Raise "429"; Ok None] [] [] []) ["429"] []).
  - reflexivity.
  - unfold page_max_retries. cbn. lia.
  - repeat constructor.
Defined.

(** ** How a refused promotion is counted *)

Lemma str_in_msg_promotion_error (e : string) :
  str_in "Пропуск товара" (msg_promotion_error e) = str_in "Пропуск товара" e.
Proof. unfold msg_promotion_error. vm_compute. reflexivity. Qed.

Lemma get_item_priority_statuses_cons item price (w : World) r rest :
  priority_replies w = r :: rest ->
  exists w',
    get_item_priority_statuses item price w = (r, w') /\
    promote_replies w' = promote_replies w /\
    trace w' = trace w ++ [GetItemPriorityStatuses item price].
Proof.
  intros Hrep. unfold get_item_priority_statuses. cbn. rewrite Hrep. cbn.
  eexists. split; [reflexivity|]. split; reflexivity.
Qed.

(** X13: a promotion refused with an error that is no throttling is
    counted by what the text of the error says: as skipped when the text
    holds the words of the exhausted-budget message, as an error
    otherwise. The limiter and the other counters are left alone, and the
    listing costs the two remote calls and the line of the failure. *)
Theorem promotion_failure_classified (config : Config) (product : ItemProfile)
    (norm_name : string) (st : Locals) (w : World)
    (priority_statuses : list ItemPriorityStatus)
    (premium_priority : ItemPriorityStatus) (e : string)
    (offers : list (result (list ItemPriorityStatus)))
    (replies : list (result unit)) :
  priority_replies w = Ok priority_statuses :: offers ->
  List.find is_premium priority_statuses = Some premium_priority ->
  promote_replies w = Raise e :: replies ->
  is_429 e = false ->
  snd (fst (promote_step config product norm_name st w))
  = (if str_in "Пропуск товара" e then incr_total_skipped st else incr_total_errors st) /\
  trace (snd (promote_step config product norm_name st w))
  = trace w ++ [GetItemPriorityStatuses (item_id product) (item_price product);
                promote_event (bool_decide (item_status config = "APPROVED"))
                  product premium_priority;
                Print (MFailure (msg_promotion_error e))].
Proof.
  intros Hoffers Hfind Hrep He.
  destruct (get_item_priority_statuses_cons (item_id product) (item_price product)
              w _ _ Hoffers) as (w1 & Hlook & Hrep1 & Ht1).
  unfold promote_step. rewrite Hlook, Hfind.
  rewrite Hrep in Hrep1.
  unfold promote_product_with_retry. change (range 3) with (0 :: [1; 2]).
  destruct (promote_attempts_other_error config product premium_priority
              (bool_decide (item_status config = "APPROVED")) 3 0 [1; 2]
              (rate_limiter st) w1 e replies Hrep1 He) as (w2 & Heq & Ht2).
  rewrite Heq. cbv zeta iota beta.
  rewrite str_in_msg_promotion_error, set_rate_limiter_same.
  destruct (str_in "Пропуск товара" e); cbn [fst snd];
    (split; [reflexivity|]);
    unfold print; rewrite emit_trace, Ht2, Ht1, <- !app_assoc; reflexivity.
Qed.

Lemma promotion_failure_classified_witness :
  snd (fst (promote_step (sample_config None) gem "gem x100" Locals_init
              (world_of [] [Ok [sample_premium]]
                 [Raise "Forbidden. Пропуск товара невозможен"] [])))
  = incr_total_skipped Locals_init.
Proof.
  exact (proj1 (promotion_failure_classified (sample_config None) gem "gem x100"
                  Locals_init
                  (world_of [] [Ok [sample_premium]]
                     [Raise "Forbidden. Пропуск товара невозможен"] [])
                  [sample_premium] sample_premium
                  "Forbidden. Пропуск товара невозможен" [] []
                  eq_refl eq_refl eq_refl eq_refl)).
Defined.

(** ** The promoted total and the per-name counts *)

Lemma counts_total_insert (key : string) (n : Z) (d : gmap string Z) :
  counts_total (<[key := n]> d) = n + counts_total d - default 0 (d !! key).
Proof.
  unfold counts_total. destruct (d !! key) as [x|] eqn:E; cbn [default from_option]; unfold id.
  - rewrite <- (insert_delete_eq d key n).
    rewrite map_fold_insert_L; [|intros; lia | apply lookup_delete_eq].
    rewrite (map_fold_delete_L (fun _ n total => n + total) 0 key x d);
      [cbv beta; lia | intros; lia | exact E].
  - rewrite map_fold_insert_L; [cbv beta; lia | intros; lia | exact E].
Qed.

Lemma counts_total_dd_get (key : string) (d : gmap string Z) :
  counts_total (snd (dd_get key d)) = counts_total d.
Proof.
  unfold dd_get. destruct (d !! key) eqn:E; cbn [snd]; [reflexivity|].
  rewrite counts_total_insert, E. cbn [default]. lia.
Qed.

Lemma counts_total_dd_incr (key : string) (d : gmap string Z) :
  counts_total (dd_incr key d) = counts_total d + 1.
Proof.
  unfold dd_incr. pose proof (counts_total_dd_get key d) as Hs.
  pose proof (dd_get_value key d) as Hv.
  pose proof (dd_get_lookup key d key) as Hl.
  destruct (dd_get key d) as [n d']. cbn [fst snd] in *.
  rewrite counts_total_insert. lia.
Qed.

Lemma promote_step_counts_total config product norm_name st w :
  total_promoted (snd (fst (promote_step config product norm_name st w)))
  - counts_total (promoted_by_name (snd (fst (promote_step config product norm_name st w))))
  = total_promoted st - counts_total (promoted_by_name st).
Proof.
  unfold promote_step.
  repeat branch;
    cbn [fst snd promoted_by_name total_promoted incr_total_errors incr_total_skipped
         incr_total_promoted set_promoted_by_name set_rate_limiter];
    rewrite ?counts_total_dd_incr; lia.
Qed.

Lemma process_product_counts_total fromisoformat config product st w :
  total_promoted (snd (fst (process_product fromisoformat config product st w)))
  - counts_total
      (promoted_by_name (snd (fst (process_product fromisoformat config product st w))))
  = total_promoted st - counts_total (promoted_by_name st).
Proof.
  unfold process_product.
  repeat branch; rewrite ?promote_step_counts_total;
    repeat match goal with
      | H : (if _ then _ else _) = _ |- _ => revert H
      end;
    repeat branch; intros; simplify_eq;
    cbn [fst snd promoted_by_name total_promoted incr_total_checked incr_total_skipped
         set_promoted_by_name];
    try match goal with
      | E : dd_get ?k ?d = (_, ?d') |- _ =>
          replace d' with (snd (dd_get k d)) by (rewrite E; reflexivity);
          rewrite counts_total_dd_get
      end;
    cbn [fst snd promoted_by_name total_promoted incr_total_checked incr_total_skipped
         set_promoted_by_name];
    lia.
Qed.

(** A relation between the locals that every step of the cycle keeps holds
    between the locals it starts with and those it ends with. *)
Lemma check_and_update_products_rel (fromisoformat : string -> option datetime)
    (config : Config) (R : Locals -> Locals -> Prop) :
  (forall st, R st st) ->
  (forall st1 st2 st3, R st1 st2 -> R st2 st3 -> R st1 st3) ->
  (forall rl st, R st (set_rate_limiter rl st)) ->
  (forall c st, R st (set_cursor c st)) ->
  (forall st, R st (incr_total_errors st)) ->
  (forall product st w, R st (snd (fst (process_product fromisoformat config product st w)))) ->
  forall w, exists st w',
    check_and_update_products fromisoformat config w = Some (st, w') /\
    R Locals_init st.
Proof.
  intros Hrefl Htrans Hrl Hcur Herr Hstep w.
  destruct (check_and_update_products_reports fromisoformat config w) as (w0 & Heq & _).
  eexists _, _. split; [exact Heq|].
  pose proof (pages_loop_rel fromisoformat config R Hrefl Htrans Hrl Hcur Hstep
                (S (length (get_items_replies w))) Locals_init w) as Hrel.
  cbn beta in *.
  destruct (fst (fst (pages_loop fromisoformat (S (length (get_items_replies w)))
                        config Locals_init w))); auto.
  destruct Hrel as (st' & Hst' & ->). eapply Htrans; [exact Hst' | apply Herr].
Qed.

(** X14: the promoted total a cycle reports is the sum of its per-name
    counts: every listing processed moves both alike, also when the read
    of the duplicate check stores a zero under a name not yet seen. *)
Theorem promoted_total_is_counts_total (fromisoformat : string -> option datetime)
    (config : Config) (w : World) :
  (exists st w',
      check_and_update_products fromisoformat config w = Some (st, w') /\
      total_promoted st = counts_total (promoted_by_name st)) /\
  (forall product st w1,
      total_promoted (snd (fst (process_product fromisoformat config product st w1)))
      - counts_total
          (promoted_by_name (snd (fst (process_product fromisoformat config product st w1))))
      = total_promoted st - counts_total (promoted_by_name st)).
Proof.
  split; [|apply process_product_counts_total].
  destruct (check_and_update_products_rel fromisoformat config
              (fun st st' =>
                 total_promoted st' - counts_total (promoted_by_name st')
                 = total_promoted st - counts_total (promoted_by_name st)))
    with (w := w) as (st & w' & Heq & HR).
  - reflexivity.
  - intros st1 st2 st3 H1 H2. lia.
  - reflexivity.
  - reflexivity.
  - reflexivity.
  - intros product st w1. apply process_product_counts_total.
  - exists st, w'. split; [exact Heq|].
    cbn in HR. unfold counts_total in HR at 2. rewrite map_fold_empty in HR.
    fold (counts_total (promoted_by_name st)) in HR. lia.
Qed.

(** ** The remote calls, the lines and the sleeps of a cycle *)

Lemma count_events_app p (l1 l2 : list Event) :
  count_events p (l1 ++ l2) = (count_events p l1 + count_events p l2)%nat.
Proof. unfold count_events. rewrite List.filter_app, List.length_app. reflexivity. Qed.

Lemma sleeps_app (l1 l2 : list Event) : sleeps (l1 ++ l2) = sleeps l1 ++ sleeps l2.
Proof.
  induction l1 as [|e l1 IH]; [reflexivity|].
  destruct e; simpl; rewrite IH; reflexivity.
Qed.

Lemma accounted_nil : accounted 0 0 [].
Proof. unfold accounted. cbn. repeat split; try lia. constructor. Qed.

Lemma accounted_app c1 p1 c2 p2 (l1 l2 : list Event) :
  accounted c1 p1 l1 -> accounted c2 p2 l2 -> accounted (c1 + c2) (p1 + p2) (l1 ++ l2).
Proof.
  unfold accounted. intros (H1 & H2 & H3 & H4 & H5) (K1 & K2 & K3 & K4 & K5).
  rewrite !count_events_app, promote_calls_app, sleeps_app.
  repeat split; try lia. apply Forall_app. split; assumption.
Qed.

Lemma accounted_more c c' p (evs : list Event) :
  c <= c' -> accounted c p evs -> accounted c' p evs.
Proof. unfold accounted. intros Hc (H1 & H2). split; [lia | exact H2]. Qed.

Lemma count_events_countdown p (n : Z) :
  p (Print MNewline) = false ->
  (forall mins secs, p (Print (MRemaining mins secs)) = false) ->
  (forall seconds, p (Sleep seconds) = false) ->
  count_events p (countdown_events n) = 0%nat.
Proof.
  intros Hnl Hrem Hsl. unfold countdown_events.
  generalize (range_down_by_5 (Z.to_nat n) n). intros steps.
  rewrite count_events_app. unfold count_events at 2. cbn [List.filter]. rewrite Hnl.
  induction steps as [|r steps IH]; [reflexivity|].
  unfold count_events in *. cbn [flat_map app List.filter]. rewrite Hrem, Hsl.
  exact IH.
Qed.

Lemma countdown_events_sleeps_positive (n : Z) :
  Forall (fun seconds => 0 < seconds)%Q (sleeps (countdown_events n)).
Proof.
  destruct (range_down_by_5_sleeps (Z.to_nat n) n ltac:(lia)) as (_ & Hf & _).
  unfold countdown_events. rewrite countdown_events_sleeps.
  apply Forall_map. eapply Forall_impl; [exact Hf|].
  intros r Hr. cbv beta in Hr |- *. change 0%Q with (inject_Z 0).
  rewrite <- Zlt_Qlt. lia.
Qed.

(** A wait that is announced and sat out is no remote call and no
    success. *)
Lemma waited_events_accounted announce wait_time :
  is_success_line (Print announce) = false ->
  accounted 0 0 (waited_events announce wait_time).
Proof.
  intros Ha. unfold accounted, waited_events.
  assert (Hl : count_events is_offer_lookup
                 (Print announce :: Print (MWaiting (int_of wait_time))
                  :: countdown_events (int_of wait_time)) = 0%nat).
  { change (count_events is_offer_lookup (countdown_events (int_of wait_time)) = 0%nat).
    apply count_events_countdown; reflexivity. }
  assert (Hs : count_events is_success_line
                 (Print announce :: Print (MWaiting (int_of wait_time))
                  :: countdown_events (int_of wait_time)) = 0%nat).
  { unfold count_events. cbn [List.filter]. rewrite Ha.
    change (count_events is_success_line (countdown_events (int_of wait_time)) = 0%nat).
    apply count_events_countdown; reflexivity. }
  pose proof (promote_calls_waited announce wait_time eq_refl) as Hc.
  unfold waited_events in Hc. rewrite Hl, Hs, Hc.
  repeat split; try lia.
  destruct announce; apply countdown_events_sleeps_positive.
Qed.

Lemma promote_event_counts is_published product premium_priority :
  promote_calls [promote_event is_published product premium_priority] = 1%nat /\
  count_events is_offer_lookup [promote_event is_published product premium_priority] = 0%nat /\
  count_events is_success_line [promote_event is_published product premium_priority] = 0%nat /\
  sleeps [promote_event is_published product premium_priority] = [].
Proof. unfold promote_event. destruct is_published; repeat split. Qed.

(** The retry loop makes at most one call per attempt, at least one when
    it succeeds, looks no offer up and prints no success. *)
Lemma promote_attempts_events config product premium_priority is_published
    max_retries attempts :
  forall rl w, exists evs,
    trace (snd (promote_attempts config product premium_priority is_published
                  max_retries attempts rl w))
    = trace w ++ evs /\
    (promote_calls evs <= length attempts)%nat /\
    count_events is_offer_lookup evs = 0%nat /\
    count_events is_success_line evs = 0%nat /\
    Forall (fun seconds => 0 < seconds)%Q (sleeps evs) /\
    (fst (fst (fst (promote_attempts config product premium_priority is_published
                      max_retries attempts rl w))) = true ->
     (1 <= promote_calls evs)%nat).
Proof.
  induction attempts as [|a attempts IH]; intros rl w.
  - exists []. cbn. rewrite app_nil_r.
    repeat split; try lia; try discriminate; constructor.
  - rewrite promote_attempts_cons.
    pose proof (promote_call_trace
                  (promote_event is_published product premium_priority) w) as Ht.
    destruct (promote_event_counts is_published product premium_priority)
      as (Hc & Hl & Hs & Hz).
    assert (Hone : exists evs,
               trace w ++ [promote_event is_published product premium_priority]
               = trace w ++ evs /\
               (promote_calls evs <= length (a :: attempts))%nat /\
               count_events is_offer_lookup evs = 0%nat /\
               count_events is_success_line evs = 0%nat /\
               Forall (fun seconds => 0 < seconds)%Q (sleeps evs) /\
               (1 <= promote_calls evs)%nat).
    { eexists. split; [reflexivity|]. rewrite Hc, Hl, Hs, Hz. cbn [length].
      repeat split; try lia. constructor. }
    destruct Hone as (evs1 & He1 & Hc1 & Hl1 & Hs1 & Hz1 & Hp1).
    destruct (promote_call _ w) as [[u|e] w1]; cbn [snd] in Ht.
    + exists evs1. cbn [fst snd]. rewrite Ht. auto 10.
    + destruct (is_429 e).
      * pose proof (throttled_once_trace config rl w1) as Ht1.
        destruct (throttled_once config rl w1) as [[rl1 wt] w3]. cbn [snd] in Ht1.
        destruct (a <? max_retries - 1).
        -- destruct (IH rl1 (waited (MRateLimit (a + 1) max_retries) wt w3))
             as (evs & He & Hn & Hl2 & Hs2 & Hz2 & Hp2).
           destruct (waited_events_accounted (MRateLimit (a + 1) max_retries) wt eq_refl)
             as (Hwl & Hwc & Hws & _ & Hwz).
           exists ([promote_event is_published product premium_priority]
                   ++ waited_events (MRateLimit (a + 1) max_retries) wt ++ evs).
           rewrite He, waited_trace, Ht1, Ht.
           rewrite !count_events_app, !promote_calls_app, !sleeps_app, Hc, Hl, Hs, Hz.
           cbn [length app]. rewrite <- !app_assoc.
           repeat split; try lia.
           apply Forall_app. split; assumption.
        -- exists evs1. cbn [fst snd]. rewrite Ht1, Ht.
           repeat split; auto.
      * exists evs1. cbn [fst snd]. rewrite Ht. repeat split; auto.
Qed.

Lemma get_item_priority_statuses_trace item price (w : World) :
  trace (snd (get_item_priority_statuses item price w))
  = trace w ++ [GetItemPriorityStatuses item price].
Proof.
  unfold get_item_priority_statuses. cbn. destruct (priority_replies w); reflexivity.
Qed.

(** One listing that reaches the [try] block: one offer lookup, at most
    three promotion calls, and a success line with an accepted call when
    the promotion is counted. *)
Lemma promote_step_events config product norm_name st w :
  exists evs,
    trace (snd (promote_step config product norm_name st w)) = trace w ++ evs /\
    accounted 1
      (total_promoted (snd (fst (promote_step config product norm_name st w)))
       - total_promoted st) evs.
Proof.
  unfold promote_step.
  pose proof (get_item_priority_statuses_trace (item_id product) (item_price product) w)
    as Ht0.
  destruct (get_item_priority_statuses (item_id product) (item_price product) w)
    as [[priority_statuses|e] w1]; cbn [snd] in Ht0.
  - destruct (List.find is_premium priority_statuses) as [premium_priority|].
    + destruct (promote_attempts_events config product premium_priority
                  (bool_decide (item_status config = "APPROVED")) 3 (range 3)
                  (rate_limiter st) w1) as (evs1 & He & Hc & Hl & Hs & Hz & Hp).
      fold (promote_product_with_retry config product premium_priority
              (bool_decide (item_status config = "APPROVED")) (rate_limiter st) 3 w1)
        in He, Hp.
      change (length (range 3)) with 3%nat in Hc.
      destruct (promote_product_with_retry config product premium_priority
                  (bool_decide (item_status config = "APPROVED")) (rate_limiter st) 3 w1)
        as [[[success message] rl] w2].
      cbn [fst snd] in He, Hp.
      destruct success.
      * specialize (Hp eq_refl).
        pose proof (calculate_wait_time_trace config rl None (print (MSuccess message) w2))
          as Ht3.
        destruct (calculate_wait_time config rl None (print (MSuccess message) w2))
          as [wait_time w3]. cbn [snd] in Ht3.
        destruct (sleep_if_positive_cases wait_time w3) as [[e ->] | [-> | [-> Hpos]]].
        -- exists ([GetItemPriorityStatuses (item_id product) (item_price product)]
                   ++ evs1 ++ [Print (MSuccess message); Print (MUnexpected e)]).
           cbn [fst snd total_promoted incr_total_promoted set_promoted_by_name
                set_rate_limiter incr_total_errors].
           unfold print in *. rewrite emit_trace, Ht3, emit_trace, He, Ht0.
           rewrite <- !app_assoc. split; [reflexivity|].
           unfold accounted.
           rewrite !count_events_app, !promote_calls_app, !sleeps_app, Hl, Hs.
           cbn. rewrite app_nil_r. repeat split; try lia. exact Hz.
        -- exists ([GetItemPriorityStatuses (item_id product) (item_price product)]
                   ++ evs1 ++ [Print (MSuccess message)]).
           cbn [fst snd total_promoted incr_total_promoted set_promoted_by_name
                set_rate_limiter].
           unfold print in *. rewrite Ht3, emit_trace, He, Ht0.
           rewrite <- !app_assoc. split; [reflexivity|].
           unfold accounted.
           rewrite !count_events_app, !promote_calls_app, !sleeps_app, Hl, Hs.
           cbn. rewrite app_nil_r. repeat split; try lia. exact Hz.
        -- exists ([GetItemPriorityStatuses (item_id product) (item_price product)]
                   ++ evs1 ++ [Print (MSuccess message); Sleep wait_time]).
           cbn [fst snd total_promoted incr_total_promoted set_promoted_by_name
                set_rate_limiter].
           unfold sleep, print in *. rewrite emit_trace, Ht3, emit_trace, He, Ht0.
           rewrite <- !app_assoc. split; [reflexivity|].
           unfold accounted.
           rewrite !count_events_app, !promote_calls_app, !sleeps_app, Hl, Hs.
           cbn. repeat split; try lia.
           apply Forall_app. split; [exact Hz|]. constructor; [exact Hpos | constructor].
      * exists ([GetItemPriorityStatuses (item_id product) (item_price product)]
                ++ evs1 ++ [Print (MFailure message)]).
        assert (Hacc : accounted 1 0
                         ([GetItemPriorityStatuses (item_id product) (item_price product)]
                          ++ evs1 ++ [Print (MFailure message)])).
        { unfold accounted.
          rewrite !count_events_app, !promote_calls_app, !sleeps_app, Hl, Hs.
          cbn. rewrite app_nil_r. repeat split; try lia. exact Hz. }
        destruct (str_in "Пропуск товара" message);
          cbn [fst snd total_promoted incr_total_skipped incr_total_errors set_rate_limiter];
          unfold print; rewrite emit_trace, He, Ht0, <- !app_assoc, Z.sub_diag;
          (split; [reflexivity | exact Hacc]).
    + unfold say. cbn [fst snd total_promoted incr_total_skipped]. rewrite Z.sub_diag.
      destruct (verbose config); eexists;
        (split; [unfold print; rewrite ?emit_trace, Ht0, <- ?app_assoc; reflexivity|]);
        unfold accounted; cbn; repeat split; try lia; constructor.
  - cbn [fst snd total_promoted incr_total_errors]. rewrite Z.sub_diag.
    eexists.
    split; [unfold print; rewrite ?emit_trace, Ht0, <- ?app_assoc; reflexivity|].
    unfold accounted; cbn; repeat split; try lia; constructor.
Qed.

Lemma say_trace config m (w : World) :
  exists evs,
    trace (say config m w) = trace w ++ evs /\
    (is_success_line (Print m) = false -> accounted 0 0 evs).
Proof.
  unfold say. destruct (verbose config).
  - exists [Print m]. split; [reflexivity|]. intros Hm.
    unfold accounted, count_events. cbn [List.filter]. rewrite Hm.
    cbn. repeat split; try lia. constructor.
  - exists []. rewrite app_nil_r. split; [reflexivity|]. intros _. apply accounted_nil.
Qed.

Lemma process_product_events fromisoformat config product st w :
  exists evs,
    trace (snd (process_product fromisoformat config product st w)) = trace w ++ evs /\
    accounted
      (total_checked (snd (fst (process_product fromisoformat config product st w)))
       - total_checked st)
      (total_promoted (snd (fst (process_product fromisoformat config product st w)))
       - total_promoted st) evs.
Proof.
  pose proof (process_product_checked fromisoformat config product st w) as Hck.
  rewrite Hck. replace (total_checked st + 1 - total_checked st) with (0 + 1) by lia.
  clear Hck. unfold process_product.
  assert (Hsay : forall D st' m w0,
             trace w0 = trace w ->
             is_success_line (Print m) = false ->
             total_promoted st' = total_promoted st ->
             exists evs,
               trace (snd (D : Decision, st' : Locals, say config m w0)) = trace w ++ evs /\
               accounted (0 + 1)
                 (total_promoted (snd (fst (D, st', say config m w0))) - total_promoted st)
                 evs).
  { intros D st' m w0 Hw Hm Hp. cbn [fst snd]. rewrite Hp, Z.sub_diag.
    destruct (say_trace config m w0) as (evs & He & Hacc).
    exists evs. rewrite He, Hw. split; [reflexivity|].
    apply (accounted_more 0); [lia | apply Hacc, Hm]. }
  destruct (name_filter config _) as [m|] eqn:Hf.
  { apply Hsay; [reflexivity | | reflexivity].
    unfold name_filter in Hf.
    repeat case_bool_decide; cbn in Hf; simplify_eq; reflexivity. }
  destruct (fromisoformat (approval_date product)) as [approval|];
    [|apply Hsay; reflexivity].
  pose proof (_get_now_trace w) as Hnow.
  destruct (_get_now w) as [now w1]. cbn [snd] in Hnow.
  destruct (promo_threshold_sec config) as [threshold|e].
  2:{ exists []. cbn [fst snd total_promoted incr_total_checked].
      rewrite app_nil_r, Z.sub_diag. split; [exact Hnow|].
      apply (accounted_more 0); [lia | apply accounted_nil]. }
  destruct (_ <=? threshold * 1000000); [apply Hsay; [exact Hnow | reflexivity..]|].
  match goal with
  | |- context [let '(limit_reached, st0) := ?limit in _] =>
      assert (Hlim : total_promoted (snd limit) = total_promoted st);
      [|destruct limit as [limit_reached st1]]
  end.
  { destruct (0 <=? duplicates_limit config); [|reflexivity].
    destruct (dd_get _ _). reflexivity. }
  cbn [snd] in Hlim.
  destruct limit_reached; [apply Hsay; [exact Hnow | reflexivity | exact Hlim]|].
  destruct (say_trace config
              (MItemHeader (default "" (item_name product)) (item_id product)) w1)
    as (evs1 & He1 & Hacc1).
  destruct (say_trace config
              (MElapsed (elapsed_since now
                           match tzinfo approval with
                           | Some _ => approval
                           | None => localize_utc approval
                           end / 60000000))
              (say config (MItemHeader (default "" (item_name product)) (item_id product)) w1))
    as (evs2 & He2 & Hacc2).
  match goal with
  | |- context [promote_step ?c ?p ?n ?s ?w0] =>
      destruct (promote_step_events c p n s w0) as (evs3 & He3 & Hacc3)
  end.
  exists (evs1 ++ evs2 ++ evs3).
  rewrite He3, He2, He1, Hnow, <- !app_assoc. split; [reflexivity|].
  rewrite Hlim in Hacc3.
  replace (0 + 1) with (0 + (0 + 1)) by lia.
  match goal with
  | |- accounted _ ?p _ => replace p with (0 + (0 + p)) by lia
  end.
  apply accounted_app; [apply Hacc1; reflexivity|].
  apply accounted_app; [apply Hacc2; reflexivity | exact Hacc3].
Qed.

Lemma process_items_events fromisoformat config products :
  forall st w, exists evs,
    trace (snd (process_items fromisoformat config products st w)) = trace w ++ evs /\
    accounted
      (total_checked (snd (fst (process_items fromisoformat config products st w)))
       - total_checked st)
      (total_promoted (snd (fst (process_items fromisoformat config products st w)))
       - total_promoted st) evs.
Proof.
  induction products as [|p products IH]; intros st w.
  - exists []. cbn. rewrite app_nil_r, !Z.sub_diag. split; [reflexivity | apply accounted_nil].
  - rewrite process_items_cons.
    destruct (process_product_events fromisoformat config p st w) as (evs1 & He1 & Hacc1).
    destruct (IH (snd (fst (process_product fromisoformat config p st w)))
                (snd (process_product fromisoformat config p st w)))
      as (evs2 & He2 & Hacc2).
    destruct (fst (fst (process_product fromisoformat config p st w))); cbn [fst snd];
      try (exists (evs1 ++ evs2); rewrite He2, He1, <- app_assoc;
           split; [reflexivity|];
           match goal with
           | |- accounted (?c3 - ?c1) (?p3 - ?p1) _ =>
               match type of Hacc1 with
               | accounted (?c2 - _) (?p2 - _) _ =>
                   replace (c3 - c1) with ((c2 - c1) + (c3 - c2)) by lia;
                   replace (p3 - p1) with ((p2 - p1) + (p3 - p2)) by lia
               end
           end;
           apply accounted_app; assumption).
    exists evs1. split; assumption.
Qed.

Lemma accounted_sum c1 p1 c2 p2 c p (l1 l2 : list Event) :
  accounted c1 p1 l1 -> accounted c2 p2 l2 -> c = c1 + c2 -> p = p1 + p2 ->
  accounted c p (l1 ++ l2).
Proof. intros H1 H2 -> ->. apply accounted_app; assumption. Qed.

Lemma fetch_attempts_events config attempts :
  forall st w, exists evs,
    trace (snd (fetch_attempts config page_max_retries attempts st w)) = trace w ++ evs /\
    accounted 0 0 evs.
Proof.
  assert (Hprint : forall m, is_success_line (Print m) = false -> accounted 0 0 [Print m]).
  { intros m Hm. unfold accounted, count_events. cbn [List.filter]. rewrite Hm.
    cbn. repeat split; try lia. constructor. }
  assert (Hget : forall c s, accounted 0 0 [GetItems c s]).
  { intros c s. unfold accounted. cbn. repeat split; try lia. constructor. }
  induction attempts as [|a attempts IH]; intros st w.
  - exists []. cbn. rewrite app_nil_r. split; [reflexivity | apply accounted_nil].
  - rewrite fetch_attempts_cons.
    pose proof (get_items_trace (cursor st) (item_status config) w) as Ht.
    destruct (get_items (cursor st) (item_status config) w) as [[il|e] w1];
      cbn [snd] in *.
    + eexists. split; [exact Ht | apply Hget].
    + destruct (is_rate_limited e).
      * pose proof (throttled_once_trace config (rate_limiter st) w1) as Ht1.
        destruct (throttled_once config (rate_limiter st) w1) as [[rl1 wt] w3].
        cbn [snd] in Ht1. cbv zeta.
        destruct (a <? page_max_retries - 1).
        -- destruct (IH (set_rate_limiter rl1 st)
                       (waited (MPageRateLimit (a + 1) page_max_retries) wt w3))
             as (evs & He & Hacc).
           eexists. split.
           ++ rewrite He, waited_trace, Ht1, Ht. rewrite <- !app_assoc. reflexivity.
           ++ apply (accounted_sum 0 0 0 0); [apply Hget | | reflexivity..].
              apply (accounted_sum 0 0 0 0); [| exact Hacc | reflexivity..].
              apply waited_events_accounted. reflexivity.
        -- eexists. split.
           ++ cbn [snd]. unfold print_summary, print.
              rewrite !emit_trace, Ht1, Ht. rewrite <- !app_assoc. reflexivity.
           ++ apply (accounted_sum 0 0 0 0); [apply Hget | | reflexivity..].
              apply (accounted_sum 0 0 0 0); [| | reflexivity..]; apply Hprint; reflexivity.
      * eexists. split.
        -- cbn [snd]. unfold print_summary, print.
           rewrite !emit_trace, Ht. rewrite <- !app_assoc. reflexivity.
        -- apply (accounted_sum 0 0 0 0); [apply Hget | | reflexivity..].
           apply (accounted_sum 0 0 0 0); [| | reflexivity..]; apply Hprint; reflexivity.
Qed.

Lemma random_delay_between_pages_sec_trace config (w : World) :
  trace (snd (random_delay_between_pages_sec config w)) = trace w.
Proof.
  unfold random_delay_between_pages_sec.
  destruct (_delay_between_pages_bounds config) as [pmin pmax].
  destruct (Qeq_bool pmin 0 && Qeq_bool pmax 0); [reflexivity | apply uniform_trace].
Qed.

Lemma pages_loop_events fromisoformat config :
  forall fuel st w, exists evs,
    trace (snd (pages_loop fromisoformat fuel config st w)) = trace w ++ evs /\
    accounted
      (total_checked (snd (fst (pages_loop fromisoformat fuel config st w)))
       - total_checked st)
      (total_promoted (snd (fst (pages_loop fromisoformat fuel config st w)))
       - total_promoted st) evs.
Proof.
  induction fuel as [|fuel IH]; intros st w.
  - exists []. cbn. rewrite app_nil_r, !Z.sub_diag. split; [reflexivity | apply accounted_nil].
  - cbn [pages_loop].
    destruct (fetch_attempts_locals config (range page_max_retries) st w) as [rl Hst].
    destruct (fetch_attempts_events config (range page_max_retries) st w)
      as (evs1 & He1 & Hacc1).
    destruct (fetch_attempts config page_max_retries (range page_max_retries) st w)
      as [[fx st1] w1].
    cbn [fst snd] in Hst, He1.
    destruct fx as [[il|]|]; subst st1.
    + destruct (process_items_events fromisoformat config (items il)
                  (set_rate_limiter rl st) w1) as (evs2 & He2 & Hacc2).
      destruct (process_items fromisoformat config (items il) (set_rate_limiter rl st) w1)
        as [[[e|] st2] w2]; cbn [fst snd] in *;
        cbn [total_checked total_promoted set_rate_limiter] in Hacc2.
      * exists (evs1 ++ evs2). rewrite He2, He1, <- app_assoc. split; [reflexivity|].
        eapply accounted_sum; [exact Hacc1 | exact Hacc2 | lia..].
      * destruct (negb (has_next_page (page_info il))); cbn [fst snd].
        -- exists (evs1 ++ evs2). rewrite He2, He1, <- app_assoc. split; [reflexivity|].
           eapply accounted_sum; [exact Hacc1 | exact Hacc2 | lia..].
        -- pose proof (random_delay_between_pages_sec_trace config w2) as Ht3.
           destruct (random_delay_between_pages_sec config w2) as [wt w3].
           cbn [snd] in Ht3.
           assert (Hnext : forall w4 evs3,
                      trace w4 = trace w3 ++ evs3 ->
                      accounted 0 0 evs3 ->
                      exists evs,
                        trace (snd (pages_loop fromisoformat fuel config
                                      (set_cursor (end_cursor (page_info il)) st2) w4))
                        = trace w ++ evs /\
                        accounted
                          (total_checked
                             (snd (fst (pages_loop fromisoformat fuel config
                                          (set_cursor (end_cursor (page_info il)) st2) w4)))
                           - total_checked st)
                          (total_promoted
                             (snd (fst (pages_loop fromisoformat fuel config
                                          (set_cursor (end_cursor (page_info il)) st2) w4)))
                           - total_promoted st) evs).
           { intros w4 evs3 He3 Hacc3.
             destruct (IH (set_cursor (end_cursor (page_info il)) st2) w4)
               as (evs4 & He4 & Hacc4).
             exists (evs1 ++ evs2 ++ evs3 ++ evs4).
             rewrite He4, He3, Ht3, He2, He1, <- !app_assoc. split; [reflexivity|].
             cbn [total_checked total_promoted set_cursor] in Hacc4.
             set (done := pages_loop fromisoformat fuel config
                            (set_cursor (end_cursor (page_info il)) st2) w4) in *.
             apply (accounted_sum 0 0
                      (total_checked (snd (fst done)) - total_checked st)
                      (total_promoted (snd (fst done)) - total_promoted st));
               [exact Hacc1 | | lia..].
             apply (accounted_sum (total_checked st2 - total_checked st)
                      (total_promoted st2 - total_promoted st)
                      (total_checked (snd (fst done)) - total_checked st2)
                      (total_promoted (snd (fst done)) - total_promoted st2));
               [exact Hacc2 | | lia..].
             apply (accounted_sum 0 0
                      (total_checked (snd (fst done)) - total_checked st2)
                      (total_promoted (snd (fst done)) - total_promoted st2));
               [exact Hacc3 | exact Hacc4 | lia..]. }
           destruct (sleep_if_positive_cases wt w3) as [[e ->] | [-> | [-> Hpos]]].
           ++ exists (evs1 ++ evs2). cbn [fst snd].
              rewrite Ht3, He2, He1, <- app_assoc. split; [reflexivity|].
              eapply accounted_sum; [exact Hacc1 | exact Hacc2 | lia..].
           ++ apply (Hnext w3 []); [symmetry; apply app_nil_r | apply accounted_nil].
           ++ apply (Hnext (sleep wt w3) [Sleep wt]); [reflexivity|].
              unfold accounted. cbn. repeat split; try lia.
              constructor; [exact Hpos | constructor].
    + exists (evs1 ++ [Print MNoPageData;
                       Print (MSummary (total_checked st) (total_promoted st))]).
      cbn [fst snd]. unfold print_summary, print. rewrite !emit_trace, He1, <- !app_assoc.
      split; [reflexivity|].
      cbn [total_checked total_promoted incr_total_errors set_rate_limiter].
      rewrite !Z.sub_diag.
      apply (accounted_sum 0 0 0 0); [exact Hacc1 | | reflexivity..].
      unfold accounted. cbn. repeat split; try lia. constructor.
    + exists evs1. cbn [fst snd]. split; [exact He1|].
      cbn [total_checked total_promoted incr_total_errors set_rate_limiter].
      rewrite !Z.sub_diag. exact Hacc1.
Qed.

(** X15: what the page loop of a cycle has asked of the marketplace
    after any number of rounds, whether it has ended by then or not, of
    what it did since it started: at most one offer lookup per listing
    checked and at most three promotion calls per lookup; as many success
    lines as promotions counted, which is at most the number of promotion
    calls; and no sleep of no or negative length. *)
Theorem cycle_remote_calls (fromisoformat : string -> option datetime)
    (config : Config) (fuel : nat) (st : Locals) (w : World) :
  exists evs,
    trace (snd (pages_loop fromisoformat fuel config st w)) = trace w ++ evs /\
    Z.of_nat (count_events is_offer_lookup evs)
    <= total_checked (snd (fst (pages_loop fromisoformat fuel config st w)))
       - total_checked st /\
    (promote_calls evs <= 3 * count_events is_offer_lookup evs)%nat /\
    (count_events is_success_line evs <= promote_calls evs)%nat /\
    Z.of_nat (count_events is_success_line evs)
    = total_promoted (snd (fst (pages_loop fromisoformat fuel config st w)))
      - total_promoted st /\
    Forall (fun seconds => 0 < seconds)%Q (sleeps evs).
Proof.
  destruct (pages_loop_events fromisoformat config fuel st w) as (evs & He & Hacc).
  exists evs. split; [exact He|].
  destruct Hacc as (Hlookups & Hcalls & Hlines & Hpromoted & Hsleeps).
  repeat split; assumption.
Qed.

(** ** The pause between two cycles *)

(** X16: the pause that ends a round of [main], when both bounds of the
    interval are given as numbers [umin] and [umax] with [0 < umin] and
    [umin <= umax], which [_validate_config] accepts: it is the number
    drawn between them, it lies in the range and is positive, and the
    fixed [update_interval] is not read, whatever it holds. *)
Theorem next_update_interval_sec_range (intervals : UpdateIntervals) (w : World)
    (umin umax : Q) :
  _update_interval_bounds_minmax intervals = Ok (Some umin, Some umax) ->
  Qlt 0 umin ->
  Qle umin umax ->
  unit_draws w ->
  update_interval_refused (Some umin, Some umax) = false /\
  exists seconds w',
    uniform umin umax w = (seconds, w') /\
    next_update_interval_sec intervals w = (Ok seconds, w') /\
    Qle umin seconds /\ Qle seconds umax /\ Qlt 0 seconds /\
    unit_draws w'.
Proof.
  intros Hb Hpos Hle Hu. split.
  - unfold update_interval_refused.
    assert (H1 : Qle_bool umin 0 = false).
    { destruct (Qle_bool umin 0) eqn:E; [|reflexivity].
      apply Qle_bool_iff in E. lra. }
    assert (H2 : Qle_bool umax 0 = false).
    { destruct (Qle_bool umax 0) eqn:E; [|reflexivity].
      apply Qle_bool_iff in E. lra. }
    assert (H3 : Qle_bool umin umax = true) by (apply Qle_bool_iff; exact Hle).
    rewrite H1, H2, H3. reflexivity.
  - destruct (uniform_between umin umax w Hle Hu) as [[Hlo Hhi] Hu'].
    unfold next_update_interval_sec. rewrite Hb.
    destruct (uniform umin umax w) as [seconds w1]. cbn [fst snd] in *.
    exists seconds, w1. repeat split; [exact Hlo | exact Hhi | lra | exact Hu'].
Qed.

Lemma next_update_interval_sec_range_witness :
  unit_draws (world_with_random (1 # 2)) /\
  exists seconds,
    fst (next_update_interval_sec default_intervals (world_with_random (1 # 2)))
    = Ok seconds /\
    Qlt 0 seconds.
Proof.
  assert (Hu : unit_draws (world_with_random (1 # 2))).
  { constructor; [split; lra | constructor]. }
  split; [exact Hu|].
  destruct (next_update_interval_sec_range default_intervals
              (world_with_random (1 # 2)) (inject_Z 1800) (inject_Z 1800)
              eq_refl ltac:(reflexivity) ltac:(apply Qle_refl) Hu)
    as (_ & seconds & w' & _ & Heq & _ & _ & Hpos & _).
  exists seconds. rewrite Heq. split; [reflexivity | exact Hpos].
Defined.

(** ** A duplicate limit of zero *)

Lemma process_product_limit_zero fromisoformat config product st w :
  duplicates_limit config = 0 ->
  (forall name, promoted_count st name = 0) ->
  (forall name,
      promoted_count (snd (fst (process_product fromisoformat config product st w))) name
      = 0) /\
  total_promoted (snd (fst (process_product fromisoformat config product st w)))
  = total_promoted st /\
  fst (fst (process_product fromisoformat config product st w)) <> Promoted /\
  exists evs,
    trace (snd (process_product fromisoformat config product st w)) = trace w ++ evs /\
    accounted 0 0 evs.
Proof.
  intros Hk Hinv. unfold process_product.
  assert (Hsay : forall D st' m w0,
             D <> Promoted ->
             trace w0 = trace w ->
             is_success_line (Print m) = false ->
             (forall name, promoted_count st' name = 0) ->
             total_promoted st' = total_promoted st ->
             (forall name,
                 promoted_count (snd (fst (D : Decision, st' : Locals, say config m w0))) name
                 = 0) /\
             total_promoted (snd (fst (D, st', say config m w0))) = total_promoted st /\
             fst (fst (D, st', say config m w0)) <> Promoted /\
             exists evs,
               trace (snd (D, st', say config m w0)) = trace w ++ evs /\
               accounted 0 0 evs).
  { intros D st' m w0 HD Hw Hm Hc Hp. cbn [fst snd].
    destruct (say_trace config m w0) as (evs & He & Hacc).
    repeat split; auto. exists evs. rewrite He, Hw. auto. }
  destruct (name_filter config _) as [m|] eqn:Hf.
  { apply Hsay; [discriminate | reflexivity | | exact Hinv | reflexivity].
    unfold name_filter in Hf.
    repeat case_bool_decide; cbn in Hf; simplify_eq; reflexivity. }
  destruct (fromisoformat (approval_date product)) as [approval|];
    [|apply Hsay; [discriminate | reflexivity | reflexivity | exact Hinv | reflexivity]].
  pose proof (_get_now_trace w) as Hnow.
  destruct (_get_now w) as [now w1]. cbn [snd] in Hnow.
  destruct (promo_threshold_sec config) as [threshold|e].
  2:{ cbn [fst snd]. split; [exact Hinv|]. split; [reflexivity|].
      split; [discriminate|].
      exists []. rewrite app_nil_r. split; [exact Hnow | apply accounted_nil]. }
  destruct (_ <=? threshold * 1000000);
    [apply Hsay; [discriminate | exact Hnow | reflexivity | exact Hinv | reflexivity]|].
  rewrite Hk. change (0 <=? 0) with true. cbv iota.
  pose proof (dd_get_value (_normalize_name (Some (default "" (item_name product))))
                (promoted_by_name (incr_total_checked st))) as Hv.
  pose proof (fun name =>
                dd_get_lookup (_normalize_name (Some (default "" (item_name product))))
                  (promoted_by_name (incr_total_checked st)) name) as Hl.
  destruct (dd_get _ _) as [n d]. cbn [fst snd] in Hv, Hl.
  assert (Hn : n = 0).
  { rewrite Hv. apply (Hinv (_normalize_name (Some (default "" (item_name product))))). }
  clear Hv. subst n. change (0 <=? 0) with true. cbv iota.
  apply Hsay; [discriminate | exact Hnow | reflexivity | | reflexivity].
  intros name. unfold promoted_count. cbn [promoted_by_name set_promoted_by_name].
  rewrite Hl. apply (Hinv name).
Qed.

(** X17: a duplicate limit of zero lets nothing be promoted. Every
    listing that passes the name, date and age checks is stopped at the
    duplicate check, so no listing asks anything of the marketplace and the
    cycle ends with no promotion counted. *)
Theorem duplicates_limit_zero_promotes_nothing (fromisoformat : string -> option datetime)
    (config : Config) (w : World) :
  duplicates_limit config = 0 ->
  (exists st w',
      check_and_update_products fromisoformat config w = Some (st, w') /\
      total_promoted st = 0 /\
      forall name, promoted_count st name = 0) /\
  (forall product st w1,
      (forall name, promoted_count st name = 0) ->
      fst (fst (process_product fromisoformat config product st w1)) <> Promoted /\
      exists evs,
        trace (snd (process_product fromisoformat config product st w1))
        = trace w1 ++ evs /\
        count_events is_offer_lookup evs = 0%nat /\
        promote_calls evs = 0%nat).
Proof.
  intros Hk. split.
  - destruct (check_and_update_products_rel fromisoformat config
                (fun st st' =>
                   (forall name, promoted_count st name = 0) ->
                   (forall name, promoted_count st' name = 0) /\
                   total_promoted st' = total_promoted st))
      with (w := w) as (st & w' & Heq & HR).
    + auto.
    + intros st1 st2 st3 H1 H2 H. destruct (H1 H) as [H1c H1p].
      destruct (H2 H1c) as [H2c H2p]. split; [exact H2c | congruence].
    + intros rl st H. split; [exact H | reflexivity].
    + intros c st H. split; [exact H | reflexivity].
    + intros st H. split; [exact H | reflexivity].
    + intros product st w1 H.
      destruct (process_product_limit_zero fromisoformat config product st w1 Hk H)
        as (Hc & Hp & _). split; assumption.
    + exists st, w'. split; [exact Heq|].
      destruct HR as [Hc Hp].
      { intros name. unfold promoted_count. cbn. rewrite lookup_empty. reflexivity. }
      split; [exact Hp | exact Hc].
  - intros product st w1 H.
    destruct (process_product_limit_zero fromisoformat config product st w1 Hk H)
      as (_ & _ & HD & evs & He & Hl & Hcalls & _).
    split; [exact HD|]. exists evs. split; [exact He|]. lia.
Qed.

Lemma duplicates_limit_zero_promotes_nothing_witness :
  duplicates_limit (sample_config (Some 0)) = 0 /\
  exists st w',
    check_and_update_products sample_fromisoformat (sample_config (Some 0)) two_gems
    = Some (st, w') /\
    total_promoted st = 0.
Proof.
  split; [reflexivity|].
  destruct (proj1 (duplicates_limit_zero_promotes_nothing sample_fromisoformat
                     (sample_config (Some 0)) two_gems eq_refl))
    as (st & w' & Heq & Hp & _).
  exists st, w'. split; [exact Heq | exact Hp].
Defined.
